(** * charity-django: the import_companies and logcommand management commands

    A shallow embedding of
      - charity_django/companies/management/commands/import_companies.py
      - charity_django/utils/management/commands/logcommand.py
    and the properties of them that the specification states.

    Conventions of the embedding.
      - A Python [str] is a [string] whose characters are the code points
        0..255; [str.strip], [str.replace], [str.split] and
        [str.startswith] are written out below.
      - A Python [dict] is an association list in insertion order whose
        keys are distinct ([dict_set] replaces in place, or appends).
      - A function that can raise returns a [result]; the exception classes
        that occur are the constructors of [exn].
      - The command object ([self]) and the database are threaded through
        as an explicit [state]. *)

From Stdlib Require Import String Ascii List Bool Arith Lia.
From stdpp Require Import base decidable option list strings pretty.
Import ListNotations.

Local Open Scope string_scope.
Local Open Scope list_scope.

(* ===================================================================== *)
(** ** Python strings *)
(* ===================================================================== *)

Module PyStr.

(** [str.isspace] on one code point below 256: TAB..CR, FS..US, SPACE,
    NEL (0x85) and NBSP (0xA0). These are the characters [str.strip()]
    removes. *)
Definition isspace (c : ascii) : bool :=
  let n := nat_of_ascii c in
  (Nat.leb 9 n && Nat.leb n 13) || (Nat.leb 28 n && Nat.leb n 32)
  || Nat.eqb n 133 || Nat.eqb n 160.

Definition isdigit (c : ascii) : bool :=
  let n := nat_of_ascii c in Nat.leb 48 n && Nat.leb n 57.

Definition digit_val (c : ascii) : nat := nat_of_ascii c - 48.

Definition is_empty (s : string) : bool :=
  match s with EmptyString => true | String _ _ => false end.

Fixpoint lstrip (s : string) : string :=
  match s with
  | EmptyString => EmptyString
  | String c s' => if isspace c then lstrip s' else s
  end.

Fixpoint rstrip (s : string) : string :=
  match s with
  | EmptyString => EmptyString
  | String c s' =>
      let r := rstrip s' in
      if isspace c && is_empty r then EmptyString else String c r
  end.

(** [s.strip()] *)
Definition strip (s : string) : string := rstrip (lstrip s).

(** [s.startswith(p)] *)
Definition startswith (p s : string) : bool := String.prefix p s.

Fixpoint drop (n : nat) (s : string) : string :=
  match n, s with
  | S k, String _ s' => drop k s'
  | _, _ => s
  end.

(** [sub in s] *)
Fixpoint contains (sub s : string) : bool :=
  String.prefix sub s ||
  match s with
  | EmptyString => false
  | String _ s' => contains sub s'
  end.

(** [s.replace(old, new)] for a non-empty [old]: occurrences are found
    from the left and do not overlap. [skip] counts the characters of a
    matched occurrence that remain to be dropped. *)
Fixpoint replace_from (skip : nat) (old new s : string) : string :=
  match s with
  | EmptyString => EmptyString
  | String c s' =>
      match skip with
      | S k => replace_from k old new s'
      | O =>
          if String.prefix old s
          then new +:+ replace_from (String.length old - 1) old new s'
          else String c (replace_from 0 old new s')
      end
  end.

Definition replace (old new s : string) : string := replace_from 0 old new s.

(** The first occurrence of a non-empty [sep] in [s]: the text before it
    and the text after it. *)
Fixpoint partition (sep s : string) : option (string * string) :=
  match s with
  | EmptyString => None
  | String c s' =>
      if String.prefix sep s then Some (EmptyString, drop (String.length sep) s)
      else match partition sep s' with
           | Some (a, b) => Some (String c a, b)
           | None => None
           end
  end.

(** [s.split(sep, maxsplit=1)] *)
Definition split1 (sep s : string) : list string :=
  match partition sep s with
  | Some (a, b) => [a; b]
  | None => [s]
  end.

(** [s.split(c)] for a separator of one character. *)
Fixpoint split_char (c : ascii) (s : string) : list string :=
  match s with
  | EmptyString => [EmptyString]
  | String x s' =>
      let r := split_char c s' in
      if Ascii.eqb x c then EmptyString :: r
      else match r with
           | h :: t => String x h :: t
           | [] => [String x EmptyString]
           end
  end.

Fixpoint filter_chars (keep : ascii -> bool) (s : string) : string :=
  match s with
  | EmptyString => EmptyString
  | String c s' =>
      if keep c then String c (filter_chars keep s') else filter_chars keep s'
  end.

Fixpoint map_chars (f : ascii -> ascii) (s : string) : string :=
  match s with
  | EmptyString => EmptyString
  | String c s' => String (f c) (map_chars f s')
  end.

(** [s.lower()] on the code points below 256. *)
Definition lower_char (c : ascii) : ascii :=
  let n := nat_of_ascii c in
  if (Nat.leb 65 n && Nat.leb n 90)
     || (Nat.leb 192 n && Nat.leb n 222 && negb (Nat.eqb n 215))
  then ascii_of_nat (n + 32) else c.

Definition lower (s : string) : string := map_chars lower_char s.

Fixpoint first_line (s : string) : string :=
  match s with
  | EmptyString => EmptyString
  | String c s' =>
      if Ascii.eqb c "010"%char then EmptyString else String c (first_line s')
  end.

End PyStr.

(* ===================================================================== *)
(** ** Python dicts, exceptions *)
(* ===================================================================== *)

Section Dict.
Context {K V : Type} `{EqDecision K}.

(** A [dict]: the items in insertion order. *)
Definition dict : Type := list (K * V).

(** [d.get(k)] ([None] when the key is absent). *)
Fixpoint dict_get (k : K) (d : dict) : option V :=
  match d with
  | [] => None
  | (k', v) :: d' => if decide (k' = k) then Some v else dict_get k d'
  end.

(** [d[k] = v]: the value of an existing key is replaced where it stands,
    a new key goes to the end. *)
Fixpoint dict_set (k : K) (v : V) (d : dict) : dict :=
  match d with
  | [] => [(k, v)]
  | (k', v') :: d' =>
      if decide (k' = k) then (k', v) :: d' else (k', v') :: dict_set k v d'
  end.

(** [k in d] *)
Definition dict_mem (k : K) (d : dict) : bool :=
  match dict_get k d with Some _ => true | None => false end.

Definition dict_keys (d : dict) : list K := map fst d.
Definition dict_values (d : dict) : list V := map snd d.
Definition dict_len (d : dict) : nat := length d.
End Dict.

Arguments dict : clear implicits.

(** The exception classes the two commands can meet. The last five are
    those of [requests.exceptions] and [zipfile]; [ChunkedEncodingError],
    [HTTPError], [ConnectionError] and [Timeout] are pairwise unrelated
    subclasses of [RequestException]. [OtherException] stands for any other
    subclass of [Exception], named by its text. *)
Inductive exn : Type :=
  | ValueError
  | IndexError
  | KeyError
  | TypeError
  | AttributeError
  | ChunkedEncodingError
  | HTTPError
  | ConnectionError
  | Timeout
  | BadZipFile
  | OtherException (text : string).

Global Instance exn_eq_dec : EqDecision exn.
Proof. solve_decision. Defined.

Inductive result (A : Type) : Type :=
  | Ok (a : A)
  | Raise (e : exn).
Arguments Ok {A} a.
Arguments Raise {A} e.

Definition bind {A B : Type} (r : result A) (f : A -> result B) : result B :=
  match r with
  | Ok a => f a
  | Raise e => Raise e
  end.

Notation "x <- c1 ;; c2" := (bind c1 (fun x => c2))
  (at level 100, c1 at next level, right associativity).

(** A [for] loop whose body can raise: the first exception ends the loop. *)
Fixpoint for_each {A S : Type} (body : A -> S -> result S) (l : list A) (s : S)
  : result S :=
  match l with
  | [] => Ok s
  | a :: l' => s' <- body a s ;; for_each body l' s'
  end.

Definition is_ok {A : Type} (r : result A) : bool :=
  match r with Ok _ => true | Raise _ => false end.

(* ===================================================================== *)
(** ** Values, dates and [strptime] *)
(* ===================================================================== *)

(** The Django model classes of [charity_django.companies.models]. *)
Inductive model : Type := Company | PreviousName | CompanySICCode | SICCode.

Global Instance model_eq_dec : EqDecision model.
Proof. solve_decision. Defined.

Record date : Type := mkDate { year : nat; month : nat; day : nat }.

Global Instance date_eq_dec : EqDecision date.
Proof. solve_decision. Defined.

(** The Python values that occur in a row. [VDateTime d] is the
    [datetime.datetime] at midnight of [d] (what [strptime] with the format
    [%d/%m/%Y] returns), [VDate d] is a [datetime.date], [VNow] is
    [self.now]. [VObj m pk] is an instance of the model class [m]: Django
    compares and hashes model instances by class and primary key, and that
    is all a [dict] key or a foreign key sees of them. *)
Inductive value : Type :=
  | VNone
  | VStr (s : string)
  | VBool (b : bool)
  | VDateTime (d : date)
  | VDate (d : date)
  | VNow
  | VObj (m : model) (pk : value).

Global Instance value_eq_dec : EqDecision value.
Proof.
  unfold EqDecision, Decision.
  fix go 1.
  intros [| s | b | d | d | | m pk] [| s' | b' | d' | d' | | m' pk'];
    try (right; discriminate); try (left; reflexivity).
  - destruct (decide (s = s')) as [->|]; [left; reflexivity | right; congruence].
  - destruct (decide (b = b')) as [->|]; [left; reflexivity | right; congruence].
  - destruct (decide (d = d')) as [->|]; [left; reflexivity | right; congruence].
  - destruct (decide (d = d')) as [->|]; [left; reflexivity | right; congruence].
  - destruct (decide (m = m')) as [->|]; [| right; congruence].
    destruct (go pk pk') as [->|]; [left; reflexivity | right; congruence].
Defined.

(** Python truth of a value: [None], [""] and [False] are false. *)
Definition truthy (v : value) : bool :=
  match v with
  | VNone => false
  | VStr s => negb (PyStr.is_empty s)
  | VBool b => b
  | _ => true
  end.

Module Strptime.

Definition is_leap (y : nat) : bool :=
  (Nat.eqb (y mod 4) 0 && negb (Nat.eqb (y mod 100) 0)) || Nat.eqb (y mod 400) 0.

Definition days_in_month (y m : nat) : nat :=
  match m with
  | 1 | 3 | 5 | 7 | 8 | 10 | 12 => 31
  | 4 | 6 | 9 | 11 => 30
  | 2 => if is_leap y then 29 else 28
  | _ => 0
  end.

Definition nonzero_digit (c : ascii) : bool :=
  PyStr.isdigit c && negb (Ascii.eqb c "0"%char).

(** The directive [%d]: the alternatives
    [3[0-1] | [1-2]\d | 0[1-9] | [1-9] | <space>[1-9]] of CPython's
    [_strptime], on the text up to the next [/]. *)
Definition parse_d (s : string) : option nat :=
  match s with
  | String a (String b EmptyString) =>
      if Ascii.eqb a "3"%char && (Ascii.eqb b "0"%char || Ascii.eqb b "1"%char)
      then Some (30 + PyStr.digit_val b)
      else if (Ascii.eqb a "1"%char || Ascii.eqb a "2"%char) && PyStr.isdigit b
      then Some (10 * PyStr.digit_val a + PyStr.digit_val b)
      else if (Ascii.eqb a "0"%char || Ascii.eqb a " "%char) && nonzero_digit b
      then Some (PyStr.digit_val b)
      else None
  | String a EmptyString =>
      if nonzero_digit a then Some (PyStr.digit_val a) else None
  | _ => None
  end.

(** The directive [%m]: [1[0-2] | 0[1-9] | [1-9]]. *)
Definition parse_m (s : string) : option nat :=
  match s with
  | String a (String b EmptyString) =>
      if Ascii.eqb a "1"%char
         && (Ascii.eqb b "0"%char || Ascii.eqb b "1"%char || Ascii.eqb b "2"%char)
      then Some (10 + PyStr.digit_val b)
      else if Ascii.eqb a "0"%char && nonzero_digit b
      then Some (PyStr.digit_val b)
      else None
  | String a EmptyString =>
      if nonzero_digit a then Some (PyStr.digit_val a) else None
  | _ => None
  end.

(** The directive [%Y]: four digits. *)
Definition parse_Y (s : string) : option nat :=
  match s with
  | String a (String b (String c (String d EmptyString))) =>
      if PyStr.isdigit a && PyStr.isdigit b && PyStr.isdigit c && PyStr.isdigit d
      then Some (1000 * PyStr.digit_val a + 100 * PyStr.digit_val b
                 + 10 * PyStr.digit_val c + PyStr.digit_val d)
      else None
  | _ => None
  end.

(** [datetime.datetime.strptime(s, "%d/%m/%Y")]: [None] stands for the
    [ValueError] it raises when the text does not match the format, when
    text remains after the year, or when the day, month and year are not a
    date of the calendar (years run from 1). *)
Definition strptime (s : string) : option date :=
  match PyStr.partition "/" s with
  | None => None
  | Some (ds, rest) =>
      match PyStr.partition "/" rest with
      | None => None
      | Some (ms, ys) =>
          match parse_d ds, parse_m ms, parse_Y ys with
          | Some d, Some m, Some y =>
              if Nat.leb 1 y && Nat.leb d (days_in_month y m)
              then Some (mkDate y m d)
              else None
          | _, _, _ => None
          end
      end
  end.

End Strptime.

(* ===================================================================== *)
(** ** import_companies: rows and their cleaning *)
(* ===================================================================== *)

(** A row of [csv.DictReader]: column name to text ([VStr]), or to [VNone]
    for a column the line is too short to fill. *)
Definition row : Type := dict string value.

Definition date_fields : list string :=
  [ "DissolutionDate"; "IncorporationDate"; "Accounts_NextDueDate";
    "Accounts_LastMadeUpDate"; "Returns_NextDueDate"; "Returns_LastMadeUpDate";
    "ConfStmtNextDueDate"; "ConfStmtLastMadeUpDate" ].

(** [getattr(self, "bool_fields", [])]: the command defines no
    [bool_fields]. *)
Definition bool_fields : list string := [].

Definition bulk_limit : nat := 10000.

(** [k.strip().replace(".", "_")] *)
Definition clean_key (k : string) : string := PyStr.replace "." "_" (PyStr.strip k).

(** [{k.strip().replace(".", "_"): row[k] for k in row}] *)
Definition clean_keys (r : row) : row :=
  fold_left (fun d kv => dict_set (clean_key (fst kv)) (snd kv) d) r [].

(** One turn of the loop of [clean_fields], on the field [f] whose value is
    [v]. A value that is not a [str] passes every test of the chain and
    stays as it is. *)
Definition clean_field (f : string) (v : value) : value :=
  match v with
  | VStr s =>
      if PyStr.is_empty s then VNone
      else if bool_decide (f ∈ date_fields) then
        (* date_format is the str "%d/%m/%Y"; record.get(f) is true here *)
        match Strptime.strptime (PyStr.strip s) with
        | Some d => VDateTime d
        | None => VNone             (* except ValueError *)
        end
      else if bool_decide (f ∈ bool_fields) then
        let val := PyStr.strip (PyStr.lower s) in
        if bool_decide (val ∈ ["f"; "false"; "no"; "0"; "n"]) then VBool false
        else if bool_decide (val ∈ ["t"; "true"; "yes"; "1"; "y"]) then VBool true
        else v
      else VStr (PyStr.replace (String "000"%char EmptyString) "" (PyStr.strip s))
  | _ => v
  end.

(** [clean_fields]: the loop assigns to the keys it iterates over and to no
    other, so it maps over the items. *)
Definition clean_fields (record : row) : row :=
  map (fun kv => (fst kv, clean_field (fst kv) (snd kv))) record.

(** [charity_django/companies/ch_api.py] is not among the sources. Its
    three lookup tables are a parameter of the embedding: each maps a key of
    the table to the [.value] of the enumeration member the table holds for
    it, and is [None] off the table. Nor is
    [charity_django/companies/models.py]: the names that
    [Company.__init__] accepts as keyword arguments (the fields of the
    model) are a parameter too. *)
Record ch_api : Type := {
  COMPANY_CATEGORY_LOOKUP : value -> option value;
  COMPANY_STATUS_LOOKUP : value -> option value;
  ACCOUNTS_TYPE_LOOKUP : value -> option value;
  COMPANY_FIELDS : string -> bool
}.

Definition cats (api : ch_api) : list (string * (value -> option value)) :=
  [ ("CompanyCategory", COMPANY_CATEGORY_LOOKUP api);
    ("CompanyStatus", COMPANY_STATUS_LOOKUP api);
    ("Accounts_AccountCategory", ACCOUNTS_TYPE_LOOKUP api) ].

(** [row.get(field)] *)
Definition row_get (f : string) (r : row) : value := default VNone (dict_get f r).

(** [clean_categories] *)
Definition clean_categories (api : ch_api) (r : row) : row :=
  fold_left
    (fun r c =>
       let x := row_get (fst c) r in
       dict_set (fst c) (default x (snd c x)) r)
    (cats api) r.

(* ===================================================================== *)
(** ** import_companies: model instances and the database *)
(* ===================================================================== *)

(** An instance of a model class, and a row of its table: attribute (or
    column) name to value. A model built from keyword arguments holds them;
    an attribute that got none reads as [None]. A foreign key holds the
    [VObj] of the instance it points to. *)
Definition instance : Type := dict string value.

Definition getattr (r : instance) (f : string) : value := default VNone (dict_get f r).

(** Modelled from the spec: [charity_django/companies/models.py] is not
    among the sources. "previous names and SIC codes are unique per
    (company, value)": these are the [unique_together] of [PreviousName]
    and of [CompanySICCode]; [Company] and [SICCode] declare none. *)
Definition unique_together (m : model) : list (list string) :=
  match m with
  | PreviousName => [["company"; "CompanyName"]]
  | CompanySICCode => [["company"; "sic_code"]]
  | Company | SICCode => []
  end.

(** Modelled from the spec: the primary key of a model that is not among
    the sources. A company is identified by its [CompanyNumber] (the
    command's [id_field]), a SIC code by its [code]. *)
Definition pk_field (m : model) : string :=
  match m with
  | Company => "CompanyNumber"
  | SICCode => "code"
  | PreviousName | CompanySICCode => "id"
  end.

Definition pk (m : model) (r : instance) : value := getattr r (pk_field m).

(** The keyword arguments of [bulk_create] in [MODEL_UPDATES]. The
    [update_fields] of [Company] are computed from the model: every concrete
    field but [CompanyNumber]. *)
Inductive update_fields_spec : Type :=
  | AllFieldsBut (names : list string)
  | Fields (names : list string).

Record bulk_options : Type := {
  update_conflicts : bool;
  update_fields : update_fields_spec;
  unique_fields : list string
}.

Definition MODEL_UPDATES (m : model) : option bulk_options :=
  match m with
  | Company =>
      Some {| update_conflicts := true;
              update_fields := AllFieldsBut ["CompanyNumber"];
              unique_fields := ["CompanyNumber"] |}
  | PreviousName =>
      Some {| update_conflicts := true;
              update_fields := Fields ["in_latest_update"];
              unique_fields := ["company"; "CompanyName"] |}
  | CompanySICCode =>
      Some {| update_conflicts := true;
              update_fields := Fields ["in_latest_update"];
              unique_fields := ["company"; "sic_code"] |}
  | SICCode => None
  end.

Definition table : Type := list instance.

Record database : Type := mkDatabase {
  tbl_Company : table;
  tbl_PreviousName : table;
  tbl_CompanySICCode : table;
  tbl_SICCode : table
}.

Definition objects (m : model) (d : database) : table :=
  match m with
  | Company => tbl_Company d
  | PreviousName => tbl_PreviousName d
  | CompanySICCode => tbl_CompanySICCode d
  | SICCode => tbl_SICCode d
  end.

Definition set_objects (m : model) (t : table) (d : database) : database :=
  match m with
  | Company => mkDatabase t (tbl_PreviousName d) (tbl_CompanySICCode d) (tbl_SICCode d)
  | PreviousName => mkDatabase (tbl_Company d) t (tbl_CompanySICCode d) (tbl_SICCode d)
  | CompanySICCode => mkDatabase (tbl_Company d) (tbl_PreviousName d) t (tbl_SICCode d)
  | SICCode => mkDatabase (tbl_Company d) (tbl_PreviousName d) (tbl_CompanySICCode d) t
  end.

(** The values of the columns [fields] in a row. *)
Definition row_key (fields : list string) (r : instance) : list value :=
  map (getattr r) fields.

(** What [ON CONFLICT ... DO UPDATE SET f = EXCLUDED.f] leaves of the stored
    row [old] when [new] conflicts with it. *)
Definition merge_row (u : update_fields_spec) (old new : instance) : instance :=
  match u with
  | Fields names =>
      fold_left (fun acc f => dict_set f (getattr new f) acc) names old
  | AllFieldsBut names =>
      fold_left (fun acc f => dict_set f (getattr old f) acc) names new
  end.

(** One object of a [bulk_create] with [update_conflicts=True]. *)
Fixpoint upsert (o : bulk_options) (obj : instance) (t : table) : table :=
  match t with
  | [] => [obj]
  | r :: t' =>
      if decide (row_key (unique_fields o) r = row_key (unique_fields o) obj)
      then merge_row (update_fields o) r obj :: t'
      else r :: upsert o obj t'
  end.

(** [model.objects.bulk_create(objs, ...)]; without options the
    objects are inserted as they come. *)
Definition bulk_create (objs : list instance) (o : option bulk_options) (t : table)
  : table :=
  match o with
  | Some o => fold_left (fun t obj => upsert o obj t) objs t
  | None => t ++ objs
  end.

Definition in_latest_update (r : instance) : value := getattr r "in_latest_update".

Definition is_flagged (r : instance) : bool :=
  bool_decide (in_latest_update r = VBool true).

(** [model.objects.update(in_latest_update=False)] *)
Definition update_unflag (t : table) : table :=
  map (dict_set "in_latest_update" (VBool false)) t.

(** [model.objects.filter(in_latest_update=True)] *)
Definition filter_flagged (t : table) : table := List.filter is_flagged t.

(** [model.objects.exclude(in_latest_update=True)] *)
Definition exclude_flagged (t : table) : table :=
  List.filter (fun r => negb (is_flagged r)) t.

(** [model.objects.exclude(in_latest_update=True).delete()]: what is left
    of the table. *)
Definition delete_unflagged (t : table) : table := filter_flagged t.

(** [SICCode.objects.update_or_create(code=code, defaults={"title": title})]:
    the table afterwards and the instance returned. *)
Definition sic_options : bulk_options :=
  {| update_conflicts := true; update_fields := Fields ["title"];
     unique_fields := ["code"] |}.

Definition update_or_create (code title : string) (t : table) : instance * table :=
  let obj := [("code", VStr code); ("title", VStr title)] in
  (obj, upsert sic_options obj t).

(* ===================================================================== *)
(** ** import_companies: the command *)
(* ===================================================================== *)

(** A member of a ZIP archive read as CSV: its name and its rows. *)
Record zip_member : Type := { filename : string; csv_rows : list row }.

(** A response of [session.get]. [content] is [None] when the body is not
    a ZIP archive. *)
Record response : Type := {
  status_code : nat;
  from_cache : bool;
  absolute_links : list string;
  content : option (list zip_member)
}.

(** What the database connection of the command does, as the server sees
    it: a transaction is opened, the database is written (and is [d]
    afterwards), the transaction is committed. *)
Inductive db_event : Type :=
  | Begin
  | Write (d : database)
  | Commit.

(** What the command writes, one constructor per call site. *)
Inductive message : Type :=
  | UsingRequestsCache
  | Fetching (link : string)
  | FromCache
  | FromNetwork
  | ErrorFetching (link : string)
  | ErrorText (err : exn)
  | Opening (name : string)
  | Saving (n : nat) (m : model)
  | Saved (n : nat) (m : model) (total : nat)
  | ToKeep (n : nat)
  | ToDelete (n : nat)
  | Deleted (n : nat) (m : model)
  | Executed (title : string).

(** The command object and the database. [records] is the
    [defaultdict(dict)] of the batches, [object_count] the
    [defaultdict(lambda: 0)]. [session] is [true] for the cached session.
    The last three fields are traces that no definition reads: the calls
    of [add_record], the calls of [bulk_create], and the journal of the
    database connection, oldest first. *)
Record state : Type := mkState {
  records : dict model (dict (list value) instance);
  object_count : dict model nat;
  sic_code_cache : dict string instance;
  debug : bool;
  session : bool;
  files : dict string response;
  stdout : list message;
  db : database;
  added : list (model * instance);
  written : list (model * list instance);
  journal : list db_event
}.

(** [Command.__init__] on a database [d]. *)
Definition init_state (d : database) : state :=
  mkState [] [] [] false false [] [] d [] [] [].

Definition set_records (x : dict model (dict (list value) instance)) (st : state) :=
  mkState x (object_count st) (sic_code_cache st) (debug st) (session st)
          (files st) (stdout st) (db st) (added st) (written st) (journal st).
Definition set_object_count (x : dict model nat) (st : state) :=
  mkState (records st) x (sic_code_cache st) (debug st) (session st)
          (files st) (stdout st) (db st) (added st) (written st) (journal st).
Definition set_sic_code_cache (x : dict string instance) (st : state) :=
  mkState (records st) (object_count st) x (debug st) (session st)
          (files st) (stdout st) (db st) (added st) (written st) (journal st).
Definition set_debug (x : bool) (st : state) :=
  mkState (records st) (object_count st) (sic_code_cache st) x (session st)
          (files st) (stdout st) (db st) (added st) (written st) (journal st).
Definition set_session_field (x : bool) (st : state) :=
  mkState (records st) (object_count st) (sic_code_cache st) (debug st) x
          (files st) (stdout st) (db st) (added st) (written st) (journal st).
Definition set_files (x : dict string response) (st : state) :=
  mkState (records st) (object_count st) (sic_code_cache st) (debug st) (session st)
          x (stdout st) (db st) (added st) (written st) (journal st).
Definition write (x : message) (st : state) :=
  mkState (records st) (object_count st) (sic_code_cache st) (debug st) (session st)
          (files st) (stdout st ++ [x]) (db st) (added st) (written st) (journal st).
(** The session writes the database: it becomes [x], and the journal
    notes it. *)
Definition set_db (x : database) (st : state) :=
  mkState (records st) (object_count st) (sic_code_cache st) (debug st) (session st)
          (files st) (stdout st) x (added st) (written st) (journal st ++ [Write x]).
(** A transaction is opened or committed. *)
Definition log_event (ev : db_event) (st : state) :=
  mkState (records st) (object_count st) (sic_code_cache st) (debug st) (session st)
          (files st) (stdout st) (db st) (added st) (written st) (journal st ++ [ev]).
Definition trace_added (m : model) (r : instance) (st : state) :=
  mkState (records st) (object_count st) (sic_code_cache st) (debug st) (session st)
          (files st) (stdout st) (db st) (added st ++ [(m, r)]) (written st) (journal st).
Definition trace_written (m : model) (rs : list instance) (st : state) :=
  mkState (records st) (object_count st) (sic_code_cache st) (debug st) (session st)
          (files st) (stdout st) (db st) (added st) (written st ++ [(m, rs)]) (journal st).

(** [self.records[model]] and [self.object_count[model]]: reading a key a
    [defaultdict] does not have stores the default under it. *)
Definition dd_get {V : Type} (dflt : V) (m : model) (d : dict model V) : V * dict model V :=
  match dict_get m d with
  | Some v => (v, d)
  | None => (dflt, dict_set m dflt d)
  end.

(** The batch of [m]: [self.records[m]] read without the store. *)
Definition batch (m : model) (st : state) : dict (list value) instance :=
  default [] (dict_get m (records st)).

(** [save_records] *)
Definition save_records (m : model) (st : state) : state :=
  let '(b, recs) := dd_get [] m (records st) in
  let st := set_records recs st in
  let st := write (Saving (dict_len b) m) st in
  let st := trace_written m (dict_values b) st in
  let st := set_db (set_objects m (bulk_create (dict_values b) (MODEL_UPDATES m)
                                               (objects m (db st))) (db st)) st in
  let '(n, oc) := dd_get 0 m (object_count st) in
  let st := set_object_count (dict_set m (n + dict_len b) oc) st in
  let st := write (Saved (dict_len b) m (n + dict_len b)) st in
  set_records (dict_set m [] (records st)) st.

(** The loop of [save_all_records], over the items [items]. *)
Definition save_items (items : list (model * dict (list value) instance)) (st : state)
  : state :=
  fold_left
    (fun st item => if Nat.ltb 0 (dict_len (snd item)) then save_records (fst item) st else st)
    items st.

(** [save_all_records]: the loop runs over the items of [self.records];
    [save_records model] replaces the batch of [model] alone, so every
    batch is tested as it stood when the loop began. *)
Definition save_all_records (st : state) : state := save_items (records st) st.

(** The tuple [unique_fields] of [add_record]. *)
Definition unique_key (m : model) (record : instance) : list value :=
  match unique_together m with
  | fs :: _ => map (getattr record) fs
  | [] => [pk m record]
  end.

(** The assignment [self.records[model][unique_fields] = record] of
    [add_record]. *)
Definition insert_record (m : model) (record : instance) (st : state) : state :=
  let unique_fields := unique_key m record in
  let '(b, recs) := dd_get [] m (records st) in
  set_records (dict_set m (dict_set unique_fields record b) recs) st.

(** [add_record]. A [dict] passed as [record] is first made an instance of
    the model, which holds the same attributes: the embedding has one
    type for both. *)
Definition add_record (m : model) (record : instance) (st : state) : state :=
  let st := trace_added m record st in
  let st := insert_record m record st in
  let '(bc, recs) := dd_get [] Company (records st) in
  let st := set_records recs st in
  if Nat.leb bulk_limit (dict_len bc) then save_all_records st else st.

(** The local variables of the loop of [parse_row] over the columns. *)
Record row_acc : Type := mkAcc {
  previous_names : dict string (dict string value);
  sic_codes : list instance;
  record : dict string value;
  acc_state : state
}.

(** [pn[i]] of a list of strings. *)
Definition index (l : list string) (i : nat) : result string :=
  match nth_error l i with
  | Some x => Ok x
  | None => Raise IndexError
  end.

(** The text of a value on which a [str] method is called. *)
Definition as_str (v : value) (otherwise : exn) : result string :=
  match v with
  | VStr s => Ok s
  | _ => Raise otherwise
  end.

(** The branch [k.startswith("PreviousName_")] of [parse_row]. *)
Definition parse_previous_name (k : string) (v : value) (a : row_acc) : result row_acc :=
  let pn := PyStr.split_char "_"%char k in
  if truthy v then
    pn1 <- index pn 1 ;;
    let names :=
      if dict_mem pn1 (previous_names a) then previous_names a
      else dict_set pn1 [] (previous_names a) in
    let entry := default [] (dict_get pn1 names) in
    pn2 <- index pn 2 ;;
    if bool_decide (pn2 = "CONDATE") then
      s <- as_str v TypeError ;;
      match Strptime.strptime s with
      | None => Raise ValueError
      | Some d =>
          let entry := dict_set "CONDATE" (VDate d) entry in
          let entry := dict_set "nameno" (VStr pn1) entry in
          Ok (mkAcc (dict_set pn1 entry names) (sic_codes a) (record a) (acc_state a))
      end
    else
      Ok (mkAcc (dict_set pn1 (dict_set pn2 v entry) names)
                (sic_codes a) (record a) (acc_state a))
  else Ok a.

(** The branch [k.startswith("SICCode_")] of [parse_row]. *)
Definition parse_sic_code (v : value) (a : row_acc) : result row_acc :=
  if truthy v then
    s <- as_str v AttributeError ;;
    if negb (PyStr.is_empty (PyStr.replace "None Supplied" "" s)) then
      match map PyStr.strip (PyStr.split1 " - " s) with
      | [sic_code; sic_title] =>
          let st := acc_state a in
          let st :=
            if dict_mem sic_code (sic_code_cache st) then st
            else
              let '(new_code, t) :=
                update_or_create sic_code sic_title (objects SICCode (db st)) in
              let st := set_db (set_objects SICCode t (db st)) st in
              set_sic_code_cache (dict_set sic_code new_code (sic_code_cache st)) st in
          let cached := default [] (dict_get sic_code (sic_code_cache st)) in
          Ok (mkAcc (previous_names a) (sic_codes a ++ [cached]) (record a) st)
      | _ => Raise ValueError       (* the unpacking into two names *)
      end
    else Ok a
  else Ok a.

(** One turn of the loop [for k in row] of [parse_row]; [v] is [row[k]]. *)
Definition parse_column (kv : string * value) (a : row_acc) : result row_acc :=
  let '(k, v) := kv in
  if PyStr.startswith "PreviousName_" k then parse_previous_name k v a
  else if PyStr.startswith "SICCode_" k then parse_sic_code v a
  else Ok (mkAcc (previous_names a) (sic_codes a) (dict_set k v (record a)) (acc_state a)).

(** [n[key]] of a [dict]. *)
Definition subscript (key : string) (n : dict string value) : result value :=
  match dict_get key n with
  | Some v => Ok v
  | None => Raise KeyError
  end.

(** The keyword arguments of the [Company] that [parse_row] builds:
    the record without its two lists, then [last_updated] and
    [in_latest_update]. A keyword given twice is a [TypeError], and so is,
    in [Model.__init__], a keyword that is no field of the model. *)
Definition company_kwargs (is_field : string -> bool) (record : dict string value)
  : result instance :=
  let kw :=
    List.filter
      (fun kv => negb (bool_decide (fst kv ∈ ["sic_codes"; "previous_names"])))
      record in
  if dict_mem "last_updated" kw || dict_mem "in_latest_update" kw
  then Raise TypeError
  else
    let kwargs := kw ++ [("last_updated", VNow); ("in_latest_update", VBool true)] in
    if forallb (fun kv => is_field (fst kv)) kwargs then Ok kwargs
    else Raise TypeError.

(** [parse_row]. The list [address1] it also builds is never read. *)
Definition parse_row (api : ch_api) (r : row) (st : state) : result state :=
  let r := clean_keys r in
  let r := clean_fields r in
  let r := clean_categories api r in
  a <- for_each parse_column r (mkAcc [] [] [] st) ;;
  company <- company_kwargs (COMPANY_FIELDS api) (record a) ;;
  let self := VObj Company (pk Company company) in
  let st := add_record Company company (acc_state a) in
  st <- for_each
          (fun n st =>
             name <- subscript "CompanyName" n ;;
             condate <- subscript "CONDATE" n ;;
             Ok (add_record PreviousName
                   [("company", self); ("CompanyName", name);
                    ("ConDate", condate); ("in_latest_update", VBool true)] st))
          (dict_values (previous_names a)) st ;;
  Ok (fold_left
        (fun st s =>
           add_record CompanySICCode
             [("company", self); ("sic_code", VObj SICCode (pk SICCode s));
              ("in_latest_update", VBool true)] st)
        (sic_codes a) st).

(** What the command meets outside itself. [session_get cached url] is
    what [self.session.get(url)] does, on the cached session or on the
    plain one: a response, or an exception. [_company_sql.py] is not among
    the sources: [UPDATE_COMPANIES] is a parameter, each statement with its
    title and with what [cursor.execute] of it does to the database. *)
Record world : Type := {
  api : ch_api;
  session_get : bool -> string -> result response;
  UPDATE_COMPANIES : list (string * (database -> result database))
}.

Definition start_url : string := "http://download.companieshouse.gov.uk/en_output.html".

(** [zip_regex.match(link)] for [.*/BasicCompanyData-.*\.zip]: the match
    starts at the start of the link and [.] stops at a line feed, so the
    first line of the link holds [/BasicCompanyData-] and, after it,
    [.zip]. *)
Definition zip_regex_match (link : string) : bool :=
  match PyStr.partition "/BasicCompanyData-" (PyStr.first_line link) with
  | Some (_, rest) => PyStr.contains ".zip" rest
  | None => false
  end.

(** [response.raise_for_status()] *)
Definition raise_for_status (r : response) : result unit :=
  if Nat.leb 400 (status_code r) && Nat.ltb (status_code r) 600
  then Raise HTTPError else Ok tt.

(** [set_session] *)
Definition set_session (install_cache : bool) (st : state) : state :=
  if install_cache then set_session_field true (write UsingRequestsCache st)
  else set_session_field false st.

(** The [try] block of [fetch_file] for one link. *)
Definition fetch_link_try (w : world) (link : string) (st : state) : result state :=
  r <- session_get w (session st) link ;;
  let st := set_files (dict_set link r (files st)) st in
  let st := write (if from_cache r then FromCache else FromNetwork) st in
  _ <- raise_for_status r ;;
  Ok st.

(** One turn of the loop of [fetch_file]. The handler is that of
    [except requests.exceptions.ChunkedEncodingError]: of the statements
    of the [try] block only [session.get] can raise that class, before
    anything is assigned, so the handler runs on the state the block
    began with. *)
Definition fetch_link (w : world) (link : string) (st : state) : result state :=
  if zip_regex_match link then
    let st := write (Fetching link) st in
    match fetch_link_try w link st with
    | Raise ChunkedEncodingError =>
        Ok (write (ErrorText ChunkedEncodingError) (write (ErrorFetching link) st))
    | r => r
    end
  else Ok st.

(** [fetch_file] *)
Definition fetch_file (w : world) (st : state) : result state :=
  let st := set_files [] st in
  response <- session_get w (session st) start_url ;;
  _ <- raise_for_status response ;;
  for_each (fetch_link w) (absolute_links response) st.

(** The rows of a member that the loop of [parse_file] reaches: with
    [debug] it leaves after the row of index 100. *)
Definition rows_read (dbg : bool) (rows : list row) : list row :=
  if dbg then firstn 101 rows else rows.

(** [parse_file] *)
Definition parse_file (w : world) (resp : response) (source_url : string) (st : state)
  : result state :=
  let st := write (Opening source_url) st in
  match content resp with
  | None => Raise BadZipFile
  | Some members =>
      for_each
        (fun f st =>
           let st := write (Opening (filename f)) st in
           st <- for_each (parse_row (api w)) (rows_read (debug st) (csv_rows f)) st ;;
           Ok (save_all_records st))
        members st
  end.

Record options : Type := { opt_cache : bool; opt_debug : bool }.

(** The three [update(in_latest_update=False)] that open [handle]. *)
Definition mark_stale (d : database) : database :=
  let d := set_objects Company (update_unflag (objects Company d)) d in
  let d := set_objects CompanySICCode (update_unflag (objects CompanySICCode d)) d in
  set_objects PreviousName (update_unflag (objects PreviousName d)) d.

(** One turn of the loop [for model in [CompanySICCode, PreviousName]]. *)
Definition prune (m : model) (st : state) : state :=
  let t := objects m (db st) in
  let st := write (ToKeep (length (filter_flagged t))) st in
  let st := write (ToDelete (length (exclude_flagged t))) st in
  let deleted := length (exclude_flagged t) in
  let st := set_db (set_objects m (delete_unflagged t) (db st)) st in
  write (Deleted deleted m) st.

(** [handle] from the first statement of the [with] block to the end of
    the loop that deletes. *)
Definition import_and_prune (w : world) (o : options) (st : state) : result state :=
  let st := set_db (mark_stale (db st)) st in
  let st := set_session (opt_cache o) st in
  st <- fetch_file w st ;;
  st <- for_each (fun item st => parse_file w (snd item) (fst item) st) (files st) st ;;
  Ok (fold_left (fun st m => prune m st) [CompanySICCode; PreviousName] st).

(** The loop [for title, sql in UPDATE_COMPANIES.items()]. *)
Definition execute_all (w : world) (st : state) : result state :=
  for_each
    (fun stmt st =>
       d <- snd stmt (db st) ;;
       Ok (write (Executed (fst stmt)) (set_db d st)))
    (UPDATE_COMPANIES w) st.

Definition handle_body (w : world) (o : options) (st : state) : result state :=
  st <- import_and_prune w o st ;;
  execute_all w st.

(** How a run of [handle] ends: it returns, or it raises and leaves the
    database as [d]. *)
Inductive outcome : Type :=
  | Finished (st : state)
  | Failed (e : exn) (d : database).

(** [with transaction.atomic():] around [body]: the block opens a
    transaction, and commits it when [body] returns; an exception that
    leaves the block rolls the database back to what it was on entry. *)
Definition atomic (body : state -> result state) (st : state) : outcome :=
  match body (log_event Begin st) with
  | Ok st' => Finished (log_event Commit st')
  | Raise e => Failed e (db st)
  end.

(** [handle] *)
Definition handle (w : world) (o : options) (st : state) : outcome :=
  let st := set_debug (opt_debug o) st in
  atomic (handle_body w o) st.

(** The database a run leaves. *)
Definition database_after (r : outcome) : database :=
  match r with
  | Finished st => db st
  | Failed _ d => d
  end.

(* ===================================================================== *)
(** ** import_companies: notions of the statements *)
(* ===================================================================== *)

(** A row in which every text of a date field that [strptime] refuses has
    been emptied beforehand. *)
Definition blank_bad_date (f : string) (v : value) : value :=
  match v with
  | VStr s =>
      if bool_decide (f ∈ date_fields) && negb (PyStr.is_empty s)
         && negb (bool_decide (is_Some (Strptime.strptime (PyStr.strip s))))
      then VStr "" else v
  | _ => v
  end.

Definition blank_bad_dates (r : row) : row :=
  map (fun kv => (fst kv, blank_bad_date (clean_key (fst kv)) (snd kv))) r.


(** The files [fetch_file] is left with when no fetch ends it: the ZIP
    links whose [session.get] returned, each with its response. *)
Definition fetched (w : world) (cached : bool) (links : list string)
  (d : dict string response) : dict string response :=
  fold_left
    (fun d link =>
       if zip_regex_match link then
         match session_get w cached link with
         | Ok r => dict_set link r d
         | Raise _ => d
         end
       else d)
    links d.

(** The fetch of a link goes through, or fails by a chunked-encoding
    error. *)
Definition fetch_passes (w : world) (cached : bool) (link : string) : Prop :=
  session_get w cached link = Raise ChunkedEncodingError
  \/ exists r, session_get w cached link = Ok r /\ raise_for_status r = Ok tt.

(** The columns on which [bulk_create] finds a conflict in the table of
    [m]. *)
Definition key_fields (m : model) : list string :=
  match MODEL_UPDATES m with
  | Some o => unique_fields o
  | None => [pk_field m]
  end.

(** The table [t] of [m] has a row of key [k] whose [in_latest_update] is
    [True]. *)
Definition present (m : model) (k : list value) (t : table) : Prop :=
  exists row,
    In row t /\ row_key (key_fields m) row = k /\ in_latest_update row = VBool true.

(** The row [row] of a table is still in the table [t], as it was or
    updated to [in_latest_update = True]. *)
Definition kept (m : model) (row : instance) (t : table) : Prop :=
  exists row',
    In row' t /\ row_key (key_fields m) row' = row_key (key_fields m) row
    /\ (row' = row \/ in_latest_update row' = VBool true).

(** What a merge keeps: the key of the stored row, and the flag of the new
    one. *)
Definition merge_keeps (o : bulk_options) : Prop :=
  forall old new,
    row_key (unique_fields o) old = row_key (unique_fields o) new ->
    row_key (unique_fields o) (merge_row (update_fields o) old new)
    = row_key (unique_fields o) old
    /\ in_latest_update (merge_row (update_fields o) old new) = in_latest_update new.

(** A sequence of calls of [add_record]. *)
Definition add_records (calls : list (model * instance)) (st : state) : state :=
  fold_left (fun st c => add_record (fst c) (snd c) st) calls st.

(** A batch as [add_record] keeps it: every record under its own key, no
    key twice. *)
Definition batch_wf (key : instance -> list value) (b : dict (list value) instance) : Prop :=
  NoDup (dict_keys b) /\ forall k r, In (k, r) b -> k = key r.

(** What holds of the batches and of the calls of [bulk_create] all along:
    every batch is well formed, and no call of [bulk_create] was given two
    records with the same unique key. *)
Definition batches_wf (st : state) : Prop :=
  (forall m, batch_wf (unique_key m) (batch m st))
  /\ (forall m rs, In (m, rs) (written st) -> NoDup (map (unique_key m) rs)).

(** The batch of [m] after the insertions of [calls] and nothing else. *)
Definition inserted (m : model) (calls : list (model * instance))
  (b : dict (list value) instance) : dict (list value) instance :=
  fold_left
    (fun b c => if decide (fst c = m) then dict_set (unique_key m (snd c)) (snd c) b else b)
    calls b.

(** The calls of [calls] that add a record of [m]. *)
Definition calls_of (m : model) (calls : list (model * instance)) : list (model * instance) :=
  List.filter (fun c => bool_decide (fst c = m)) calls.

(** Two states that agree on the batches, on the calls of [add_record] and
    on the tables of the three models the import fills. *)
Definition same_view (st st' : state) : Prop :=
  (forall m, batch m st' = batch m st)
  /\ added st' = added st
  /\ (forall m, m <> SICCode -> objects m (db st') = objects m (db st)).

Definition all_empty (st : state) : Prop := forall m, batch m st = [].

(** What holds all along a run of [handle] that began with the table [t0]
    of companies: the batches hold flagged records of the three models,
    each under its own key; every record passed to [add_record] waits in
    a batch or is in its table with [in_latest_update = True]; no company
    of [t0] has left the table. *)
Definition run_inv (t0 : table) (st : state) : Prop :=
  (forall m k r, In (k, r) (batch m st) ->
                 k = unique_key m r /\ m <> SICCode /\ in_latest_update r = VBool true)
  /\ (forall m r, In (m, r) (added st) ->
                  m <> SICCode
                  /\ (In (unique_key m r) (dict_keys (batch m st))
                      \/ present m (unique_key m r) (objects m (db st))))
  /\ (forall row, In row t0 -> kept Company row (objects Company (db st))).

(* ===================================================================== *)
(** ** logcommand *)
(* ===================================================================== *)

Module LogCommand.

Inductive CommandLogStatus : Type := RUNNING | COMPLETED | FAILED.

Global Instance CommandLogStatus_eq_dec : EqDecision CommandLogStatus.
Proof. solve_decision. Defined.

(** A [CommandLog]. Times are instants of some clock. [logs] is the
    attribute of that name that [teardown] may set; the model's text field
    is [log]. *)
Record CommandLog : Type := mkCommandLog {
  command : string;
  cmd_options : option string;
  status : CommandLogStatus;
  started : nat;
  completed : option nat;
  log : option string;
  logs : option string
}.

(** The attributes of a [logging.LogRecord] that the handler reads. *)
Record LogRecord : Type := {
  levelno : nat;
  levelname : string;
  asctime : string;
  name : string;
  message : string;
  exc_text : option string
}.

Definition INFO : nat := 20.
Definition ERROR : nat := 40.
Definition CRITICAL : nat := 50.

Definition terminator : string := String "010"%char EmptyString.

Fixpoint ends_with_newline (s : string) : bool :=
  match s with
  | EmptyString => false
  | String c EmptyString => Ascii.eqb c "010"%char
  | String _ s' => ends_with_newline s'
  end.

(** [self.format(record)] with the formatter
    [{levelname} {asctime} [{name}] {message}]: the text of an exception
    follows on a new line. *)
Definition format (r : LogRecord) : string :=
  let s := levelname r +:+ " " +:+ asctime r +:+ " [" +:+ name r +:+ "] " +:+ message r in
  match exc_text r with
  | Some t => (if ends_with_newline s then s else s +:+ terminator) +:+ t
  | None => s
  end.

(** A [CommandLogHandler] and the row of its [CommandLog] in the database:
    [stored] is the object as [save()] last wrote it. *)
Record CommandLogHandler : Type := mkHandler {
  commandlog : CommandLog;
  handler_log : string;
  errors : nat;
  stored : CommandLog
}.

Definition str_truthy (o : option string) : bool :=
  match o with
  | Some s => negb (PyStr.is_empty s)
  | None => false
  end.

Definition set_log (x : option string) (c : CommandLog) : CommandLog :=
  mkCommandLog (command c) (cmd_options c) (status c) (started c) (completed c) x (logs c).
Definition set_logs (x : option string) (c : CommandLog) : CommandLog :=
  mkCommandLog (command c) (cmd_options c) (status c) (started c) (completed c) (log c) x.
Definition set_status (x : CommandLogStatus) (c : CommandLog) : CommandLog :=
  mkCommandLog (command c) (cmd_options c) x (started c) (completed c) (log c) (logs c).
Definition set_completed (x : option nat) (c : CommandLog) : CommandLog :=
  mkCommandLog (command c) (cmd_options c) (status c) (started c) x (log c) (logs c).

(** [self.commandlog.save()] *)
Definition save (h : CommandLogHandler) : CommandLogHandler :=
  mkHandler (commandlog h) (handler_log h) (errors h) (commandlog h).

(** [CommandLogHandler.__init__] on a [CommandLog] just created. *)
Definition new_handler (c : CommandLog) : CommandLogHandler := mkHandler c "" 0 c.

(** [emit] *)
Definition emit (r : LogRecord) (h : CommandLogHandler) : CommandLogHandler :=
  let msg := format r in
  let c := commandlog h in
  let c := if str_truthy (log c) then c else set_log (Some "") c in
  let c := set_log (Some (default "" (log c) +:+ msg +:+ terminator)) c in
  let l := handler_log h +:+ msg +:+ terminator in
  let e :=
    if bool_decide (levelno r ∈ [ERROR; CRITICAL]) then errors h + 1 else errors h in
  save (mkHandler c l e (stored h)).

(** [teardown], at the instant [now]. *)
Definition teardown (now : nat) (h : CommandLogHandler) : CommandLogHandler :=
  let c := commandlog h in
  let c := if Nat.ltb 0 (errors h) then set_status FAILED c else set_status COMPLETED c in
  let c :=
    if negb (PyStr.is_empty (handler_log h)) && negb (str_truthy (log c))
    then set_logs (Some (handler_log h)) c else c in
  let c := set_completed (Some now) c in
  save (mkHandler c (handler_log h) (errors h) (stored h)).

(** The records that count as errors for [emit], and [emit] called on a
    list of records in turn. *)
Definition is_error (r : LogRecord) : bool :=
  bool_decide (levelno r ∈ [ERROR; CRITICAL]).

Definition error_records (rs : list LogRecord) : list LogRecord :=
  List.filter is_error rs.

Definition emit_all (rs : list LogRecord) (h : CommandLogHandler) : CommandLogHandler :=
  fold_left (fun h r => emit r h) rs h.

(** An exception object: its class, [str(err)] and the text of its
    traceback. *)
Record raised : Type := { exc : exn; exc_str : string; exc_traceback : string }.

(** How the wrapped command ends: it returns, it raises an [Exception], or
    it leaves by a [BaseException] that is no [Exception]
    ([KeyboardInterrupt], [SystemExit]), which [except Exception] lets
    through. *)
Inductive ending : Type :=
  | Returns
  | Raises (e : raised)
  | Exits.

(** One run of [call_command]: the records that reach the handlers of the
    root logger, in order, and how the run ends. *)
Record run : Type := { emitted : list LogRecord; ends : ending }.

(** The surroundings of one invocation: what [call_command] does for a
    command and its options, and the clock. *)
Record world : Type := {
  call_command : string -> option string -> run;
  now_started : nat;
  now_completed : nat;
  exception_asctime : string
}.

(** [logger.callHandlers]: a handler gets the records at or above its
    level, here [INFO]. *)
Definition handle_records (rs : list LogRecord) (h : CommandLogHandler) : CommandLogHandler :=
  fold_left (fun h r => if Nat.leb INFO (levelno r) then emit r h else h) rs h.

(** The record that [logger.exception(err)] makes on the root logger. *)
Definition exception_record (w : world) (e : raised) : LogRecord :=
  {| levelno := ERROR; levelname := "ERROR"; asctime := exception_asctime w;
     name := "root"; message := exc_str e; exc_text := Some (exc_traceback e) |}.

Fixpoint join (sep : string) (l : list string) : string :=
  match l with
  | [] => ""
  | [x] => x
  | x :: l' => x +:+ sep +:+ join sep l'
  end.

(** [" ".join(options["command"]).split(" ", 1)], as command and options. *)
Definition parse_options (cmd : list string) : string * option string :=
  match PyStr.split1 " " (join " " cmd) with
  | [c; o] => (c, Some o)
  | _ => (join " " cmd, None)
  end.

(** The run of the wrapped command that [handle] starts. *)
Definition wrapped_run (w : world) (cmd : list string) : run :=
  let '(command, cmd_options) := parse_options cmd in
  if str_truthy cmd_options then call_command w command cmd_options
  else call_command w command None.

(** [handle]: how it ends, and the handler (with the stored [CommandLog])
    it leaves. [CommandLog.objects.create] stores the object it returns. *)
Definition handle (w : world) (cmd : list string) : ending * CommandLogHandler :=
  let '(command, cmd_options) := parse_options cmd in
  let command_log :=
    mkCommandLog command cmd_options RUNNING (now_started w) None None None in
  let command_logger := new_handler command_log in
  let r := wrapped_run w cmd in
  let command_logger := handle_records (emitted r) command_logger in
  match ends r with
  | Raises err =>
      let command_logger := handle_records [exception_record w err] command_logger in
      (Raises err, teardown (now_completed w) command_logger)
  | Exits => (Exits, command_logger)
  | Returns => (Returns, teardown (now_completed w) command_logger)
  end.

End LogCommand.

(* ===================================================================== *)
(** ** Further notions of the statements *)
(* ===================================================================== *)

(** [self.object_count[m]] read without the store. *)
Definition count_of (m : model) (st : state) : nat :=
  default 0 (dict_get m (object_count st)).

(** The number of records of [m] given to [bulk_create] in the calls [w]. *)
Fixpoint written_count (m : model) (w : list (model * list instance)) : nat :=
  match w with
  | [] => 0
  | (m', rs) :: w' =>
      (if decide (m' = m) then length rs else 0) + written_count m w'
  end.

(** [Company] is the first key of [self.records], when there is one. *)
Definition company_first (st : state) : Prop :=
  match records st with
  | [] => True
  | (m, _) :: _ => m = Company
  end.

(** The counts of [self.object_count] are those of the calls of
    [bulk_create]. *)
Definition counts_agree (st : state) : Prop :=
  forall m, count_of m st = written_count m (written st).

(** A response whose archive members are cut to their first [n] rows. *)
Definition first_rows (n : nat) (resp : response) : response :=
  {| status_code := status_code resp;
     from_cache := from_cache resp;
     absolute_links := absolute_links resp;
     content :=
       option_map
         (map (fun f => {| filename := filename f; csv_rows := firstn n (csv_rows f) |}))
         (content resp) |}.

(** The row as [parse_row] reads it, after its three cleaning steps. *)
Definition cleaned (api : ch_api) (r : row) : row :=
  clean_categories api (clean_fields (clean_keys r)).

(** The columns of a row that [parse_row] copies to [record]. *)
Definition is_company_column (k : string) : bool :=
  negb (PyStr.startswith "PreviousName_" k) && negb (PyStr.startswith "SICCode_" k).

Definition company_columns (r : row) : row :=
  List.filter (fun kv => is_company_column (fst kv)) r.

(** The [Company] of a row in closed form: the columns of the cleaned row
    that belong to neither a previous name nor a SIC code, but for two
    reserved names, then the two attributes [parse_row] adds. *)
Definition company_of_row (api : ch_api) (r : row) : instance :=
  List.filter
    (fun kv => negb (bool_decide (fst kv ∈ ["sic_codes"; "previous_names"])))
    (company_columns (cleaned api r))
  ++ [("last_updated", VNow); ("in_latest_update", VBool true)].

(** The company a record of [PreviousName] or [CompanySICCode] points to. *)
Definition company_of (r : instance) : value := getattr r "company".

(** The models whose records point to a company. *)
Definition is_child (m : model) : bool :=
  match m with
  | PreviousName | CompanySICCode => true
  | Company | SICCode => false
  end.

(** The companies, as a foreign key holds them, among the records given
    to [bulk_create] by the calls [w]. *)
Definition companies_written (w : list (model * list instance)) : list value :=
  flat_map
    (fun c =>
       match fst c with
       | Company => map (fun r => VObj Company (pk Company r)) (snd c)
       | _ => []
       end)
    w.

(** In the calls [w] of [bulk_create], made after calls that wrote the
    companies [seen], every record of [PreviousName] and of
    [CompanySICCode] points to a company written by an earlier call. *)
Fixpoint parents_first (seen : list value) (w : list (model * list instance)) : Prop :=
  match w with
  | [] => True
  | c :: w' =>
      (is_child (fst c) = true -> forall r, In r (snd c) -> In (company_of r) seen)
      /\ parents_first (seen ++ companies_written [c]) w'
  end.

(** The first key of a [dict] keyed by models. *)
Definition first_key {V : Type} (d : dict model V) : option model :=
  match d with
  | [] => None
  | (m, _) :: _ => Some m
  end.

(** [self.records] has [Company] as its first key. *)
Definition company_heads (st : state) : Prop :=
  first_key (records st) = Some Company.

(** The company [v] was given to [bulk_create] or waits in the batch of
    [Company]. *)
Definition available (v : value) (st : state) : Prop :=
  In v (companies_written (written st))
  \/ exists c, In c (dict_values (batch Company st)) /\ v = VObj Company (pk Company c).

(** What holds between the rows of a run: [Company] is the first key of
    [self.records] once it has one, the calls of [bulk_create] so far wrote
    parents first, and the company of every record that waits in a batch
    was written or waits too. *)
Definition parents_inv (st : state) : Prop :=
  company_first st
  /\ batches_wf st
  /\ parents_first [] (written st)
  /\ (forall m k r, is_child m = true -> In (k, r) (batch m st) ->
                    available (company_of r) st).

(** [add_record] up to its test of the length of the batch of [Company]. *)
Definition buffer_record (m : model) (r : instance) (st : state) : state :=
  let st1 := insert_record m r (trace_added m r st) in
  set_records (snd (dd_get [] Company (records st1))) st1.

(** The table of [SICCode] has a row for the code [code]. *)
Definition sic_known (code : string) (d : database) : Prop :=
  exists row, In row (objects SICCode d) /\ getattr row "code" = VStr code.

(** A record of [CompanySICCode] whose [sic_code] is a SIC code of the
    table. *)
Definition points_to_known_code (r : instance) (d : database) : Prop :=
  exists c, getattr r "sic_code" = VObj SICCode (VStr c) /\ sic_known c d.

(** What holds of the SIC codes all along a run: every instance of
    [sic_code_cache] is cached under its own code and has a row in the
    table, and so has the SIC code of every [CompanySICCode] passed to
    [add_record]. *)
Definition sic_inv (st : state) : Prop :=
  (forall c i, In (c, i) (sic_code_cache st) ->
               pk SICCode i = VStr c /\ sic_known c (db st))
  /\ (forall r, In (CompanySICCode, r) (added st) -> points_to_known_code r (db st)).

(** Two rows that agree on every column but [in_latest_update]. *)
Definition same_but_flag (row row' : instance) : Prop :=
  forall f, f <> "in_latest_update" -> getattr row' f = getattr row f.

(** Every row of [t] is in [t'] at its place, the same but for its flag. *)
Definition rows_keep_columns (t t' : table) : Prop :=
  forall i row, nth_error t i = Some row ->
    exists row', nth_error t' i = Some row' /\ same_but_flag row row'.

(** The text of one character. *)
Definition char (c : ascii) : string := String c EmptyString.

Definition NUL : ascii := "000"%char.

(** The columns of a row under their cleaned names, the last first. *)
Definition renamed_last_first (r : row) : row :=
  rev (map (fun kv => (clean_key (fst kv), snd kv)) r).

(** The row [r] has a column [PreviousName_<n>_<part>...] with a value
    that is neither [None] nor empty. *)
Definition has_name_part (r : row) (n part : string) : Prop :=
  exists k v,
    In (k, v) r
    /\ PyStr.startswith "PreviousName_" k = true
    /\ truthy v = true
    /\ nth_error (PyStr.split_char "_" k) 1 = Some n
    /\ nth_error (PyStr.split_char "_" k) 2 = Some part.

(** The text the handler writes for the records [rs]: each formatted and
    followed by the terminator. *)
Fixpoint log_lines (rs : list LogCommand.LogRecord) : string :=
  match rs with
  | [] => ""
  | r :: rs' => LogCommand.format r +:+ LogCommand.terminator +:+ log_lines rs'
  end.

(** The records of a run that reach [emit]: those at [INFO] or above that
    the wrapped command logged, then the record of the exception if it
    raised one. *)
Definition records_kept (w : LogCommand.world) (cmd : list string)
  : list LogCommand.LogRecord :=
  let r := LogCommand.wrapped_run w cmd in
  List.filter (fun x => Nat.leb LogCommand.INFO (LogCommand.levelno x)) (LogCommand.emitted r)
  ++ match LogCommand.ends r with
     | LogCommand.Raises err => [LogCommand.exception_record w err]
     | _ => []
     end.

(** From [st] to [st'] the session has only written: the journal grew by
    [Write] events, of the databases [ws] in turn, and the database is the
    last of them (or is as it was when there is none). No transaction was
    opened or committed in between. *)
Definition only_wrote (ws : list database) (st st' : state) : Prop :=
  journal st' = journal st ++ map Write ws /\ db st' = List.last ws (db st).

(** The row [row] of the table of [m] has the unique key of a record that
    was passed to [add_record]: the run has seen it. *)
Definition seen (m : model) (row : instance) (st : state) : Prop :=
  exists r, In (m, r) (added st) /\ unique_key m r = row_key (key_fields m) row.

(** What holds of the rows all along the import of a run that began with
    the table [t0] of companies, all unflagged: the records of the batches
    were passed to [add_record]; a row of [Company], [PreviousName] or
    [CompanySICCode] with [in_latest_update = True] has been seen; a
    company of [t0] that has not been seen is in the table as it was. *)
Definition seen_inv (t0 : table) (st : state) : Prop :=
  (forall m k r, In (k, r) (batch m st) -> In (m, r) (added st))
  /\ (forall m row, m <> SICCode -> In row (objects m (db st)) ->
                    in_latest_update row = VBool true -> seen m row st)
  /\ (forall row, In row t0 -> ~ seen Company row st -> In row (objects Company (db st))).



(** The values of a [SICCode_] column that [parse_row] does not pass
    over: a text of which something is left once every ["None Supplied"]
    in it is removed. *)
Definition sic_given (v : value) : bool :=
  match v with
  | VStr s => negb (PyStr.is_empty (PyStr.replace "None Supplied" "" s))
  | _ => false
  end.

Definition sic_columns_given (r : row) : row :=
  List.filter (fun kv => PyStr.startswith "SICCode_" (fst kv) && sic_given (snd kv)) r.

(** The companies passed to [add_record], oldest first. *)
Definition companies_added (st : state) : list instance :=
  map snd (calls_of Company (added st)).

(** The rows of the files [members] that [parse_file] reads: with
    [--debug] the rows of index 0 to 100 of each file, all of them
    otherwise. *)
Definition rows_parsed (dbg : bool) (members : list zip_member) : list row :=
  flat_map (fun f => if dbg then firstn 101 (csv_rows f) else csv_rows f) members.

(** Every record passed to [add_record] is a row of its table, with
    [in_latest_update = True]. *)
Definition all_stored (st : state) : Prop :=
  forall m r, In (m, r) (added st) ->
              m <> SICCode /\ present m (unique_key m r) (objects m (db st)).

(* ===================================================================== *)
(** ** Concrete runs *)
(* ===================================================================== *)

Module Runs.

(** Lookup tables without an entry, and a model of which every column of
    the rows below is a field. *)
Definition no_lookups : ch_api :=
  {| COMPANY_CATEGORY_LOOKUP := fun _ => None;
     COMPANY_STATUS_LOOKUP := fun _ => None;
     ACCOUNTS_TYPE_LOOKUP := fun _ => None;
     COMPANY_FIELDS := fun _ => true |}.

Definition empty_db : database := mkDatabase [] [] [] [].

Definition zip_link : string :=
  "http://download.companieshouse.gov.uk/BasicCompanyData-2024-01-01-part1_2.zip".

Definition zip_link2 : string :=
  "http://download.companieshouse.gov.uk/BasicCompanyData-2024-01-01-part2_2.zip".

Definition other_link : string :=
  "http://download.companieshouse.gov.uk/en_pscdata.html".

(** The index page, with the links [links]. *)
Definition index_page (links : list string) : response :=
  {| status_code := 200; from_cache := false; absolute_links := links; content := None |}.

(** A response of status 200 whose body is a ZIP archive of one CSV file
    with the rows [rows]. *)
Definition zip_of (rows : list row) : response :=
  {| status_code := 200; from_cache := false; absolute_links := [];
     content := Some [ {| filename := "BasicCompanyData-2024-01-01-part1_2.csv";
                          csv_rows := rows |} ] |}.

Definition not_found : response :=
  {| status_code := 404; from_cache := false; absolute_links := []; content := None |}.

(** A world whose index page has the links [links], in which a link is
    fetched as [get] says, and which runs no SQL statement after the
    import. *)
Definition world_of (links : list string) (get : string -> result response) : world :=
  {| api := no_lookups;
     session_get := fun _ url =>
       if bool_decide (url = start_url) then Ok (index_page links) else get url;
     UPDATE_COMPANIES := [] |}.

Definition plain : options := {| opt_cache := false; opt_debug := false |}.

(** A row of the CSV file as Companies House publishes it. *)
Definition acme_row : row :=
  [ ("CompanyName", VStr "ACME LTD");
    (" CompanyNumber", VStr "00000002");
    ("IncorporationDate", VStr "12/03/2001");
    ("SICCode.SicText_1", VStr "99999 - Dormant Company");
    ("SICCode.SicText_2", VStr "");
    (" PreviousName_1.CONDATE", VStr "01/02/2003");
    (" PreviousName_1.CompanyName", VStr "OLD ACME LTD") ].

(** The same row with an incorporation date that is no date. *)
Definition bad_date_row : row :=
  [ ("CompanyName", VStr "ACME LTD");
    (" CompanyNumber", VStr "00000002");
    ("IncorporationDate", VStr "2001-03-12");
    ("SICCode.SicText_1", VStr "99999 - Dormant Company");
    ("SICCode.SicText_2", VStr "");
    (" PreviousName_1.CONDATE", VStr "01/02/2003");
    (" PreviousName_1.CompanyName", VStr "OLD ACME LTD") ].

(** The same row with a date of change of name that is no date. *)
Definition bad_condate_row : row :=
  [ ("CompanyName", VStr "ACME LTD");
    (" CompanyNumber", VStr "00000002");
    ("IncorporationDate", VStr "12/03/2001");
    ("SICCode.SicText_1", VStr "99999 - Dormant Company");
    ("SICCode.SicText_2", VStr "");
    (" PreviousName_1.CONDATE", VStr "2003-02-01");
    (" PreviousName_1.CompanyName", VStr "OLD ACME LTD") ].



(** A database of an earlier import: one company with a previous name and
    a SIC code, all three flagged. *)
Definition old_company : instance :=
  [ ("CompanyNumber", VStr "00000001"); ("CompanyName", VStr "GONE LTD");
    ("in_latest_update", VBool true) ].

Definition old_name : instance :=
  [ ("company", VObj Company (VStr "00000001")); ("CompanyName", VStr "WENT LTD");
    ("ConDate", VNone); ("in_latest_update", VBool true) ].

Definition old_sic : instance :=
  [ ("company", VObj Company (VStr "00000001")); ("sic_code", VObj SICCode (VStr "99999"));
    ("in_latest_update", VBool true) ].

Definition old_db : database :=
  mkDatabase [old_company] [old_name] [old_sic]
             [[("code", VStr "99999"); ("title", VStr "Dormant Company")]].

(** The index page lists one archive, whose file has the one row
    [acme_row]. *)
Definition one_archive : world :=
  world_of [zip_link; other_link]
           (fun url => if bool_decide (url = zip_link) then Ok (zip_of [acme_row])
                       else Ok not_found).

(** The index page lists one archive; its file has a good row and then a
    row with a malformed date of change of name. *)
Definition bad_archive : world :=
  world_of [zip_link]
           (fun url => if bool_decide (url = zip_link)
                       then Ok (zip_of [acme_row; bad_condate_row])
                       else Ok not_found).

(** The archive answers with status 404. *)
Definition missing_archive : world := world_of [zip_link; other_link] (fun _ => Ok not_found).

(** The connection to the archive fails. *)
Definition refused_archive : world :=
  world_of [zip_link; other_link] (fun _ => Raise ConnectionError).

(** Of two archives the first fails by a chunked-encoding error. *)
Definition chunked_archive : world :=
  world_of [zip_link; other_link; zip_link2]
           (fun url => if bool_decide (url = zip_link) then Raise ChunkedEncodingError
                       else if bool_decide (url = zip_link2) then Ok (zip_of [acme_row])
                       else Ok not_found).

(** The database of a state that was reached. *)
Definition db_of (r : result state) : option database :=
  match r with
  | Ok st => Some (db st)
  | Raise _ => None
  end.

(** The state in which a run of [handle] ends, when it returns. *)
Definition final_state (r : outcome) (otherwise : state) : state :=
  match r with
  | Finished st => st
  | Failed _ _ => otherwise
  end.

(** The records of [n] companies with two previous names each, in the
    order in which [parse_row] adds them. *)
Definition nth_company (i : nat) : instance :=
  [ ("CompanyNumber", VStr (pretty i)); ("CompanyName", VStr "ACME LTD");
    ("last_updated", VNow); ("in_latest_update", VBool true) ].

Definition nth_name (i : nat) (name : string) : instance :=
  [ ("company", VObj Company (VStr (pretty i))); ("CompanyName", VStr name);
    ("ConDate", VNone); ("in_latest_update", VBool true) ].

Definition nth_calls (i : nat) : list (model * instance) :=
  [ (Company, nth_company i);
    (PreviousName, nth_name i "FIRST NAME LTD");
    (PreviousName, nth_name i "SECOND NAME LTD") ].

Definition companies_with_names (n : nat) : list (model * instance) :=
  flat_map nth_calls (seq 0 n).

(** Two records of one company number. *)
Definition acme_first : instance :=
  [ ("CompanyNumber", VStr "00000002"); ("CompanyName", VStr "ACME LTD");
    ("in_latest_update", VBool true) ].

Definition acme_second : instance :=
  [ ("CompanyNumber", VStr "00000002"); ("CompanyName", VStr "ACME HOLDINGS LTD");
    ("in_latest_update", VBool true) ].

End Runs.

Module LogRuns.
Import LogCommand.

Definition info_record : LogRecord :=
  {| levelno := 20; levelname := "INFO"; asctime := "2024-01-01 00:00:01,000";
     name := "charity_django"; message := "Fetching file"; exc_text := None |}.

Definition error_record : LogRecord :=
  {| levelno := 40; levelname := "ERROR"; asctime := "2024-01-01 00:00:02,000";
     name := "charity_django"; message := "Could not fetch file"; exc_text := None |}.

Definition boom : raised :=
  {| exc := ValueError; exc_str := "time data does not match format";
     exc_traceback := "Traceback (most recent call last): ..." |}.

(** The wrapped command logs an error and returns. *)
Definition logs_error : world :=
  {| call_command := fun _ _ => {| emitted := [info_record; error_record]; ends := Returns |};
     now_started := 1; now_completed := 2;
     exception_asctime := "2024-01-01 00:00:03,000" |}.

(** The wrapped command logs one line and raises. *)
Definition raises_error : world :=
  {| call_command := fun _ _ => {| emitted := [info_record]; ends := Raises boom |};
     now_started := 1; now_completed := 2;
     exception_asctime := "2024-01-01 00:00:03,000" |}.

End LogRuns.

(** Further concrete inputs. *)
Module MoreRuns.
Import Runs.

(** The state a computation reached, when it returned. *)
Definition reached (r : result state) (otherwise : state) : state :=
  match r with
  | Ok st => st
  | Raise _ => otherwise
  end.

(** The index page lists one archive, and its fetch fails by a
    chunked-encoding error. *)
Definition only_chunked : world :=
  world_of [zip_link; other_link]
           (fun url => if bool_decide (url = zip_link) then Raise ChunkedEncodingError
                       else Ok not_found).

(** The world of [one_archive], with one SQL statement, which fails. *)
Definition failing_sql : world :=
  {| api := api one_archive;
     session_get := session_get one_archive;
     UPDATE_COMPANIES :=
       [("Update company names", fun _ => Raise (OtherException "ProgrammingError"))] |}.

(** The previous name of [old_db] as a file gives it, with another date of
    change. *)
Definition old_name_again : instance :=
  [ ("company", VObj Company (VStr "00000001")); ("CompanyName", VStr "WENT LTD");
    ("ConDate", VDate (mkDate 2003 2 1)); ("in_latest_update", VBool true) ].

(** The company of [old_db] as a file gives it, renamed. *)
Definition old_company_again : instance :=
  [ ("CompanyNumber", VStr "00000001"); ("CompanyName", VStr "BACK LTD");
    ("in_latest_update", VBool true) ].

(** The link of ACME LTD to its SIC code, as [parse_row] builds it from
    [acme_row]. *)
Definition acme_sic : instance :=
  [ ("company", VObj Company (VStr "00000002")); ("sic_code", VObj SICCode (VStr "99999"));
    ("in_latest_update", VBool true) ].

(** A row with a name that holds a NUL character and spaces around. *)
Definition nul_row : row :=
  [ ("CompanyName", VStr (" ACME" +:+ String "000"%char " LTD ")) ].

(** The wrapped command logs one line and is interrupted. *)
Definition interrupted : LogCommand.world :=
  {| LogCommand.call_command := fun _ _ =>
       {| LogCommand.emitted := [LogRuns.info_record]; LogCommand.ends := LogCommand.Exits |};
     LogCommand.now_started := 1; LogCommand.now_completed := 2;
     LogCommand.exception_asctime := "2024-01-01 00:00:03,000" |}.

End MoreRuns.
(* ===================================================================== *)
(** * Facts *)
(* ===================================================================== *)

(** ** Dicts *)

Section DictFacts.
Context {K V : Type} `{EqDecision K}.
Implicit Types (d : dict K V) (k : K) (v : V).

Lemma dict_get_set_eq k v d : dict_get k (dict_set k v d) = Some v.
Proof.
  induction d as [|[k' v'] d IH]; simpl.
  - destruct (decide (k = k)); congruence.
  - destruct (decide (k' = k)) as [->|Hne]; simpl.
    + destruct (decide (k = k)); congruence.
    + destruct (decide (k' = k)); [contradiction | exact IH].
Qed.

Lemma dict_get_set_ne k k' v d : k <> k' -> dict_get k' (dict_set k v d) = dict_get k' d.
Proof.
  intros Hne. induction d as [|[k0 v0] d IH]; simpl.
  - destruct (decide (k = k')); [contradiction | reflexivity].
  - destruct (decide (k0 = k)) as [->|Hk]; simpl.
    + destruct (decide (k = k')); [contradiction | reflexivity].
    + destruct (decide (k0 = k')); [reflexivity | exact IH].
Qed.

Lemma dict_set_set k v1 v2 d : dict_set k v2 (dict_set k v1 d) = dict_set k v2 d.
Proof.
  induction d as [|[k0 v0] d IH]; simpl.
  - destruct (decide (k = k)); congruence.
  - destruct (decide (k0 = k)) as [->|Hk]; simpl.
    + destruct (decide (k = k)); congruence.
    + destruct (decide (k0 = k)); [contradiction | f_equal; exact IH].
Qed.

Lemma dict_keys_set k v d :
  dict_keys (dict_set k v d) = if dict_mem k d then dict_keys d else dict_keys d ++ [k].
Proof.
  unfold dict_mem, dict_keys. induction d as [|[k0 v0] d IH]; simpl; [reflexivity|].
  destruct (decide (k0 = k)) as [->|Hk]; simpl; [reflexivity|].
  rewrite IH. destruct (dict_get k d); reflexivity.
Qed.

Lemma dict_mem_In k d : dict_mem k d = true <-> In k (dict_keys d).
Proof.
  unfold dict_mem, dict_keys. induction d as [|[k0 v0] d IH]; simpl.
  - split; [discriminate | tauto].
  - destruct (decide (k0 = k)) as [->|Hk].
    + split; auto.
    + rewrite IH. split; [auto | intros [?|?]; [contradiction | assumption]].
Qed.

Lemma dict_get_In k v d : dict_get k d = Some v -> In (k, v) d.
Proof.
  induction d as [|[k0 v0] d IH]; simpl; [discriminate|].
  destruct (decide (k0 = k)) as [->|Hk].
  - intros [= ->]. left; reflexivity.
  - intros Hg. right. exact (IH Hg).
Qed.

Lemma dict_get_None k d : dict_get k d = None <-> ~ In k (dict_keys d).
Proof.
  rewrite <- dict_mem_In. unfold dict_mem.
  destruct (dict_get k d); split; try congruence; intros Hn; exfalso; apply Hn; reflexivity.
Qed.

Lemma In_dict_get k v d : NoDup (dict_keys d) -> In (k, v) d -> dict_get k d = Some v.
Proof.
  unfold dict_keys. induction d as [|[k0 v0] d IH]; simpl; [tauto|].
  intros Hnd [Heq|Hin].
  - inversion Heq; subst. destruct (decide (k = k)); congruence.
  - apply NoDup_cons in Hnd as [Hnotin Hnd].
    destruct (decide (k0 = k)) as [->|Hk].
    + exfalso. apply Hnotin. apply list_elem_of_In. apply (in_map fst) in Hin. exact Hin.
    + apply IH; assumption.
Qed.

Lemma NoDup_dict_set k v d : NoDup (dict_keys d) -> NoDup (dict_keys (dict_set k v d)).
Proof.
  intros Hnd. rewrite dict_keys_set.
  destruct (dict_mem k d) eqn:Hm; [exact Hnd|].
  apply NoDup_app. split; [exact Hnd|]. split.
  - intros x Hx Hx'. apply list_elem_of_In in Hx, Hx'. destruct Hx' as [<-|[]].
    apply dict_mem_In in Hx. congruence.
  - apply NoDup_singleton.
Qed.

Lemma In_dict_set k v k' v' d :
  In (k', v') (dict_set k v d) -> (k' = k /\ v' = v) \/ In (k', v') d.
Proof.
  induction d as [|[k0 v0] d IH]; simpl.
  - intros [[= <- <-]|[]]. left; auto.
  - destruct (decide (k0 = k)) as [->|Hk]; simpl.
    + intros [[= <- <-]|Hin]; [left; auto | right; right; exact Hin].
    + intros [Heq|Hin]; [right; left; exact Heq|].
      destruct (IH Hin) as [?|?]; [left; assumption | right; right; assumption].
Qed.

Lemma In_dict_set_same k v d : In (k, v) (dict_set k v d).
Proof. apply dict_get_In, dict_get_set_eq. Qed.

Lemma In_dict_set_other k v k' v' d :
  k' <> k -> In (k', v') d -> In (k', v') (dict_set k v d).
Proof.
  intros Hne. induction d as [|[k0 v0] d IH]; simpl; [tauto|].
  destruct (decide (k0 = k)) as [->|Hk]; simpl.
  - intros [[= -> ->]|Hin]; [contradiction | right; exact Hin].
  - intros [Heq|Hin]; [left; exact Heq | right; exact (IH Hin)].
Qed.

Lemma dict_len_set k v d :
  dict_len (dict_set k v d) = if dict_mem k d then dict_len d else S (dict_len d).
Proof.
  unfold dict_len. rewrite <- !(length_map fst). fold (dict_keys (dict_set k v d)).
  rewrite dict_keys_set. unfold dict_keys.
  destruct (dict_mem k d); [reflexivity|].
  rewrite length_app. simpl. lia.
Qed.

Lemma dict_mem_set k v d : dict_mem k (dict_set k v d) = true.
Proof. unfold dict_mem. rewrite dict_get_set_eq. reflexivity. Qed.
End DictFacts.

(** ** Strings and dates on examples *)

Example strip_example : PyStr.strip "  12/03/2001 " = "12/03/2001".
Proof. reflexivity. Qed.

Example clean_key_example : clean_key " PreviousName_1.CONDATE" = "PreviousName_1_CONDATE".
Proof. reflexivity. Qed.

Example replace_example :
  PyStr.replace "None Supplied" "" "xNone SuppliedyNone Supplied" = "xy".
Proof. reflexivity. Qed.

Example split1_example :
  PyStr.split1 " - " "99999 - Dormant Company - x" = ["99999"; "Dormant Company - x"].
Proof. reflexivity. Qed.

Example split_char_example :
  PyStr.split_char "_" "PreviousName_1_CONDATE" = ["PreviousName"; "1"; "CONDATE"].
Proof. reflexivity. Qed.

Example zip_regex_example :
  zip_regex_match Runs.zip_link = true /\ zip_regex_match Runs.other_link = false.
Proof. split; reflexivity. Qed.

Example strptime_example : Strptime.strptime "12/03/2001" = Some (mkDate 2001 3 12).
Proof. reflexivity. Qed.

Example strptime_short_example : Strptime.strptime "1/3/2001" = Some (mkDate 2001 3 1).
Proof. reflexivity. Qed.

Example strptime_leap_example :
  Strptime.strptime "29/02/2000" = Some (mkDate 2000 2 29)
  /\ Strptime.strptime "29/02/1900" = None.
Proof. split; reflexivity. Qed.

Example strptime_refuses_example :
  Strptime.strptime "31/02/2001" = None
  /\ Strptime.strptime "2001-03-12" = None
  /\ Strptime.strptime "12/03/20011" = None
  /\ Strptime.strptime "" = None.
Proof. repeat split; reflexivity. Qed.

(** ** The error monad *)

Lemma for_each_app {A S : Type} (body : A -> S -> result S) (l1 l2 : list A) (s : S) :
  for_each body (l1 ++ l2) s = bind (for_each body l1 s) (for_each body l2).
Proof.
  revert s. induction l1 as [|a l1 IH]; intros s; simpl; [reflexivity|].
  destruct (body a s) as [s'|e]; simpl; [apply IH | reflexivity].
Qed.

(** A loop raises as soon as one of its turns raises whatever the state. *)
Lemma for_each_raises {A S : Type} (body : A -> S -> result S) (P : exn -> Prop)
  (l : list A) (x : A) :
  In x l ->
  (forall a s e, body a s = Raise e -> P e) ->
  (forall s, exists e, body x s = Raise e) ->
  forall s, exists e, for_each body l s = Raise e /\ P e.
Proof.
  intros Hin HP Hx. induction l as [|a l IH]; intros s; [destruct Hin|].
  simpl. destruct (body a s) as [s'|e] eqn:Hb; simpl.
  - destruct Hin as [->|Hin]; [|exact (IH Hin s')].
    destruct (Hx s) as [e He]. congruence.
  - exists e. split; [reflexivity | exact (HP _ _ _ Hb)].
Qed.

(** An invariant of the state that every turn keeps is kept by the loop. *)
Lemma for_each_invariant {A S : Type} (body : A -> S -> result S) (I : S -> Prop)
  (l : list A) :
  (forall a s s', In a l -> I s -> body a s = Ok s' -> I s') ->
  forall s s', I s -> for_each body l s = Ok s' -> I s'.
Proof.
  induction l as [|a l IH]; intros Hstep s s' Hs; simpl.
  - intros [= <-]. exact Hs.
  - destruct (body a s) as [s1|e] eqn:Hb; simpl; [|discriminate].
    apply IH.
    + intros a0 t t' Hin. apply Hstep. right; exact Hin.
    + apply (Hstep a s s1); [left; reflexivity | exact Hs | exact Hb].
Qed.

(** ** fetch_file *)

Lemma raise_for_status_exn (r : response) (e : exn) :
  raise_for_status r = Raise e -> e = HTTPError.
Proof.
  unfold raise_for_status.
  destruct (Nat.leb 400 (status_code r) && Nat.ltb (status_code r) 600); congruence.
Qed.

Lemma fetch_link_try_session (w : world) (link : string) (st st' : state) :
  fetch_link_try w link st = Ok st' -> session st' = session st.
Proof.
  unfold fetch_link_try.
  destruct (session_get w (session st) link) as [r|e]; simpl; [|discriminate].
  destruct (raise_for_status r) as [[]|e]; simpl; [|discriminate].
  intros [= <-]. reflexivity.
Qed.

Lemma fetch_link_session (w : world) (link : string) (st st' : state) :
  fetch_link w link st = Ok st' -> session st' = session st.
Proof.
  unfold fetch_link. destruct (zip_regex_match link); [|intros [= <-]; reflexivity].
  destruct (fetch_link_try w link (write (Fetching link) st)) as [s|e] eqn:Ht.
  - intros [= <-]. apply fetch_link_try_session in Ht. exact Ht.
  - destruct e; try discriminate. intros [= <-]. reflexivity.
Qed.

(** No turn of the loop of [fetch_file] lets a chunked-encoding error out. *)
Lemma fetch_link_not_chunked (w : world) (link : string) (st : state) (e : exn) :
  fetch_link w link st = Raise e -> e <> ChunkedEncodingError.
Proof.
  unfold fetch_link. destruct (zip_regex_match link); [|discriminate].
  destruct (fetch_link_try w link (write (Fetching link) st)) as [s|e'] eqn:Ht;
    [discriminate|].
  destruct e'; try discriminate; intros [= <-]; discriminate.
Qed.

(** A ZIP link whose fetch neither goes through nor fails by a
    chunked-encoding error ends [fetch_link] by an exception. *)
Lemma fetch_link_fails (w : world) (link : string) (st : state) :
  zip_regex_match link = true ->
  ~ fetch_passes w (session st) link ->
  exists e, fetch_link w link st = Raise e.
Proof.
  intros Hm Hbad. unfold fetch_link. rewrite Hm.
  unfold fetch_link_try. cbn [session write].
  destruct (session_get w (session st) link) as [r|e] eqn:Hget; simpl.
  - destruct (raise_for_status r) as [[]|e] eqn:Hs; simpl.
    + exfalso. apply Hbad. right. exists r. split; [exact Hget | exact Hs].
    + apply raise_for_status_exn in Hs. subst e. eexists; reflexivity.
  - destruct e; try (eexists; reflexivity).
    exfalso. apply Hbad. left. exact Hget.
Qed.

(** What one turn does when the fetch passes. *)
Lemma fetch_link_passes (w : world) (link : string) (st : state) :
  (zip_regex_match link = true -> fetch_passes w (session st) link) ->
  exists st',
    fetch_link w link st = Ok st'
    /\ files st' = fetched w (session st) [link] (files st)
    /\ db st' = db st
    /\ (forall x, In x (stdout st) -> In x (stdout st'))
    /\ (zip_regex_match link = true ->
        session_get w (session st) link = Raise ChunkedEncodingError ->
        In (ErrorFetching link) (stdout st')
        /\ In (ErrorText ChunkedEncodingError) (stdout st')).
Proof.
  intros Hp. unfold fetch_link, fetched. cbn [fold_left].
  destruct (zip_regex_match link) eqn:Hm.
  2:{ exists st. split; [reflexivity|]. split; [reflexivity|]. split; [reflexivity|].
      split; [auto | discriminate]. }
  unfold fetch_link_try. cbn [session write].
  destruct (Hp eq_refl) as [Hc|[r [Hr Hs]]].
  - rewrite Hc. cbn [bind].
    eexists. split; [reflexivity|]. cbn [files db stdout write].
    split; [reflexivity|]. split; [reflexivity|]. split.
    + intros x Hx. rewrite !in_app_iff. tauto.
    + intros _ _. rewrite !in_app_iff. simpl. tauto.
  - rewrite Hr. cbn [bind]. rewrite Hs. cbn [bind].
    eexists. split; [reflexivity|]. cbn [files db stdout write set_files].
    split; [reflexivity|]. split; [reflexivity|]. split.
    + intros x Hx. rewrite !in_app_iff. tauto.
    + intros _ Hc. congruence.
Qed.

Lemma fetched_app (w : world) (c : bool) (l1 l2 : list string) (d : dict string response) :
  fetched w c (l1 ++ l2) d = fetched w c l2 (fetched w c l1 d).
Proof. unfold fetched. apply fold_left_app. Qed.

Lemma fetch_links_pass (w : world) (links : list string) :
  forall st,
    (forall link, In link links -> zip_regex_match link = true ->
                  fetch_passes w (session st) link) ->
    exists st',
      for_each (fetch_link w) links st = Ok st'
      /\ files st' = fetched w (session st) links (files st)
      /\ db st' = db st
      /\ session st' = session st
      /\ (forall x, In x (stdout st) -> In x (stdout st'))
      /\ (forall link, In link links -> zip_regex_match link = true ->
          session_get w (session st) link = Raise ChunkedEncodingError ->
          In (ErrorFetching link) (stdout st')
          /\ In (ErrorText ChunkedEncodingError) (stdout st')).
Proof.
  induction links as [|link links IH]; intros st Hall.
  - exists st. cbn [for_each]. split; [reflexivity|]. split; [reflexivity|].
    split; [reflexivity|]. split; [reflexivity|]. split; [auto|]. intros ? [].
  - destruct (fetch_link_passes w link st) as (st1 & H1 & Hf1 & Hd1 & Ho1 & He1).
    { intros Hm. apply Hall; [left; reflexivity | exact Hm]. }
    pose proof (fetch_link_session _ _ _ _ H1) as Hs1.
    destruct (IH st1) as (st2 & H2 & Hf2 & Hd2 & Hs2 & Ho2 & He2).
    { intros l Hl Hm. rewrite Hs1. apply Hall; [right; exact Hl | exact Hm]. }
    exists st2. cbn [for_each]. rewrite H1. cbn [bind].
    split; [exact H2|]. split.
    { rewrite Hf2, Hf1, Hs1. symmetry. apply (fetched_app w (session st) [link] links). }
    split; [congruence|]. split; [congruence|]. split; [auto|].
    intros l [<-|Hl] Hm Hc.
    + destruct (He1 Hm Hc) as [Ha Hb]. split; apply Ho2; assumption.
    + apply He2; [exact Hl | exact Hm | rewrite Hs1; exact Hc].
Qed.

Lemma fetch_links_fail (w : world) (links : list string) (link : string) :
  In link links ->
  zip_regex_match link = true ->
  forall st,
    ~ fetch_passes w (session st) link ->
    exists e, for_each (fetch_link w) links st = Raise e /\ e <> ChunkedEncodingError.
Proof.
  intros Hin Hm. induction links as [|l links IH]; intros st Hbad; [destruct Hin|].
  cbn [for_each].
  destruct (fetch_link w l st) as [st1|e] eqn:H1; cbn [bind].
  - destruct Hin as [->|Hin].
    + destruct (fetch_link_fails w link st Hm Hbad) as [e He]. congruence.
    + apply IH; [exact Hin|]. rewrite (fetch_link_session _ _ _ _ H1). exact Hbad.
  - exists e. split; [reflexivity | exact (fetch_link_not_chunked _ _ _ _ H1)].
Qed.

(** C3, as the code has it. Let the index page be fetched with a good
    status. (1) If, for every ZIP link of the page, the fetch goes through
    or fails by a [ChunkedEncodingError], then [fetch_file] returns; its
    files are the ZIP links whose fetch went through, the database is
    untouched, and every ZIP link whose fetch failed by the
    [ChunkedEncodingError] has its error written to the output. (2) If
    for some ZIP link the fetch fails otherwise (an HTTP error status, a
    connection failure, any other exception), then [fetch_file] raises,
    and what it raises is not a [ChunkedEncodingError]. *)
Theorem fetch_file_catches_chunked_only
  (w : world) (st : state) (page : response) :
  session_get w (session st) start_url = Ok page ->
  raise_for_status page = Ok tt ->
  ((forall link, In link (absolute_links page) -> zip_regex_match link = true ->
                 fetch_passes w (session st) link) ->
   exists st',
     fetch_file w st = Ok st'
     /\ files st' = fetched w (session st) (absolute_links page) []
     /\ db st' = db st
     /\ (forall link, In link (absolute_links page) -> zip_regex_match link = true ->
         session_get w (session st) link = Raise ChunkedEncodingError ->
         In (ErrorFetching link) (stdout st')
         /\ In (ErrorText ChunkedEncodingError) (stdout st')
         /\ dict_get link (files st') = None))
  /\ (forall link, In link (absolute_links page) -> zip_regex_match link = true ->
      ~ fetch_passes w (session st) link ->
      exists e, fetch_file w st = Raise e /\ e <> ChunkedEncodingError).
Proof.
  intros Hpage Hstatus. split.
  - intros Hall.
    destruct (fetch_links_pass w (absolute_links page) (set_files [] st))
      as (st' & Hrun & Hf & Hd & Hs & Ho & He).
    { exact Hall. }
    exists st'. unfold fetch_file. cbn [session set_files].
    rewrite Hpage. cbn [bind]. rewrite Hstatus. cbn [bind].
    split; [exact Hrun|]. split; [exact Hf|]. split; [exact Hd|].
    intros link Hin Hm Hc. destruct (He link Hin Hm Hc) as [Ha Hb].
    split; [exact Ha|]. split; [exact Hb|].
    rewrite Hf. cbn [session set_files files].
    clear - Hc Hm.
    assert (forall links d, dict_get link d = None ->
                            dict_get link (fetched w (session st) links d) = None) as Hgen.
    { induction links as [|l links IH]; intros d Hd; [exact Hd|].
      unfold fetched. cbn [fold_left]. apply IH.
      destruct (zip_regex_match l); [|exact Hd].
      destruct (session_get w (session st) l) as [r|e] eqn:Hl; [|exact Hd].
      rewrite dict_get_set_ne; [exact Hd|]. intros ->. congruence. }
    apply Hgen. reflexivity.
  - intros link Hin Hm Hbad.
    unfold fetch_file. cbn [session set_files].
    rewrite Hpage. cbn [bind]. rewrite Hstatus. cbn [bind].
    apply (fetch_links_fail w (absolute_links page) link Hin Hm). exact Hbad.
Qed.

(** ** Strings *)



Lemma sic_not_previous_name (k : string) :
  PyStr.startswith "SICCode_" k = true -> PyStr.startswith "PreviousName_" k = false.
Proof.
  unfold PyStr.startswith. destruct k as [|c k]; [discriminate|].
  change (String.prefix "SICCode_" (String c k))
    with (if ascii_dec "S" c then String.prefix "ICCode_" k else false).
  change (String.prefix "PreviousName_" (String c k))
    with (if ascii_dec "P" c then String.prefix "reviousName_" k else false).
  destruct (ascii_dec "S" c) as [<-|Hne]; [|discriminate].
  intros _. destruct (ascii_dec "P" "S") as [Heq|_]; [discriminate Heq | reflexivity].
Qed.


(** ** clean_keys, clean_fields, clean_categories *)

Lemma dict_get_clean_fields (f : string) (r : row) :
  dict_get f (clean_fields r) = clean_field f <$> dict_get f r.
Proof.
  unfold clean_fields. induction r as [|[k v] r IH]; simpl; [reflexivity|].
  destruct (decide (k = f)) as [->|Hne]; [reflexivity | exact IH].
Qed.

Lemma dict_set_map_values (g : string -> value -> value) (k : string) (v : value) (d : row) :
  dict_set k (g k v) (map (fun kv => (fst kv, g (fst kv) (snd kv))) d)
  = map (fun kv => (fst kv, g (fst kv) (snd kv))) (dict_set k v d).
Proof.
  induction d as [|[k0 v0] d IH]; simpl; [reflexivity|].
  destruct (decide (k0 = k)) as [->|Hne]; simpl; [reflexivity|].
  f_equal. exact IH.
Qed.

Lemma clean_keys_map_values (g : string -> value -> value) (r : row) :
  clean_keys (map (fun kv => (fst kv, g (clean_key (fst kv)) (snd kv))) r)
  = map (fun kv => (fst kv, g (fst kv) (snd kv))) (clean_keys r).
Proof.
  unfold clean_keys.
  change (@nil (string * value))
    with (map (fun kv : string * value => (fst kv, g (fst kv) (snd kv))) []) at 1.
  generalize (@nil (string * value)) as d.
  induction r as [|[k v] r IH]; intros d; simpl; [reflexivity|].
  rewrite dict_set_map_values. apply IH.
Qed.

Lemma clean_field_blank (f : string) (v : value) :
  clean_field f (blank_bad_date f v) = clean_field f v.
Proof.
  destruct v as [| s | | | | |]; try reflexivity.
  unfold blank_bad_date.
  destruct (bool_decide (f ∈ date_fields)) eqn:Hf; [|reflexivity].
  destruct (PyStr.is_empty s) eqn:He; [reflexivity|].
  destruct (Strptime.strptime (PyStr.strip s)) as [d|] eqn:Hp.
  - rewrite bool_decide_eq_true_2 by (eexists; reflexivity). reflexivity.
  - rewrite bool_decide_eq_false_2 by (intros [x Hx]; discriminate).
    cbn [andb negb]. unfold clean_field. rewrite He, Hf, Hp. reflexivity.
Qed.

Lemma clean_blank_bad_dates (r : row) :
  clean_fields (clean_keys (blank_bad_dates r)) = clean_fields (clean_keys r).
Proof.
  unfold blank_bad_dates. rewrite (clean_keys_map_values blank_bad_date).
  unfold clean_fields. rewrite map_map. apply map_ext.
  intros [k v]. cbn [fst snd]. rewrite clean_field_blank. reflexivity.
Qed.

(** C2, as the code has it. (1) A text of one of the eight [date_fields]
    that [strptime] refuses is set to [None] by [clean_fields], which
    returns for every row. (2) [parse_row] does on a row what it does on
    the row in which every such text has been emptied beforehand: the
    text that fails to parse is handled as an empty field and never makes
    the row fail. *)
Theorem date_field_failures_are_emptied :
  (forall (r : row) (f s : string),
      dict_get f r = Some (VStr s) ->
      In f date_fields ->
      Strptime.strptime (PyStr.strip s) = None ->
      dict_get f (clean_fields r) = Some VNone)
  /\ (forall (api : ch_api) (r : row) (st : state),
        parse_row api (blank_bad_dates r) st = parse_row api r st).
Proof.
  split.
  - intros r f s Hget Hf Hp. rewrite dict_get_clean_fields, Hget. cbn [fmap option_fmap option_map].
    f_equal. unfold clean_field.
    destruct (PyStr.is_empty s); [reflexivity|].
    rewrite bool_decide_eq_true_2 by (apply list_elem_of_In; exact Hf).
    rewrite Hp. reflexivity.
  - intros api r st. unfold parse_row. rewrite clean_blank_bad_dates. reflexivity.
Qed.

Lemma In_clean_categories (api : ch_api) (k : string) (v : value) (r : row) :
  ~ In k (map fst (cats api)) ->
  (In (k, v) (clean_categories api r) <-> In (k, v) r).
Proof.
  unfold clean_categories. generalize (cats api) as cs.
  induction cs as [|c cs IH] in r |- *; intros Hk; cbn [fold_left]; [reflexivity|].
  rewrite IH by (intros Hin; apply Hk; right; exact Hin).
  assert (k <> fst c) as Hne by (intros ->; apply Hk; left; reflexivity).
  split.
  - intros Hin. apply In_dict_set in Hin as [[Heq _]|Hin]; [contradiction | exact Hin].
  - apply In_dict_set_other. exact Hne.
Qed.


(** ** parse_row and the dates of change of name *)

Lemma previous_name_not_category (api : ch_api) (k : string) :
  PyStr.startswith "PreviousName_" k = true -> ~ In k (map fst (cats api)).
Proof.
  intros Hk. cbn. intros [<-|[<-|[<-|[]]]]; discriminate.
Qed.

(** A column [PreviousName_<n>_CONDATE] whose text, as [parse_row] reads
    it, is not empty and is refused by [strptime] makes [parse_row]
    raise: nothing catches the [ValueError]. *)
Lemma malformed_condate_always_raises
  (api : ch_api) (r : row) (st : state) (k s : string) :
  dict_get k (clean_fields (clean_keys r)) = Some (VStr s) ->
  PyStr.startswith "PreviousName_" k = true ->
  nth_error (PyStr.split_char "_" k) 2 = Some "CONDATE" ->
  PyStr.is_empty s = false ->
  Strptime.strptime s = None ->
  exists e, parse_row api r st = Raise e.
Proof.
  intros Hget Hk Hpn Hs Hp.
  assert (In (k, VStr s) (clean_categories api (clean_fields (clean_keys r)))) as Hin.
  { apply In_clean_categories; [apply previous_name_not_category, Hk | apply dict_get_In, Hget]. }
  destruct (for_each_raises parse_column (fun _ => True) _ _ Hin (fun _ _ _ _ => I))
    with (s := mkAcc [] [] [] st) as (e & He & _).
  { intros a. exists ValueError. unfold parse_column. rewrite Hk.
    unfold parse_previous_name. cbn [truthy]. rewrite Hs. cbn [negb].
    unfold index. rewrite Hpn.
    destruct (PyStr.split_char "_" k) as [|x0 [|x1 l]]; try discriminate.
    cbn [nth_error bind]. rewrite bool_decide_eq_true_2 by reflexivity.
    cbn [as_str bind]. rewrite Hp. reflexivity. }
  exists e. unfold parse_row. rewrite He. reflexivity.
Qed.

(** ** parse_row and the SIC code columns *)



(** ** What saving and adding leave alone *)

Lemma save_records_frame (m : model) (st : state) :
  sic_code_cache (save_records m st) = sic_code_cache st
  /\ added (save_records m st) = added st
  /\ debug (save_records m st) = debug st
  /\ session (save_records m st) = session st
  /\ files (save_records m st) = files st.
Proof.
  unfold save_records.
  destruct (dd_get [] m (records st)) as [b recs]. cbn.
  destruct (dd_get 0 m (object_count st)) as [n oc]. cbn.
  repeat split; reflexivity.
Qed.

Lemma save_items_frame (items : list (model * dict (list value) instance)) :
  forall st,
    let st' :=
      fold_left
        (fun st item =>
           if Nat.ltb 0 (dict_len (snd item)) then save_records (fst item) st else st)
        items st in
    sic_code_cache st' = sic_code_cache st
    /\ added st' = added st
    /\ debug st' = debug st
    /\ session st' = session st
    /\ files st' = files st.
Proof.
  induction items as [|[m b] items IH]; intros st; cbn [fold_left fst snd].
  - repeat split; reflexivity.
  - destruct (Nat.ltb 0 (dict_len b)); [|apply IH].
    destruct (IH (save_records m st)) as (H1 & H2 & H3 & H4 & H5).
    destruct (save_records_frame m st) as (G1 & G2 & G3 & G4 & G5).
    cbv zeta in *. repeat split; congruence.
Qed.

Lemma save_all_records_frame (st : state) :
  sic_code_cache (save_all_records st) = sic_code_cache st
  /\ added (save_all_records st) = added st
  /\ debug (save_all_records st) = debug st
  /\ session (save_all_records st) = session st
  /\ files (save_all_records st) = files st.
Proof. apply (save_items_frame (records st) st). Qed.

Lemma add_record_frame (m : model) (r : instance) (st : state) :
  sic_code_cache (add_record m r st) = sic_code_cache st
  /\ added (add_record m r st) = added st ++ [(m, r)]
  /\ debug (add_record m r st) = debug st
  /\ session (add_record m r st) = session st
  /\ files (add_record m r st) = files st.
Proof.
  unfold add_record, insert_record. cbn [records trace_added].
  destruct (dd_get [] m (records st)) as [b recs]. cbn [records set_records].
  destruct (dd_get [] Company _) as [bc recs'].
  destruct (Nat.leb bulk_limit (dict_len bc)).
  - match goal with |- context [save_all_records ?s] =>
      destruct (save_all_records_frame s) as (H1 & H2 & H3 & H4 & H5) end.
    rewrite H1, H2, H3, H4, H5. repeat split; reflexivity.
  - repeat split; reflexivity.
Qed.

(** ** parse_row and the SIC code columns, continued *)




(** ** The batches *)

Lemma dd_get_fst {V : Type} (dflt : V) (m : model) (d : dict model V) :
  fst (dd_get dflt m d) = default dflt (dict_get m d).
Proof. unfold dd_get. destruct (dict_get m d); reflexivity. Qed.

Lemma dd_get_snd {V : Type} (dflt : V) (m m' : model) (d : dict model V) :
  default dflt (dict_get m' (snd (dd_get dflt m d))) = default dflt (dict_get m' d).
Proof.
  unfold dd_get. destruct (dict_get m d) eqn:Hm; cbn [snd]; [reflexivity|].
  destruct (decide (m = m')) as [<-|Hne].
  - rewrite dict_get_set_eq, Hm. reflexivity.
  - rewrite dict_get_set_ne by exact Hne. reflexivity.
Qed.

Lemma batch_set_records_set (m m' : model) (b : dict (list value) instance)
  (recs : dict model (dict (list value) instance)) (st : state) :
  batch m' (set_records (dict_set m b recs) st)
  = if decide (m = m') then b else default [] (dict_get m' recs).
Proof.
  unfold batch. cbn [records set_records].
  destruct (decide (m = m')) as [<-|Hne].
  - rewrite dict_get_set_eq. reflexivity.
  - rewrite dict_get_set_ne by exact Hne. reflexivity.
Qed.

Lemma batch_insert_record (m m' : model) (r : instance) (st : state) :
  batch m' (insert_record m r st)
  = if decide (m = m') then dict_set (unique_key m r) r (batch m st) else batch m' st.
Proof.
  unfold insert_record.
  pose proof (dd_get_fst [] m (records st)) as Hf.
  pose proof (dd_get_snd [] m m' (records st)) as Hs.
  destruct (dd_get [] m (records st)) as [b recs]. cbn [fst snd] in Hf, Hs.
  rewrite batch_set_records_set. unfold batch. rewrite Hf.
  destruct (decide (m = m')); [reflexivity | exact Hs].
Qed.

Lemma insert_record_frame (m : model) (r : instance) (st : state) :
  db (insert_record m r st) = db st
  /\ written (insert_record m r st) = written st
  /\ added (insert_record m r st) = added st.
Proof.
  unfold insert_record. destruct (dd_get [] m (records st)) as [b recs].
  repeat split; reflexivity.
Qed.

Lemma batch_save_records (m m' : model) (st : state) :
  batch m' (save_records m st) = if decide (m = m') then [] else batch m' st.
Proof.
  unfold save_records.
  pose proof (dd_get_snd [] m m' (records st)) as Hs.
  destruct (dd_get [] m (records st)) as [b recs]. cbn [snd] in Hs.
  cbn [set_records write trace_written set_db records db object_count].
  destruct (dd_get 0 m (object_count st)) as [n oc].
  rewrite batch_set_records_set. cbn [records set_object_count write].
  destruct (decide (m = m')); [reflexivity | exact Hs].
Qed.

Lemma save_records_effect (m : model) (st : state) :
  written (save_records m st) = written st ++ [(m, dict_values (batch m st))]
  /\ db (save_records m st)
     = set_objects m (bulk_create (dict_values (batch m st)) (MODEL_UPDATES m)
                                  (objects m (db st))) (db st).
Proof.
  unfold save_records, batch.
  pose proof (dd_get_fst [] m (records st)) as Hf.
  destruct (dd_get [] m (records st)) as [b recs]. cbn [fst] in Hf. subst b.
  cbn [set_records write trace_written set_db records db object_count written].
  destruct (dd_get 0 m (object_count st)) as [n oc].
  split; reflexivity.
Qed.

Lemma save_items_keeps_empty (items : list (model * dict (list value) instance)) (m : model) :
  forall st, batch m st = [] -> batch m (save_items items st) = [].
Proof.
  induction items as [|[m0 b0] items IH]; intros st He; [exact He|].
  unfold save_items in *. cbn [fold_left fst snd].
  destruct (Nat.ltb 0 (dict_len b0)); [|exact (IH st He)].
  apply IH. rewrite batch_save_records. destruct (decide (m0 = m)); [reflexivity | exact He].
Qed.

Lemma save_items_empties (items : list (model * dict (list value) instance))
  (m : model) (b : dict (list value) instance) :
  In (m, b) items -> 0 < dict_len b ->
  forall st, batch m (save_items items st) = [].
Proof.
  intros Hin Hlen. induction items as [|[m0 b0] items IH]; intros st; [destruct Hin|].
  unfold save_items in *. cbn [fold_left fst snd].
  destruct Hin as [[= -> ->]|Hin].
  - apply Nat.ltb_lt in Hlen. rewrite Hlen.
    apply (save_items_keeps_empty items m). rewrite batch_save_records.
    destruct (decide (m = m)); [reflexivity | contradiction].
  - apply (IH Hin).
Qed.

(** [save_all_records] leaves every batch empty. *)
Lemma save_all_records_empties (m : model) (st : state) :
  batch m (save_all_records st) = [].
Proof.
  change (save_all_records st) with (save_items (records st) st).
  destruct (dict_get m (records st)) as [b|] eqn:Hget.
  - destruct b as [|x b].
    + apply save_items_keeps_empty. unfold batch. rewrite Hget. reflexivity.
    + apply (save_items_empties (records st) m (x :: b)).
      * apply dict_get_In, Hget.
      * cbn. lia.
  - apply save_items_keeps_empty. unfold batch. rewrite Hget. reflexivity.
Qed.

(** [add_record] in two cases: the batch of [Company] after the
    insertion is below the limit and nothing else happens, or it has
    reached the limit and everything is saved. *)
Lemma add_record_cases (m : model) (r : instance) (st : state) :
  let st1 := insert_record m r (trace_added m r st) in
  (dict_len (batch Company st1) < bulk_limit
   /\ (forall m', batch m' (add_record m r st) = batch m' st1)
   /\ db (add_record m r st) = db st
   /\ written (add_record m r st) = written st)
  \/ (bulk_limit <= dict_len (batch Company st1)
      /\ exists st2, (forall m', batch m' st2 = batch m' st1)
                     /\ db st2 = db st /\ written st2 = written st
                     /\ added st2 = added st ++ [(m, r)]
                     /\ add_record m r st = save_all_records st2).
Proof.
  intros st1. unfold add_record. fold st1.
  pose proof (dd_get_fst [] Company (records st1)) as Hf.
  pose proof (fun m' => dd_get_snd [] Company m' (records st1)) as Hs.
  destruct (dd_get [] Company (records st1)) as [bc recs]. cbn [fst snd] in Hf, Hs.
  change (bc = batch Company st1) in Hf. subst bc.
  destruct (insert_record_frame m r (trace_added m r st)) as (Hd & Hw & Ha).
  fold st1 in Hd, Hw, Ha. cbn [db written added trace_added] in Hd, Hw, Ha.
  cbn [db written added set_records].
  destruct (Nat.leb bulk_limit (dict_len (batch Company st1))) eqn:Hleb.
  - apply Nat.leb_le in Hleb. right. split; [exact Hleb|]. exists (set_records recs st1).
    split; [intros m'; apply Hs|]. cbn [db written added set_records].
    repeat split; assumption.
  - apply Nat.leb_gt in Hleb. left. split; [exact Hleb|].
    split; [intros m'; apply Hs|]. split; assumption.
Qed.

Lemma dict_len_set_le {K V : Type} `{EqDecision K} (k : K) (v : V) (d : dict K V) :
  dict_len (dict_set k v d) <= S (dict_len d).
Proof. rewrite dict_len_set. destruct (dict_mem k d); lia. Qed.

(** As long as the batch of [Company] stays below the limit, a sequence of
    calls of [add_record] saves nothing: every batch is what the
    insertions make of it. *)
Lemma add_records_below_limit (calls : list (model * instance)) :
  forall st,
    dict_len (batch Company st) + length (calls_of Company calls) < bulk_limit ->
    (forall m, batch m (add_records calls st) = inserted m calls (batch m st))
    /\ written (add_records calls st) = written st.
Proof.
  induction calls as [|[m0 r] calls IH]; intros st Hlt; [split; reflexivity|].
  unfold add_records, inserted, calls_of in *. cbn [fold_left fst snd List.filter] in *.
  assert (dict_len (batch Company (insert_record m0 r (trace_added m0 r st)))
          <= dict_len (batch Company st)
             + length (if bool_decide (m0 = Company) then [(m0, r)] else [])) as Hins.
  { rewrite batch_insert_record.
    change (batch ?m (trace_added m0 r st)) with (batch m st).
    destruct (decide (m0 = Company)) as [->|Hne].
    - rewrite bool_decide_eq_true_2 by reflexivity.
      pose proof (dict_len_set_le (unique_key Company r) r (batch Company st)).
      cbn [length]. lia.
    - rewrite bool_decide_eq_false_2 by exact Hne. cbn [length]. lia. }
  assert (length (if bool_decide (m0 = Company)
                  then (m0, r) :: List.filter (fun c => bool_decide (fst c = Company)) calls
                  else List.filter (fun c => bool_decide (fst c = Company)) calls)
          = length (if bool_decide (m0 = Company) then [(m0, r)] else [])
            + length (List.filter (fun c => bool_decide (fst c = Company)) calls)) as Hlen.
  { destruct (bool_decide (m0 = Company)); reflexivity. }
  destruct (add_record_cases m0 r st) as [(_ & Hb & _ & Hw)|(Hle & _)]; [|lia].
  destruct (IH (add_record m0 r st)) as [IH1 IH2].
  { rewrite Hb. lia. }
  split.
  - intros m. rewrite IH1, Hb, batch_insert_record.
    change (batch ?m (trace_added m0 r st)) with (batch m st).
    destruct (decide (m0 = m)) as [->|Hne]; reflexivity.
  - rewrite IH2. exact Hw.
Qed.

Lemma inserted_len (m : model) (calls : list (model * instance)) :
  forall b,
    NoDup (map (fun c => unique_key m (snd c)) (calls_of m calls)) ->
    (forall c, In c (calls_of m calls) -> ~ In (unique_key m (snd c)) (dict_keys b)) ->
    dict_len (inserted m calls b) = dict_len b + length (calls_of m calls).
Proof.
  induction calls as [|[m0 r] calls IH]; intros b Hnd Hfresh.
  - cbn [inserted calls_of fold_left List.filter length]. lia.
  - unfold inserted, calls_of in *. cbn [fold_left fst snd List.filter] in *.
    destruct (decide (m0 = m)) as [->|Hne].
    + rewrite bool_decide_eq_true_2 in Hnd, Hfresh |- * by reflexivity.
      cbn [map snd length] in *. apply NoDup_cons in Hnd as [Hr Hnd].
      rewrite IH.
      * rewrite dict_len_set.
        destruct (dict_mem _ _) eqn:Hmem; [|lia].
        apply dict_mem_In in Hmem. exfalso.
        apply (Hfresh (m, r)); [left; reflexivity | exact Hmem].
      * exact Hnd.
      * intros c Hc. rewrite dict_keys_set. intros Hin.
        assert (In (unique_key m (snd c)) (dict_keys b) -> False) as Hb
          by (apply Hfresh; right; exact Hc).
        destruct (dict_mem _ _); [exact (Hb Hin)|].
        apply in_app_iff in Hin as [Hin|[Heq|[]]]; [exact (Hb Hin)|].
        apply Hr. rewrite Heq. apply list_elem_of_In.
        apply (in_map (fun c => unique_key m (snd c))). exact Hc.
    + rewrite bool_decide_eq_false_2 in Hnd, Hfresh |- * by exact Hne.
      apply IH; assumption.
Qed.

Lemma bulk_limit_pos : 0 < bulk_limit.
Proof. apply Nat.ltb_lt. vm_compute. reflexivity. Qed.

(** C5, as the code has it. After every call of [add_record] the batch
    of [Company] holds fewer than [bulk_limit] records. The call saves
    everything, and leaves every batch empty, exactly when the insertion
    has brought the batch of [Company] to [bulk_limit]; otherwise every
    batch is as the insertion left it, whatever its size. *)
Theorem company_batch_below_limit (m : model) (r : instance) (st : state) :
  dict_len (batch Company (add_record m r st)) < bulk_limit
  /\ forall m',
       batch m' (add_record m r st)
       = if Nat.leb bulk_limit (dict_len (batch Company (insert_record m r st)))
         then [] else batch m' (insert_record m r st).
Proof.
  assert (forall m', batch m' (insert_record m r (trace_added m r st))
                     = batch m' (insert_record m r st)) as Htr.
  { intros m'. rewrite !batch_insert_record. reflexivity. }
  destruct (add_record_cases m r st) as [(Hlt & Hb & _)|(Hle & st2 & _ & _ & _ & _ & Heq)].
  - split.
    + rewrite Hb. exact Hlt.
    + intros m'. rewrite Htr in Hlt. apply Nat.leb_gt in Hlt. rewrite Hlt, Hb. apply Htr.
  - split.
    + rewrite Heq, save_all_records_empties. exact bulk_limit_pos.
    + intros m'. rewrite Htr in Hle. apply Nat.leb_le in Hle. rewrite Hle, Heq.
      apply save_all_records_empties.
Qed.

(** ** Deduplication by the unique key *)

Lemma batch_wf_nil (key : instance -> list value) : batch_wf key [].
Proof. split; [apply NoDup_nil_2 | intros k r []]. Qed.

Lemma batch_wf_set (key : instance -> list value) (r : instance)
  (b : dict (list value) instance) :
  batch_wf key b -> batch_wf key (dict_set (key r) r b).
Proof.
  intros [Hnd Hk]. split.
  - apply NoDup_dict_set, Hnd.
  - intros k r' Hin. apply In_dict_set in Hin as [[-> ->]|Hin]; [reflexivity | exact (Hk _ _ Hin)].
Qed.

Lemma batch_wf_values (key : instance -> list value) (b : dict (list value) instance) :
  batch_wf key b -> NoDup (map key (dict_values b)).
Proof.
  intros [Hnd Hk]. unfold dict_values. rewrite map_map.
  replace (map (fun x => key (snd x)) b) with (dict_keys b); [exact Hnd|].
  unfold dict_keys. apply map_ext_in. intros [k r] Hin. cbn [fst snd]. exact (Hk _ _ Hin).
Qed.

Lemma batches_wf_ext (st st' : state) :
  (forall m, batch m st' = batch m st) -> written st' = written st ->
  batches_wf st -> batches_wf st'.
Proof.
  intros Hb Hw [H1 H2]. split.
  - intros m. rewrite Hb. apply H1.
  - intros m rs. rewrite Hw. apply H2.
Qed.

Lemma batches_wf_init (d : database) : batches_wf (init_state d).
Proof. split; [intros m; apply batch_wf_nil | intros m rs []]. Qed.

Lemma batches_wf_insert_record (m : model) (r : instance) (st : state) :
  batches_wf st -> batches_wf (insert_record m r st).
Proof.
  intros [H1 H2]. split.
  - intros m'. rewrite batch_insert_record.
    destruct (decide (m = m')) as [<-|_]; [apply batch_wf_set, H1 | apply H1].
  - intros m' rs. destruct (insert_record_frame m r st) as (_ & -> & _). apply H2.
Qed.

Lemma batches_wf_save_records (m : model) (st : state) :
  batches_wf st -> batches_wf (save_records m st).
Proof.
  intros [H1 H2]. split.
  - intros m'. rewrite batch_save_records.
    destruct (decide (m = m')); [apply batch_wf_nil | apply H1].
  - intros m' rs. destruct (save_records_effect m st) as [-> _].
    intros Hin. apply in_app_iff in Hin as [Hin|[[= <- <-]|[]]]; [exact (H2 _ _ Hin)|].
    apply batch_wf_values, H1.
Qed.

Lemma batches_wf_save_items (items : list (model * dict (list value) instance)) :
  forall st, batches_wf st -> batches_wf (save_items items st).
Proof.
  induction items as [|[m b] items IH]; intros st Hwf; [exact Hwf|].
  unfold save_items in *. cbn [fold_left fst snd].
  destruct (Nat.ltb 0 (dict_len b)); [|exact (IH _ Hwf)].
  apply IH, batches_wf_save_records, Hwf.
Qed.

Lemma batches_wf_add_record (m : model) (r : instance) (st : state) :
  batches_wf st -> batches_wf (add_record m r st).
Proof.
  intros Hwf.
  assert (batches_wf (insert_record m r (trace_added m r st))) as Hwf1.
  { apply batches_wf_insert_record. exact Hwf. }
  destruct (add_record_cases m r st)
    as [(_ & Hb & _ & Hw)|(_ & st2 & Hb & _ & Hw & _ & ->)].
  - apply (batches_wf_ext (insert_record m r (trace_added m r st))); [exact Hb | | exact Hwf1].
    rewrite Hw. destruct (insert_record_frame m r (trace_added m r st)) as (_ & -> & _).
    reflexivity.
  - apply (batches_wf_save_items (records st2)).
    apply (batches_wf_ext (insert_record m r (trace_added m r st))); [exact Hb | | exact Hwf1].
    rewrite Hw. destruct (insert_record_frame m r (trace_added m r st)) as (_ & -> & _).
    reflexivity.
Qed.

Lemma batches_wf_add_records (calls : list (model * instance)) :
  forall st, batches_wf st -> batches_wf (add_records calls st).
Proof.
  induction calls as [|[m r] calls IH]; intros st Hwf; [exact Hwf|].
  unfold add_records in *. cbn [fold_left fst snd].
  apply IH, batches_wf_add_record, Hwf.
Qed.

(** C7. (1) Whatever the sequence of calls of [add_record] on a new
    command, every call of [bulk_create] was given at most one record per
    unique key, and every record waiting in a batch sits under its own
    unique key, no key twice. (2) When two records with the same unique
    key are added one after the other and the first call saves nothing,
    the batch afterwards is the one the second record alone gives: it
    holds the later record under that key and has lost the earlier one. *)
Theorem add_record_deduplicates :
  (forall (d : database) (calls : list (model * instance)),
      let st := add_records calls (init_state d) in
      (forall m rs, In (m, rs) (written st) -> NoDup (map (unique_key m) rs))
      /\ (forall m, NoDup (dict_keys (batch m st)))
      /\ (forall m k r, In (k, r) (batch m st) -> k = unique_key m r))
  /\ (forall (st : state) (m : model) (r1 r2 : instance),
        unique_key m r1 = unique_key m r2 ->
        dict_len (batch Company (insert_record m r1 st)) < bulk_limit ->
        let st' := add_record m r2 (add_record m r1 st) in
        batch m st' = dict_set (unique_key m r2) r2 (batch m st)
        /\ dict_get (unique_key m r1) (batch m st') = Some r2).
Proof.
  split.
  - intros d calls st.
    destruct (batches_wf_add_records calls _ (batches_wf_init d)) as [H1 H2].
    fold st in H1, H2. split; [exact H2|]. split.
    + intros m. apply H1.
    + intros m. apply H1.
  - intros st m r1 r2 Hkey Hlt st'.
    assert (forall s m', batch m' (insert_record m r1 (trace_added m r1 s))
                         = batch m' (insert_record m r1 s)) as Htr1.
    { intros s m'. rewrite !batch_insert_record. reflexivity. }
    destruct (add_record_cases m r1 st) as [(_ & Hb1 & _)|(Hle & _)];
      [|rewrite Htr1 in Hle; lia].
    set (sta := add_record m r1 st) in *.
    assert (batch m (insert_record m r2 (trace_added m r2 sta))
            = dict_set (unique_key m r2) r2 (batch m st)) as Hm.
    { rewrite batch_insert_record. destruct (decide (m = m)); [|contradiction].
      change (batch m (trace_added m r2 sta)) with (batch m sta).
      rewrite Hb1, Htr1, batch_insert_record.
      destruct (decide (m = m)); [|contradiction].
      rewrite Hkey. apply dict_set_set. }
    assert (dict_len (batch Company (insert_record m r2 (trace_added m r2 sta)))
            < bulk_limit) as Hlt2.
    { destruct (decide (m = Company)) as [->|Hne].
      - rewrite Hm. rewrite batch_insert_record in Hlt.
        destruct (decide (Company = Company)); [|contradiction].
        rewrite dict_len_set in *. rewrite <- Hkey. exact Hlt.
      - rewrite batch_insert_record. destruct (decide (m = Company)); [contradiction|].
        change (batch Company (trace_added m r2 sta)) with (batch Company sta).
        rewrite Hb1, Htr1. exact Hlt. }
    destruct (add_record_cases m r2 sta) as [(_ & Hb2 & _)|(Hle & _)]; [|lia].
    subst st'. rewrite Hb2, Hm. split; [reflexivity|].
    rewrite Hkey. apply dict_get_set_eq.
Qed.

(** ** Tables *)

Lemma getattr_set_eq (f : string) (v : value) (r : instance) :
  getattr (dict_set f v r) f = v.
Proof. unfold getattr. rewrite dict_get_set_eq. reflexivity. Qed.

Lemma getattr_set_ne (f f' : string) (v : value) (r : instance) :
  f <> f' -> getattr (dict_set f v r) f' = getattr r f'.
Proof. intros Hne. unfold getattr. rewrite dict_get_set_ne by exact Hne. reflexivity. Qed.

Lemma objects_set_objects (m m' : model) (t : table) (d : database) :
  objects m' (set_objects m t d) = if decide (m = m') then t else objects m' d.
Proof. destruct m, m'; reflexivity. Qed.

Lemma unique_key_key_fields (m : model) (r : instance) :
  unique_key m r = row_key (key_fields m) r.
Proof. destruct m; reflexivity. Qed.

Lemma MODEL_UPDATES_merge_keeps (m : model) (o : bulk_options) :
  MODEL_UPDATES m = Some o -> merge_keeps o.
Proof.
  destruct m; intros [= <-] old new Hk; cbn [update_fields unique_fields merge_row fold_left].
  - cbn [row_key map unique_fields] in *. injection Hk as Hk.
    unfold in_latest_update. rewrite getattr_set_eq, getattr_set_ne by discriminate.
    split; reflexivity.
  - cbn [row_key map]. unfold in_latest_update.
    rewrite getattr_set_eq, !getattr_set_ne by discriminate. split; reflexivity.
  - cbn [row_key map]. unfold in_latest_update.
    rewrite getattr_set_eq, !getattr_set_ne by discriminate. split; reflexivity.
Qed.

Section Upsert.
Variable m : model.
Variable o : bulk_options.
Hypothesis Ho : MODEL_UPDATES m = Some o.

Lemma key_fields_options : key_fields m = unique_fields o.
Proof. unfold key_fields. rewrite Ho. reflexivity. Qed.

Lemma upsert_kept (obj row : instance) (t : table) :
  in_latest_update obj = VBool true ->
  In row t -> kept m row (upsert o obj t).
Proof.
  intros Hflag. unfold kept. rewrite key_fields_options.
  induction t as [|r t IH]; intros Hin; [destruct Hin|].
  cbn [upsert].
  destruct (decide (row_key (unique_fields o) r = row_key (unique_fields o) obj))
    as [Heq|Hne].
  - destruct Hin as [->|Hin].
    + destruct (MODEL_UPDATES_merge_keeps m o Ho row obj Heq) as [Hk Hf].
      eexists. split; [left; reflexivity|]. split; [exact Hk|].
      right. rewrite Hf. exact Hflag.
    + exists row. split; [right; exact Hin|]. split; [reflexivity | left; reflexivity].
  - destruct Hin as [->|Hin].
    + exists row. split; [left; reflexivity|]. split; [reflexivity | left; reflexivity].
    + destruct (IH Hin) as (row' & Hin' & Hk & Hor).
      exists row'. split; [right; exact Hin' | split; assumption].
Qed.

Lemma upsert_present_new (obj : instance) (t : table) :
  in_latest_update obj = VBool true ->
  present m (row_key (key_fields m) obj) (upsert o obj t).
Proof.
  intros Hflag. unfold present. rewrite key_fields_options.
  induction t as [|r t IH]; cbn [upsert].
  - exists obj. split; [left; reflexivity | split; [reflexivity | exact Hflag]].
  - destruct (decide (row_key (unique_fields o) r = row_key (unique_fields o) obj))
      as [Heq|Hne].
    + destruct (MODEL_UPDATES_merge_keeps m o Ho r obj Heq) as [Hk Hf].
      eexists. split; [left; reflexivity|]. split; [congruence|].
      rewrite Hf. exact Hflag.
    + destruct IH as (row' & Hin' & Hk & Hf).
      exists row'. split; [right; exact Hin' | split; assumption].
Qed.

Lemma kept_present (k : list value) (row : instance) (t : table) :
  row_key (key_fields m) row = k -> in_latest_update row = VBool true ->
  kept m row t -> present m k t.
Proof.
  intros Hk Hf (row' & Hin & Hk' & [->|Hf']).
  - exists row. split; [exact Hin | split; assumption].
  - exists row'. split; [exact Hin|]. split; [congruence | exact Hf'].
Qed.

Lemma upsert_present_old (obj : instance) (k : list value) (t : table) :
  in_latest_update obj = VBool true ->
  present m k t -> present m k (upsert o obj t).
Proof.
  intros Hflag (row & Hin & Hk & Hf).
  apply (kept_present k row); [exact Hk | exact Hf|].
  apply upsert_kept; assumption.
Qed.

Lemma kept_trans (row : instance) (t t' : table) :
  kept m row t -> (forall r, In r t -> kept m r t') -> kept m row t'.
Proof.
  intros (r1 & Hin1 & Hk1 & Hor1) Hstep.
  destruct (Hstep r1 Hin1) as (r2 & Hin2 & Hk2 & Hor2).
  exists r2. split; [exact Hin2|]. split; [congruence|].
  destruct Hor2 as [->|Hf]; [exact Hor1 | right; exact Hf].
Qed.

Lemma bulk_create_kept (objs : list instance) :
  (forall obj, In obj objs -> in_latest_update obj = VBool true) ->
  forall (t : table) (row : instance),
    In row t -> kept m row (bulk_create objs (Some o) t).
Proof.
  cbn [bulk_create].
  induction objs as [|obj objs IH]; intros Hflags t row Hin; cbn [fold_left].
  - exists row. split; [exact Hin|]. split; [reflexivity | left; reflexivity].
  - apply (kept_trans row (upsert o obj t)).
    + apply upsert_kept; [apply Hflags; left; reflexivity | exact Hin].
    + intros r Hr. apply IH; [|exact Hr].
      intros x Hx. apply Hflags. right; exact Hx.
Qed.

Lemma bulk_create_present_old (objs : list instance) (k : list value) (t : table) :
  (forall obj, In obj objs -> in_latest_update obj = VBool true) ->
  present m k t -> present m k (bulk_create objs (Some o) t).
Proof.
  intros Hflags (row & Hin & Hk & Hf).
  apply (kept_present k row); [exact Hk | exact Hf|].
  apply bulk_create_kept; assumption.
Qed.

Lemma bulk_create_present_new (objs : list instance) (obj : instance) :
  (forall obj, In obj objs -> in_latest_update obj = VBool true) ->
  In obj objs ->
  forall t, present m (row_key (key_fields m) obj) (bulk_create objs (Some o) t).
Proof.
  cbn [bulk_create].
  induction objs as [|x objs IH]; intros Hflags Hin t; [destruct Hin|].
  cbn [fold_left]. destruct Hin as [->|Hin].
  - apply (bulk_create_present_old objs).
    + intros y Hy. apply Hflags. right; exact Hy.
    + apply upsert_present_new. apply Hflags. left; reflexivity.
  - apply IH; [|exact Hin]. intros y Hy. apply Hflags. right; exact Hy.
Qed.
End Upsert.

Lemma update_unflag_flags (t : table) (row : instance) :
  In row (update_unflag t) -> in_latest_update row = VBool false.
Proof.
  unfold update_unflag. intros Hin. apply in_map_iff in Hin as (r & <- & _).
  apply getattr_set_eq.
Qed.

Lemma mark_stale_objects (m : model) (d : database) :
  objects m (mark_stale d)
  = if decide (m = SICCode) then objects m d else update_unflag (objects m d).
Proof. destruct m; reflexivity. Qed.

Lemma delete_unflagged_In (t : table) (row : instance) :
  In row (delete_unflagged t) <-> In row t /\ in_latest_update row = VBool true.
Proof.
  unfold delete_unflagged, filter_flagged, is_flagged. rewrite filter_In.
  rewrite bool_decide_eq_true. reflexivity.
Qed.

(** ** The invariant of a run *)

Lemma kept_refl (m : model) (row : instance) (t : table) : In row t -> kept m row t.
Proof.
  intros Hin. exists row. split; [exact Hin|]. split; [reflexivity | left; reflexivity].
Qed.

Lemma same_view_refl (st : state) : same_view st st.
Proof. repeat split; reflexivity. Qed.

Lemma same_view_trans (s1 s2 s3 : state) :
  same_view s1 s2 -> same_view s2 s3 -> same_view s1 s3.
Proof.
  intros (A1 & A2 & A3) (B1 & B2 & B3). split; [|split].
  - intros m. rewrite B1. apply A1.
  - congruence.
  - intros m Hm. rewrite (B3 m Hm). apply (A3 m Hm).
Qed.

Lemma run_inv_view (t0 : table) (st st' : state) :
  same_view st st' -> run_inv t0 st -> run_inv t0 st'.
Proof.
  intros (Hb & Ha & Hd) (J1 & J3 & K). split; [|split].
  - intros m k r. rewrite Hb. apply J1.
  - intros m r. rewrite Ha. intros Hin. destruct (J3 m r Hin) as [Hm Hor].
    split; [exact Hm|]. rewrite Hb, (Hd m Hm). exact Hor.
  - intros row Hin. rewrite (Hd Company) by discriminate. exact (K row Hin).
Qed.

Lemma all_empty_view (st st' : state) : same_view st st' -> all_empty st -> all_empty st'.
Proof. intros (Hb & _) He m. rewrite Hb. apply He. Qed.

Lemma run_inv_insert (t0 : table) (m : model) (r : instance) (st : state) :
  m <> SICCode -> in_latest_update r = VBool true ->
  run_inv t0 st -> run_inv t0 (insert_record m r (trace_added m r st)).
Proof.
  intros Hm Hflag (J1 & J3 & K).
  destruct (insert_record_frame m r (trace_added m r st)) as (Hd & _ & Ha).
  cbn [db added trace_added] in Hd, Ha.
  assert (forall m', batch m' (insert_record m r (trace_added m r st))
                     = if decide (m = m') then dict_set (unique_key m r) r (batch m st)
                       else batch m' st) as Hb.
  { intros m'. rewrite batch_insert_record. reflexivity. }
  split; [|split].
  - intros m' k r'. rewrite Hb. destruct (decide (m = m')) as [<-|_]; [|apply J1].
    intros Hin. apply In_dict_set in Hin as [[-> ->]|Hin]; [auto | exact (J1 _ _ _ Hin)].
  - intros m' r'. rewrite Ha, Hd, Hb. intros Hin.
    apply in_app_iff in Hin as [Hin|[[= <- <-]|[]]].
    + destruct (J3 m' r' Hin) as [Hm' Hor]. split; [exact Hm'|].
      destruct Hor as [Hk|Hp]; [left | right; exact Hp].
      destruct (decide (m = m')) as [<-|_]; [|exact Hk].
      rewrite dict_keys_set. destruct (dict_mem _ _); [exact Hk|].
      apply in_app_iff. left; exact Hk.
    + split; [exact Hm|]. left. destruct (decide (m = m)); [|contradiction].
      apply dict_mem_In, dict_mem_set.
  - intros row Hin. rewrite Hd. exact (K row Hin).
Qed.

Lemma run_inv_save_records (t0 : table) (m : model) (st : state) :
  run_inv t0 st -> run_inv t0 (save_records m st).
Proof.
  intros (J1 & J3 & K).
  destruct (save_records_frame m st) as (_ & Ha & _).
  destruct (save_records_effect m st) as (_ & Hd).
  assert (forall obj, In obj (dict_values (batch m st)) -> in_latest_update obj = VBool true)
    as Hflags.
  { intros obj Hin. apply in_map_iff in Hin as ([k r] & <- & Hin). apply (J1 _ _ _ Hin). }
  split; [|split].
  - intros m' k r. rewrite batch_save_records.
    destruct (decide (m = m')); [intros [] | apply J1].
  - intros m' r. rewrite Ha, Hd, batch_save_records, objects_set_objects. intros Hin.
    destruct (J3 m' r Hin) as [Hm' Hor]. split; [exact Hm'|].
    destruct (decide (m = m')) as [<-|_]; [right | exact Hor].
    destruct (MODEL_UPDATES m) as [o|] eqn:Ho; [|destruct m; try discriminate; contradiction].
    destruct Hor as [Hk|Hp].
    + apply in_map_iff in Hk as ([k r'] & Hk & Hin'). cbn [fst] in Hk. subst k.
      destruct (J1 _ _ _ Hin') as (Hkey & _).
      rewrite Hkey, unique_key_key_fields.
      apply (bulk_create_present_new m o Ho); [exact Hflags|].
      apply in_map_iff. exists (unique_key m r, r'). split; [reflexivity | exact Hin'].
    + apply (bulk_create_present_old m o Ho); assumption.
  - intros row Hin. rewrite Hd, objects_set_objects.
    destruct (decide (m = Company)) as [->|_]; [|exact (K row Hin)].
    apply (kept_trans Company row (objects Company (db st))); [exact (K row Hin)|].
    intros r Hr. apply (bulk_create_kept Company _ eq_refl); assumption.
Qed.

Lemma run_inv_save_items (t0 : table) (items : list (model * dict (list value) instance)) :
  forall st, run_inv t0 st -> run_inv t0 (save_items items st).
Proof.
  induction items as [|[m b] items IH]; intros st Hinv; [exact Hinv|].
  unfold save_items in *. cbn [fold_left fst snd].
  destruct (Nat.ltb 0 (dict_len b)); [|exact (IH _ Hinv)].
  apply IH, run_inv_save_records, Hinv.
Qed.

Lemma run_inv_add_record (t0 : table) (m : model) (r : instance) (st : state) :
  m <> SICCode -> in_latest_update r = VBool true ->
  run_inv t0 st -> run_inv t0 (add_record m r st).
Proof.
  intros Hm Hflag Hinv.
  pose proof (run_inv_insert t0 m r st Hm Hflag Hinv) as Hinv1.
  destruct (insert_record_frame m r (trace_added m r st)) as (Hd1 & _ & Ha1).
  cbn [db added trace_added] in Hd1, Ha1.
  destruct (add_record_frame m r st) as (_ & Ha & _).
  destruct (add_record_cases m r st)
    as [(_ & Hb & Hd & _)|(_ & st2 & Hb & Hd & _ & Ha2 & ->)].
  - apply (run_inv_view t0 (insert_record m r (trace_added m r st))); [|exact Hinv1].
    split; [exact Hb|]. split; [congruence|]. intros m' _. congruence.
  - apply (run_inv_save_items t0 (records st2)).
    apply (run_inv_view t0 (insert_record m r (trace_added m r st))); [|exact Hinv1].
    split; [exact Hb|]. split; [congruence|]. intros m' _. congruence.
Qed.

Lemma dict_get_app {K V : Type} `{EqDecision K} (k : K) (d1 d2 : dict K V) :
  dict_get k (d1 ++ d2)
  = match dict_get k d1 with Some v => Some v | None => dict_get k d2 end.
Proof.
  induction d1 as [|[k0 v0] d1 IH]; cbn [app dict_get]; [reflexivity|].
  destruct (decide (k0 = k)); [reflexivity | exact IH].
Qed.

Lemma company_kwargs_flag (is_field : string -> bool) (rec c : instance) :
  company_kwargs is_field rec = Ok c -> in_latest_update c = VBool true.
Proof.
  unfold company_kwargs.
  set (kw := List.filter _ rec).
  destruct (dict_mem "last_updated" kw) eqn:H1; [discriminate|].
  destruct (dict_mem "in_latest_update" kw) eqn:H2; [discriminate|].
  cbn [orb]. cbv zeta. destruct (forallb _ _); [|discriminate]. intros [= <-].
  unfold in_latest_update, getattr. rewrite dict_get_app.
  unfold dict_mem in H2. destruct (dict_get "in_latest_update" kw); [discriminate|].
  reflexivity.
Qed.

Lemma parse_column_view (kv : string * value) (a a' : row_acc) :
  parse_column kv a = Ok a' -> same_view (acc_state a) (acc_state a').
Proof.
  destruct kv as [k v]. unfold parse_column.
  destruct (PyStr.startswith "PreviousName_" k).
  - unfold parse_previous_name.
    destruct (truthy v); [|intros [= <-]; apply same_view_refl].
    destruct (index (PyStr.split_char "_" k) 1) as [pn1|]; cbn [bind]; [|discriminate].
    destruct (index (PyStr.split_char "_" k) 2) as [pn2|]; cbn [bind]; [|discriminate].
    destruct (bool_decide (pn2 = "CONDATE")).
    + destruct (as_str v TypeError) as [s|]; cbn [bind]; [|discriminate].
      destruct (Strptime.strptime s); [|discriminate].
      intros [= <-]. apply same_view_refl.
    + intros [= <-]. apply same_view_refl.
  - destruct (PyStr.startswith "SICCode_" k); [|intros [= <-]; apply same_view_refl].
    unfold parse_sic_code.
    destruct (truthy v); [|intros [= <-]; apply same_view_refl].
    destruct (as_str v AttributeError) as [s|]; cbn [bind]; [|discriminate].
    destruct (negb _); [|intros [= <-]; apply same_view_refl].
    destruct (map PyStr.strip (PyStr.split1 " - " s)) as [|c [|t [|? ?]]]; try discriminate.
    intros [= <-]. cbn [acc_state].
    destruct (dict_mem c (sic_code_cache (acc_state a))); [apply same_view_refl|].
    unfold update_or_create. cbv beta iota zeta.
    split; [reflexivity|]. split; [reflexivity|].
    intros m Hm. cbn [db set_db set_sic_code_cache].
    destruct m; [reflexivity | reflexivity | reflexivity | contradiction].
Qed.

Lemma fold_left_invariant {A S : Type} (f : S -> A -> S) (I : S -> Prop) (l : list A) :
  (forall s a, In a l -> I s -> I (f s a)) -> forall s, I s -> I (fold_left f l s).
Proof.
  induction l as [|a l IH]; intros Hstep s Hs; [exact Hs|].
  cbn [fold_left]. apply IH.
  - intros s' a' Hin. apply Hstep. right; exact Hin.
  - apply Hstep; [left; reflexivity | exact Hs].
Qed.

Lemma run_inv_parse_row (t0 : table) (api : ch_api) (r : row) (st st' : state) :
  run_inv t0 st -> parse_row api r st = Ok st' -> run_inv t0 st'.
Proof.
  intros Hinv. unfold parse_row.
  destruct (for_each parse_column _ (mkAcc [] [] [] st)) as [a|e] eqn:Hloop;
    cbn [bind]; [|discriminate].
  assert (run_inv t0 (acc_state a)) as Hinva.
  { apply (for_each_invariant parse_column (fun a => run_inv t0 (acc_state a)) _)
      in Hloop; [exact Hloop | | exact Hinv].
    intros kv a0 a1 _ H0 Hstep.
    exact (run_inv_view t0 _ _ (parse_column_view _ _ _ Hstep) H0). }
  destruct (company_kwargs _ (record a)) as [company|e] eqn:Hc; cbn [bind]; [|discriminate].
  destruct (for_each _ (dict_values (previous_names a)) _) as [st1|e] eqn:Hpn;
    cbn [bind]; [|discriminate].
  intros [= <-].
  apply fold_left_invariant.
  - intros s sic _ Hs. apply run_inv_add_record; [discriminate | reflexivity | exact Hs].
  - apply (for_each_invariant _ (run_inv t0) _) in Hpn; [exact Hpn | |].
    + intros n s s' _ Hs.
      destruct (subscript "CompanyName" n) as [name|]; cbn [bind]; [|discriminate].
      destruct (subscript "CONDATE" n) as [condate|]; cbn [bind]; [|discriminate].
      intros [= <-]. apply run_inv_add_record; [discriminate | reflexivity | exact Hs].
    + apply run_inv_add_record;
        [discriminate | exact (company_kwargs_flag _ _ _ Hc) | exact Hinva].
Qed.

Lemma write_view (x : message) (st : state) : same_view st (write x st).
Proof. split; [|split]; intros; reflexivity. Qed.

Lemma parse_file_inv (t0 : table) (w : world) (resp : response) (url : string)
  (st st' : state) :
  parse_file w resp url st = Ok st' ->
  (run_inv t0 st -> run_inv t0 st') /\ (all_empty st -> all_empty st').
Proof.
  unfold parse_file. destruct (content resp) as [members|]; [|discriminate].
  intros Hrun. split.
  - intros Hinv.
    apply (for_each_invariant _ (run_inv t0) _) in Hrun; [exact Hrun | | exact Hinv].
    intros f s s' _ Hs.
    destruct (for_each (parse_row (api w)) _ _) as [s1|e] eqn:Hrows; cbn [bind];
      [|discriminate].
    intros [= <-]. apply (run_inv_save_items t0 (records s1)).
    apply (for_each_invariant _ (run_inv t0) _) in Hrows; [exact Hrows | | exact Hs].
    intros r x y _ Hx Hy. exact (run_inv_parse_row t0 _ _ _ _ Hx Hy).
  - intros He.
    apply (for_each_invariant _ all_empty _) in Hrun; [exact Hrun | | exact He].
    intros f s s' _ _.
    destruct (for_each (parse_row (api w)) _ _) as [s1|e]; cbn [bind]; [|discriminate].
    intros [= <-] m. apply save_all_records_empties.
Qed.

Lemma fetch_link_view (w : world) (link : string) (st st' : state) :
  fetch_link w link st = Ok st' -> same_view st st'.
Proof.
  assert (forall s, (forall m, batch m s = batch m st) -> added s = added st ->
                    db s = db st -> same_view st s) as Hview.
  { intros s H1 H2 H3. split; [exact H1|]. split; [exact H2|]. intros m _. congruence. }
  unfold fetch_link. destruct (zip_regex_match link); [|intros [= <-]; apply same_view_refl].
  unfold fetch_link_try. cbn [session write].
  destruct (session_get w (session st) link) as [r|e]; cbn [bind].
  - destruct (raise_for_status r) as [[]|e]; cbn [bind].
    + intros [= <-]. apply Hview; reflexivity.
    + destruct e; try discriminate. intros [= <-]. apply Hview; reflexivity.
  - destruct e; try discriminate. intros [= <-]. apply Hview; reflexivity.
Qed.

Lemma fetch_file_view (w : world) (st st' : state) :
  fetch_file w st = Ok st' -> same_view st st'.
Proof.
  unfold fetch_file. cbn [session set_files].
  destruct (session_get w (session st) start_url) as [page|]; cbn [bind]; [|discriminate].
  destruct (raise_for_status page) as [[]|]; cbn [bind]; [|discriminate].
  intros Hrun.
  apply (for_each_invariant _ (same_view st) _) in Hrun; [exact Hrun | |].
  - intros link s s' _ Hs Hstep.
    exact (same_view_trans _ _ _ Hs (fetch_link_view _ _ _ _ Hstep)).
  - split; [|split]; intros; reflexivity.
Qed.

Lemma prune_effect (m : model) (st : state) :
  added (prune m st) = added st
  /\ forall m', objects m' (db (prune m st))
                = if decide (m = m') then delete_unflagged (objects m (db st))
                  else objects m' (db st).
Proof.
  unfold prune. cbn [added write set_db db]. split; [reflexivity|].
  intros m'. apply objects_set_objects.
Qed.

Lemma present_delete_unflagged (m : model) (k : list value) (t : table) :
  present m k t -> present m k (delete_unflagged t).
Proof.
  intros (row & Hin & Hk & Hf). exists row.
  split; [apply delete_unflagged_In; split; assumption | split; assumption].
Qed.

(** ** The journal of the connection *)

Lemma last_cons_default {A : Type} (l : list A) (x d : A) :
  List.last (x :: l) d = List.last l x.
Proof.
  revert x d. induction l as [|y l IH]; intros x d; [reflexivity|].
  change (List.last (x :: y :: l) d) with (List.last (y :: l) d).
  rewrite !IH. reflexivity.
Qed.

Lemma last_app_default {A : Type} (l1 l2 : list A) (d : A) :
  List.last (l1 ++ l2) d = List.last l2 (List.last l1 d).
Proof.
  revert d. induction l1 as [|x l1 IH]; intros d; [reflexivity|].
  cbn [app]. rewrite !last_cons_default. apply IH.
Qed.

Lemma only_wrote_same (st st' : state) :
  journal st' = journal st -> db st' = db st -> only_wrote [] st st'.
Proof. intros Hj Hd. split; [rewrite Hj, app_nil_r; reflexivity | exact Hd]. Qed.

Lemma only_wrote_trans (ws1 ws2 : list database) (s1 s2 s3 : state) :
  only_wrote ws1 s1 s2 -> only_wrote ws2 s2 s3 -> only_wrote (ws1 ++ ws2) s1 s3.
Proof.
  intros [Hj1 Hd1] [Hj2 Hd2]. split.
  - rewrite Hj2, Hj1, map_app, app_assoc. reflexivity.
  - rewrite Hd2, Hd1, last_app_default. reflexivity.
Qed.

Lemma only_wrote_set_db (d : database) (st : state) : only_wrote [d] st (set_db d st).
Proof. split; reflexivity. Qed.

(** Some writes, whatever they are. *)
Lemma wrote_trans (s1 s2 s3 : state) :
  (exists ws, only_wrote ws s1 s2) -> (exists ws, only_wrote ws s2 s3) ->
  exists ws, only_wrote ws s1 s3.
Proof.
  intros [ws1 H1] [ws2 H2]. exists (ws1 ++ ws2). exact (only_wrote_trans _ _ _ _ _ H1 H2).
Qed.

Lemma wrote_same (st st' : state) :
  journal st' = journal st -> db st' = db st -> exists ws, only_wrote ws st st'.
Proof. intros Hj Hd. exists []. apply only_wrote_same; assumption. Qed.

Lemma for_each_wrote {A : Type} (body : A -> state -> result state) (l : list A) :
  (forall a s s', body a s = Ok s' -> exists ws, only_wrote ws s s') ->
  forall s s', for_each body l s = Ok s' -> exists ws, only_wrote ws s s'.
Proof.
  intros Hbody s s' H.
  apply (for_each_invariant body (fun x => exists ws, only_wrote ws s x) l) in H;
    [exact H | | apply wrote_same; reflexivity].
  intros a x y _ Hx Hstep. exact (wrote_trans _ _ _ Hx (Hbody a x y Hstep)).
Qed.

Lemma fold_left_wrote {A : Type} (f : state -> A -> state) (l : list A) :
  (forall s a, exists ws, only_wrote ws s (f s a)) ->
  forall s, exists ws, only_wrote ws s (fold_left f l s).
Proof.
  intros Hf s.
  apply (fold_left_invariant f (fun x => exists ws, only_wrote ws s x));
    [|apply wrote_same; reflexivity].
  intros x a _ Hx. exact (wrote_trans _ _ _ Hx (Hf x a)).
Qed.

Lemma save_records_wrote (m : model) (st : state) :
  exists ws, only_wrote ws st (save_records m st).
Proof.
  unfold save_records.
  destruct (dd_get [] m (records st)) as [b recs].
  cbn [set_records write trace_written set_db records db object_count].
  destruct (dd_get 0 m (object_count st)) as [n oc].
  eexists [_]. split; reflexivity.
Qed.

Lemma save_items_wrote (items : list (model * dict (list value) instance)) (st : state) :
  exists ws, only_wrote ws st (save_items items st).
Proof.
  apply fold_left_wrote. intros s item.
  destruct (Nat.ltb 0 (dict_len (snd item)));
    [apply save_records_wrote | apply wrote_same; reflexivity].
Qed.

Lemma add_record_wrote (m : model) (r : instance) (st : state) :
  exists ws, only_wrote ws st (add_record m r st).
Proof.
  unfold add_record, insert_record.
  destruct (dd_get [] m (records (trace_added m r st))) as [b recs].
  match goal with |- context [@dd_get ?V ?a ?c ?x] => destruct (@dd_get V a c x) as [bc recs'] end.
  destruct (Nat.leb bulk_limit (dict_len bc)); [|apply wrote_same; reflexivity].
  apply (wrote_trans _ (set_records recs' (set_records (dict_set m (dict_set (unique_key m r) r b) recs)
                                             (trace_added m r st)))).
  - apply wrote_same; reflexivity.
  - apply save_items_wrote.
Qed.

Lemma parse_column_wrote (kv : string * value) (a a' : row_acc) :
  parse_column kv a = Ok a' -> exists ws, only_wrote ws (acc_state a) (acc_state a').
Proof.
  destruct kv as [k v]. unfold parse_column.
  destruct (PyStr.startswith "PreviousName_" k).
  - unfold parse_previous_name.
    destruct (truthy v); [|intros [= <-]; apply wrote_same; reflexivity].
    destruct (index (PyStr.split_char "_" k) 1) as [pn1|]; cbn [bind]; [|discriminate].
    destruct (index (PyStr.split_char "_" k) 2) as [pn2|]; cbn [bind]; [|discriminate].
    destruct (bool_decide (pn2 = "CONDATE")).
    + destruct (as_str v TypeError) as [s|]; cbn [bind]; [|discriminate].
      destruct (Strptime.strptime s); [|discriminate].
      intros [= <-]. apply wrote_same; reflexivity.
    + intros [= <-]. apply wrote_same; reflexivity.
  - destruct (PyStr.startswith "SICCode_" k); [|intros [= <-]; apply wrote_same; reflexivity].
    unfold parse_sic_code.
    destruct (truthy v); [|intros [= <-]; apply wrote_same; reflexivity].
    destruct (as_str v AttributeError) as [s|]; cbn [bind]; [|discriminate].
    destruct (negb _); [|intros [= <-]; apply wrote_same; reflexivity].
    destruct (map PyStr.strip (PyStr.split1 " - " s)) as [|c [|t [|? ?]]]; try discriminate.
    intros [= <-]. cbn [acc_state].
    destruct (dict_mem c (sic_code_cache (acc_state a))); [apply wrote_same; reflexivity|].
    unfold update_or_create. cbv beta iota zeta.
    eexists [_]. split; reflexivity.
Qed.

Lemma parse_row_wrote (api : ch_api) (r : row) (st st' : state) :
  parse_row api r st = Ok st' -> exists ws, only_wrote ws st st'.
Proof.
  unfold parse_row.
  destruct (for_each parse_column _ (mkAcc [] [] [] st)) as [a|e] eqn:Hloop;
    cbn [bind]; [|discriminate].
  assert (exists ws, only_wrote ws st (acc_state a)) as Ha.
  { apply (for_each_invariant parse_column
             (fun x => exists ws, only_wrote ws st (acc_state x)) _) in Hloop;
      [exact Hloop | | apply wrote_same; reflexivity].
    intros kv x y _ Hx Hstep. exact (wrote_trans _ _ _ Hx (parse_column_wrote _ _ _ Hstep)). }
  destruct (company_kwargs _ (record a)) as [company|e]; cbn [bind]; [|discriminate].
  destruct (for_each _ (dict_values (previous_names a)) _) as [st1|e] eqn:Hpn;
    cbn [bind]; [|discriminate].
  intros [= <-].
  apply for_each_wrote in Hpn.
  2:{ intros n s s'.
      destruct (subscript "CompanyName" n) as [name|]; cbn [bind]; [|discriminate].
      destruct (subscript "CONDATE" n) as [condate|]; cbn [bind]; [|discriminate].
      intros [= <-]. apply add_record_wrote. }
  apply (wrote_trans _ _ _ Ha).
  apply (wrote_trans _ _ _ (add_record_wrote Company company (acc_state a))).
  apply (wrote_trans _ _ _ Hpn).
  apply fold_left_wrote. intros s sic. apply add_record_wrote.
Qed.

Lemma parse_file_wrote (w : world) (resp : response) (url : string) (st st' : state) :
  parse_file w resp url st = Ok st' -> exists ws, only_wrote ws st st'.
Proof.
  unfold parse_file. destruct (content resp) as [members|]; [|discriminate].
  intros H. apply for_each_wrote in H.
  - apply (wrote_trans _ (write (Opening url) st)); [apply wrote_same; reflexivity | exact H].
  - intros f s s'.
    destruct (for_each (parse_row (api w)) _ _) as [s1|e] eqn:Hrows; cbn [bind]; [|discriminate].
    intros [= <-]. apply for_each_wrote in Hrows; [|apply parse_row_wrote].
    apply (wrote_trans _ (write (Opening (filename f)) s)); [apply wrote_same; reflexivity|].
    apply (wrote_trans _ _ _ Hrows). apply save_items_wrote.
Qed.

Lemma fetch_file_wrote (w : world) (st st' : state) :
  fetch_file w st = Ok st' -> journal st' = journal st /\ db st' = db st.
Proof.
  unfold fetch_file.
  destruct (session_get w _ start_url) as [page|e]; cbn [bind]; [|discriminate].
  destruct (raise_for_status page) as [[]|e]; cbn [bind]; [|discriminate].
  intros H.
  apply (for_each_invariant _ (fun s => journal s = journal st /\ db s = db st) _) in H;
    [exact H | | split; reflexivity].
  intros link s s' _ [Hj Hd]. unfold fetch_link.
  destruct (zip_regex_match link); [|intros [= <-]; split; assumption].
  unfold fetch_link_try, raise_for_status.
  destruct (session_get w _ link) as [r|e]; cbn [bind].
  - destruct (_ && _); cbn [bind]; cbv beta iota; [discriminate|].
    intros [= <-]. split; assumption.
  - destruct e; cbv beta iota; try discriminate. intros [= <-]. split; assumption.
Qed.

Lemma execute_all_wrote (w : world) (st st' : state) :
  execute_all w st = Ok st' -> exists ws, only_wrote ws st st'.
Proof.
  unfold execute_all. apply for_each_wrote.
  intros stmt s s'. destruct (snd stmt (db s)) as [d|e]; cbn [bind]; [|discriminate].
  intros [= <-]. exists [d]. split; reflexivity.
Qed.

(** The import writes first the database in which every row is unflagged,
    and then only writes. *)
Lemma import_and_prune_wrote (w : world) (o : options) (st st' : state) :
  import_and_prune w o st = Ok st' ->
  exists ws, only_wrote (mark_stale (db st) :: ws) st st'.
Proof.
  unfold import_and_prune.
  set (st0 := set_session (opt_cache o) _).
  assert (only_wrote [mark_stale (db st)] st st0) as H0.
  { unfold st0. destruct (opt_cache o); split; reflexivity. }
  destruct (fetch_file w st0) as [st1|e] eqn:Hfetch; cbn [bind]; [|discriminate].
  apply fetch_file_wrote in Hfetch as [Hj1 Hd1].
  destruct (for_each _ (files st1) st1) as [st2|e] eqn:Hparse; cbn [bind]; [|discriminate].
  apply for_each_wrote in Hparse.
  2:{ intros item s s'. apply parse_file_wrote. }
  intros [= <-].
  assert (exists ws, only_wrote ws st1 (fold_left (fun st m => prune m st)
                                          [CompanySICCode; PreviousName] st2)) as [ws Hws].
  { apply (wrote_trans _ _ _ Hparse). apply fold_left_wrote.
    intros s m. unfold prune. eexists [_]. split; reflexivity. }
  exists ws.
  apply (only_wrote_trans [mark_stale (db st)] ws st st0 _ H0).
  destruct Hws as [Hj Hd]. split; [rewrite <- Hj1; exact Hj | rewrite <- Hd1; exact Hd].
Qed.

(** ** The rows a run has seen *)

Lemma upsert_other_key (o : bulk_options) (obj row : instance) (t : table) :
  In row t ->
  row_key (unique_fields o) row <> row_key (unique_fields o) obj ->
  In row (upsert o obj t).
Proof.
  induction t as [|r0 t IH]; intros Hin Hne; [destruct Hin|].
  cbn [upsert].
  destruct (decide (row_key (unique_fields o) r0 = row_key (unique_fields o) obj)) as [Hk|Hk].
  - destruct Hin as [->|Hin]; [contradiction | right; exact Hin].
  - destruct Hin as [->|Hin]; [left; reflexivity | right; apply IH; assumption].
Qed.

Lemma upsert_rows (o : bulk_options) (obj row : instance) (t : table) :
  merge_keeps o ->
  In row (upsert o obj t) ->
  In row t \/ row_key (unique_fields o) row = row_key (unique_fields o) obj.
Proof.
  intros Hkeep. induction t as [|r0 t IH]; cbn [upsert].
  - intros [<-|[]]. right. reflexivity.
  - destruct (decide (row_key (unique_fields o) r0 = row_key (unique_fields o) obj)) as [Hk|Hk].
    + intros [<-|Hin]; [|left; right; exact Hin].
      right. destruct (Hkeep r0 obj Hk) as [-> _]. exact Hk.
    + intros [<-|Hin]; [left; left; reflexivity|].
      destruct (IH Hin) as [H|H]; [left; right; exact H | right; exact H].
Qed.

Lemma bulk_create_rows (o : bulk_options) (objs : list instance) (row : instance) :
  merge_keeps o ->
  forall t,
    In row (bulk_create objs (Some o) t) ->
    In row t
    \/ exists obj, In obj objs /\ row_key (unique_fields o) row = row_key (unique_fields o) obj.
Proof.
  intros Hkeep. cbn [bulk_create].
  induction objs as [|obj objs IH]; intros t Hin; [left; exact Hin|].
  cbn [fold_left] in Hin. destruct (IH _ Hin) as [H|(obj' & Hobj & Hk)].
  - destruct (upsert_rows o obj row t Hkeep H) as [H'|H']; [left; exact H'|].
    right. exists obj. split; [left; reflexivity | exact H'].
  - right. exists obj'. split; [right; exact Hobj | exact Hk].
Qed.

Lemma bulk_create_other_keys (o : bulk_options) (objs : list instance) (row : instance) :
  (forall obj, In obj objs ->
               row_key (unique_fields o) row <> row_key (unique_fields o) obj) ->
  forall t, In row t -> In row (bulk_create objs (Some o) t).
Proof.
  cbn [bulk_create]. induction objs as [|obj objs IH]; intros Hne t Hin; [exact Hin|].
  cbn [fold_left]. apply IH.
  - intros obj' Hobj. apply Hne. right. exact Hobj.
  - apply upsert_other_key; [exact Hin | apply Hne; left; reflexivity].
Qed.

Lemma seen_mono (m : model) (row : instance) (st st' : state) :
  (forall c, In c (added st) -> In c (added st')) -> seen m row st -> seen m row st'.
Proof. intros Hsub (r & Hin & Hk). exists r. split; [apply Hsub, Hin | exact Hk]. Qed.

Lemma seen_inv_view (t0 : table) (st st' : state) :
  same_view st st' -> seen_inv t0 st -> seen_inv t0 st'.
Proof.
  intros (Hb & Ha & Hd) (B & F & U).
  assert (forall m row, seen m row st' <-> seen m row st) as Hseen.
  { intros m row. unfold seen. rewrite Ha. reflexivity. }
  split; [|split].
  - intros m k r. rewrite Hb, Ha. apply B.
  - intros m row Hm. rewrite (Hd m Hm), Hseen. apply F, Hm.
  - intros row Hin. rewrite Hseen, (Hd Company) by discriminate. apply U, Hin.
Qed.

Lemma seen_inv_insert (t0 : table) (m : model) (r : instance) (st : state) :
  seen_inv t0 st -> seen_inv t0 (insert_record m r (trace_added m r st)).
Proof.
  intros (B & F & U).
  destruct (insert_record_frame m r (trace_added m r st)) as (Hd & _ & Ha).
  cbn [db added trace_added] in Hd, Ha.
  assert (forall c, In c (added st) ->
                    In c (added (insert_record m r (trace_added m r st)))) as Hsub.
  { intros c Hc. rewrite Ha. apply in_or_app. left. exact Hc. }
  split; [|split].
  - intros m' k r'. rewrite batch_insert_record, Ha.
    change (batch m (trace_added m r st)) with (batch m st).
    change (batch m' (trace_added m r st)) with (batch m' st).
    destruct (decide (m = m')) as [<-|_].
    + intros Hin. apply In_dict_set in Hin as [[_ ->]|Hin].
      * apply in_or_app. right. left. reflexivity.
      * apply in_or_app. left. apply (B _ _ _ Hin).
    + intros Hin. apply in_or_app. left. apply (B _ _ _ Hin).
  - intros m' row Hm. rewrite Hd. intros Hin Hflag.
    apply (seen_mono m' row st); [exact Hsub | apply (F m' row Hm Hin Hflag)].
  - intros row Hin Hns. rewrite Hd. apply (U row Hin).
    intros Hs. apply Hns. apply (seen_mono Company row st); [exact Hsub | exact Hs].
Qed.

Lemma seen_inv_save_records (t0 : table) (m : model) (st : state) :
  seen_inv t0 st -> seen_inv t0 (save_records m st).
Proof.
  intros (B & F & U).
  destruct (save_records_frame m st) as (_ & Ha & _).
  destruct (save_records_effect m st) as (_ & Hd).
  assert (forall m' row, seen m' row (save_records m st) <-> seen m' row st) as Hseen.
  { intros m' row. unfold seen. rewrite Ha. reflexivity. }
  assert (forall obj, In obj (dict_values (batch m st)) -> In (m, obj) (added st)) as Hobjs.
  { intros obj Hin. apply in_map_iff in Hin as ([k r] & <- & Hin). apply (B _ _ _ Hin). }
  split; [|split].
  - intros m' k r. rewrite batch_save_records, Ha.
    destruct (decide (m = m')); [intros [] | apply B].
  - intros m' row Hm. rewrite Hd, objects_set_objects, Hseen.
    destruct (decide (m = m')) as [<-|_]; [|apply F, Hm].
    destruct (MODEL_UPDATES m) as [o|] eqn:Ho; [|destruct m; try discriminate; contradiction].
    intros Hin Hflag.
    destruct (bulk_create_rows o _ row (MODEL_UPDATES_merge_keeps m o Ho) _ Hin)
      as [Hold|(obj & Hobj & Hk)]; [apply (F m row Hm Hold Hflag)|].
    exists obj. split; [apply Hobjs, Hobj|].
    rewrite unique_key_key_fields, (key_fields_options m o Ho). symmetry. exact Hk.
  - intros row Hin. rewrite Hseen, Hd, objects_set_objects. intros Hns.
    destruct (decide (m = Company)) as [->|_]; [|apply (U row Hin Hns)].
    apply bulk_create_other_keys; [|apply (U row Hin Hns)].
    intros obj Hobj Hk. apply Hns. exists obj. split; [apply Hobjs, Hobj|].
    rewrite unique_key_key_fields. symmetry. exact Hk.
Qed.

Lemma seen_inv_save_items (t0 : table) (items : list (model * dict (list value) instance)) :
  forall st, seen_inv t0 st -> seen_inv t0 (save_items items st).
Proof.
  induction items as [|[m b] items IH]; intros st Hinv; [exact Hinv|].
  unfold save_items in *. cbn [fold_left fst snd].
  destruct (Nat.ltb 0 (dict_len b)); [|exact (IH _ Hinv)].
  apply IH, seen_inv_save_records, Hinv.
Qed.

Lemma seen_inv_add_record (t0 : table) (m : model) (r : instance) (st : state) :
  seen_inv t0 st -> seen_inv t0 (add_record m r st).
Proof.
  intros Hinv.
  pose proof (seen_inv_insert t0 m r st Hinv) as Hinv1.
  destruct (insert_record_frame m r (trace_added m r st)) as (Hd1 & _ & Ha1).
  cbn [db added trace_added] in Hd1, Ha1.
  destruct (add_record_frame m r st) as (_ & Ha & _).
  destruct (add_record_cases m r st)
    as [(_ & Hb & Hd & _)|(_ & st2 & Hb & Hd & _ & Ha2 & ->)].
  - apply (seen_inv_view t0 (insert_record m r (trace_added m r st))); [|exact Hinv1].
    split; [exact Hb|]. split; [congruence|]. intros m' _. congruence.
  - apply (seen_inv_save_items t0 (records st2)).
    apply (seen_inv_view t0 (insert_record m r (trace_added m r st))); [|exact Hinv1].
    split; [exact Hb|]. split; [congruence|]. intros m' _. congruence.
Qed.

Lemma seen_inv_parse_row (t0 : table) (api : ch_api) (r : row) (st st' : state) :
  seen_inv t0 st -> parse_row api r st = Ok st' -> seen_inv t0 st'.
Proof.
  intros Hinv. unfold parse_row.
  destruct (for_each parse_column _ (mkAcc [] [] [] st)) as [a|e] eqn:Hloop;
    cbn [bind]; [|discriminate].
  assert (seen_inv t0 (acc_state a)) as Hinva.
  { apply (for_each_invariant parse_column (fun a => seen_inv t0 (acc_state a)) _)
      in Hloop; [exact Hloop | | exact Hinv].
    intros kv a0 a1 _ H0 Hstep.
    exact (seen_inv_view t0 _ _ (parse_column_view _ _ _ Hstep) H0). }
  destruct (company_kwargs _ (record a)) as [company|e] eqn:Hc; cbn [bind]; [|discriminate].
  destruct (for_each _ (dict_values (previous_names a)) _) as [st1|e] eqn:Hpn;
    cbn [bind]; [|discriminate].
  intros [= <-].
  apply fold_left_invariant.
  - intros s sic _ Hs. apply seen_inv_add_record, Hs.
  - apply (for_each_invariant _ (seen_inv t0) _) in Hpn; [exact Hpn | |].
    + intros n s s' _ Hs.
      destruct (subscript "CompanyName" n) as [name|]; cbn [bind]; [|discriminate].
      destruct (subscript "CONDATE" n) as [condate|]; cbn [bind]; [|discriminate].
      intros [= <-]. apply seen_inv_add_record, Hs.
    + apply seen_inv_add_record, Hinva.
Qed.

Lemma seen_inv_parse_file (t0 : table) (w : world) (resp : response) (url : string)
  (st st' : state) :
  seen_inv t0 st -> parse_file w resp url st = Ok st' -> seen_inv t0 st'.
Proof.
  intros Hinv. unfold parse_file. destruct (content resp) as [members|]; [|discriminate].
  intros Hrun.
  apply (for_each_invariant _ (seen_inv t0) _) in Hrun; [exact Hrun | | exact Hinv].
  intros f s s' _ Hs.
  destruct (for_each (parse_row (api w)) _ _) as [s1|e] eqn:Hrows; cbn [bind];
    [|discriminate].
  intros [= <-]. apply (seen_inv_save_items t0 (records s1)).
  apply (for_each_invariant _ (seen_inv t0) _) in Hrows; [exact Hrows | | exact Hs].
  intros r x y _ Hx Hy. exact (seen_inv_parse_row t0 _ _ _ _ Hx Hy).
Qed.

(** ** handle *)

(** C6. Every write of [handle] to the database is inside the one
    [transaction.atomic()] block.
    (1) When [handle] raises, at whatever point, the database it leaves is
        the database it was given.
    (2) When it returns, the journal of the connection has grown by one
        transaction and nothing else: it was opened once, every write of
        the run (the first of them the three
        [update(in_latest_update=False)]) came after that, then it was
        committed once, and the database is the one written last.
    (3) When the import has returned, having written, and a statement of
        [UPDATE_COMPANIES] raises, [handle] raises and leaves the database
        it was given: what the import wrote in the open transaction is
        not committed. *)
Theorem handle_is_atomic (w : world) (o : options) (st : state) :
  (forall e d, handle w o st = Failed e d -> d = db st)
  /\ (forall st', handle w o st = Finished st' ->
        exists ws,
          journal st' = journal st ++ Begin :: map Write (mark_stale (db st) :: ws) ++ [Commit]
          /\ db st' = List.last ws (mark_stale (db st)))
  /\ (forall st1 e,
        import_and_prune w o (log_event Begin (set_debug (opt_debug o) st)) = Ok st1 ->
        execute_all w st1 = Raise e ->
        handle w o st = Failed e (db st)
        /\ exists ws,
             journal st1 = journal st ++ Begin :: map Write (mark_stale (db st) :: ws)
             /\ db st1 = List.last ws (mark_stale (db st))).
Proof.
  unfold handle, atomic, handle_body. split; [|split].
  - intros e d.
    destruct (bind _ _); [discriminate|]. intros [= _ <-]. reflexivity.
  - intros st'.
    destruct (import_and_prune w o _) as [st1|e] eqn:Himp; cbn [bind]; [|discriminate].
    destruct (execute_all w st1) as [st2|e] eqn:Hsql; [|discriminate].
    intros [= <-].
    apply import_and_prune_wrote in Himp as [ws1 H1].
    apply execute_all_wrote in Hsql as [ws2 H2].
    destruct (only_wrote_trans _ _ _ _ _ H1 H2) as [Hj Hd].
    exists (ws1 ++ ws2). split.
    + cbn [journal log_event]. rewrite Hj. cbn [journal log_event set_debug].
      rewrite <- !app_assoc. reflexivity.
    + cbn [db log_event]. rewrite Hd. cbn [db log_event set_debug app].
      apply last_cons_default.
  - intros st1 e Himp Hsql. rewrite Himp. cbn [bind]. rewrite Hsql.
    split; [reflexivity|].
    apply import_and_prune_wrote in Himp as [ws [Hj Hd]].
    exists ws. split.
    + rewrite Hj. cbn [journal log_event set_debug]. rewrite <- app_assoc. reflexivity.
    + rewrite Hd. cbn [db log_event set_debug]. apply last_cons_default.
Qed.

Lemma run_inv_start (o : options) (d : database) :
  let st0 := set_session (opt_cache o)
               (set_db (mark_stale d)
                  (log_event Begin (set_debug (opt_debug o) (init_state d)))) in
  run_inv (objects Company (mark_stale d)) st0
  /\ all_empty st0
  /\ seen_inv (objects Company (mark_stale d)) st0.
Proof.
  assert (forall m row, m <> SICCode -> In row (objects m (mark_stale d)) ->
                        in_latest_update row = VBool true -> False) as Hnone.
  { intros m row Hm Hin Hflag. rewrite mark_stale_objects in Hin.
    destruct (decide (m = SICCode)); [contradiction|].
    apply update_unflag_flags in Hin. congruence. }
  unfold set_session. destruct (opt_cache o); cbv zeta.
  - split; [split; [|split] | split; [intros m; reflexivity | split; [|split]]].
    + intros m k r [].
    + intros m r [].
    + intros row Hin. apply kept_refl. exact Hin.
    + intros m k r [].
    + intros m row Hm Hin Hflag. destruct (Hnone m row Hm Hin Hflag).
    + intros row Hin _. exact Hin.
  - split; [split; [|split] | split; [intros m; reflexivity | split; [|split]]].
    + intros m k r [].
    + intros m r [].
    + intros row Hin. apply kept_refl. exact Hin.
    + intros m k r [].
    + intros m row Hm Hin Hflag. destruct (Hnone m row Hm Hin Hflag).
    + intros row Hin _. exact Hin.
Qed.

(** C1, as the code has it. Let a run of [handle] on a new command and a
    database [d] return. Then the part of [handle] from the opening of the
    transaction to the end of the deleting loop returned a state [st'],
    from which the statements of [UPDATE_COMPANIES] were run, and:
    (1) the first thing the run wrote is the database in which every
        [Company], [CompanySICCode] and [PreviousName] row has
        [in_latest_update] [False];
    (2) every record passed to [add_record] during the run is, in [st'],
        a row of its table with [in_latest_update] [True];
    (3) in [st'] every [CompanySICCode] and every [PreviousName] row has
        [in_latest_update] [True] and the key of a record the run has
        seen: the others were deleted;
    (4) no [Company] row was deleted: every company of [d] is still
        there, with [in_latest_update] [True], or as it was but for
        [in_latest_update] set to [False];
    (5) a company that the run has not seen is in [st'] the row it was
        after (1), with [in_latest_update] [False], and a company with
        [in_latest_update] [True] is one the run has seen. *)
Theorem stale_rows_pruned_companies_kept
  (w : world) (o : options) (d : database) (st_end : state) :
  handle w o (init_state d) = Finished st_end ->
  exists st' ws,
    import_and_prune w o (log_event Begin (set_debug (opt_debug o) (init_state d))) = Ok st'
    /\ (exists st3, execute_all w st' = Ok st3 /\ st_end = log_event Commit st3)
    /\ journal st' = Begin :: Write (mark_stale d) :: map Write ws
    /\ (forall m row, m <> SICCode -> In row (objects m (mark_stale d)) ->
                      in_latest_update row = VBool false)
    /\ (forall m r, In (m, r) (added st') ->
                    present m (unique_key m r) (objects m (db st')))
    /\ (forall m row, m = CompanySICCode \/ m = PreviousName ->
                      In row (objects m (db st')) ->
                      in_latest_update row = VBool true /\ seen m row st')
    /\ (forall row, In row (objects Company d) ->
                    kept Company (dict_set "in_latest_update" (VBool false) row)
                         (objects Company (db st')))
    /\ (forall row, In row (objects Company (mark_stale d)) ->
                    ~ seen Company row st' -> In row (objects Company (db st')))
    /\ (forall row, In row (objects Company (db st')) ->
                    in_latest_update row = VBool true -> seen Company row st').
Proof.
  unfold handle, atomic, handle_body.
  set (st_in := log_event Begin (set_debug (opt_debug o) (init_state d))).
  destruct (import_and_prune w o st_in) as [st'|e] eqn:Himp; cbn [bind]; [|discriminate].
  destruct (execute_all w st') as [st3|e] eqn:Hsql; [|discriminate].
  intros [= <-].
  destruct (import_and_prune_wrote _ _ _ _ Himp) as (ws & Hj & _).
  exists st', ws. split; [reflexivity|]. split; [exists st3; split; [exact Hsql | reflexivity]|].
  split; [exact Hj|]. split.
  { intros m row Hm. rewrite mark_stale_objects.
    destruct (decide (m = SICCode)); [contradiction | apply update_unflag_flags]. }
  unfold import_and_prune in Himp.
  destruct (run_inv_start o d) as (Hinv0 & Hemp0 & Hseen0).
  set (t0 := objects Company (mark_stale d)) in *.
  set (st0 := set_session (opt_cache o) _) in *.
  change (db st_in) with d in Himp. fold st_in in st0. fold st0 in Himp.
  destruct (fetch_file w st0) as [st1|e] eqn:Hfetch; cbn [bind] in Himp; [|discriminate].
  pose proof (fetch_file_view _ _ _ Hfetch) as Hview.
  destruct (for_each _ (files st1) st1) as [st2|e] eqn:Hparse; cbn [bind] in Himp;
    [|discriminate].
  injection Himp as <-.
  assert (run_inv t0 st2 /\ all_empty st2 /\ seen_inv t0 st2)
    as ((J1 & J3 & K) & Hemp & (B & F & U)).
  { apply (for_each_invariant _ (fun s => run_inv t0 s /\ all_empty s /\ seen_inv t0 s) _)
      in Hparse; [exact Hparse | |].
    - intros item s s' _ (Hs & He & Hn) Hstep.
      destruct (parse_file_inv t0 _ _ _ _ _ Hstep) as [G1 G2].
      split; [auto | split; [auto|]].
      apply (seen_inv_parse_file t0 _ _ _ _ _ Hn Hstep).
    - split; [exact (run_inv_view t0 _ _ Hview Hinv0)|].
      split; [exact (all_empty_view _ _ Hview Hemp0)|].
      exact (seen_inv_view t0 _ _ Hview Hseen0). }
  cbn [fold_left].
  destruct (prune_effect CompanySICCode st2) as [Ha1 Hd1].
  destruct (prune_effect PreviousName (prune CompanySICCode st2)) as [Ha2 Hd2].
  assert (forall m row, seen m row (prune PreviousName (prune CompanySICCode st2))
                        <-> seen m row st2) as Hseen.
  { intros m row. unfold seen. rewrite Ha2, Ha1. reflexivity. }
  split; [|split; [|split; [|split]]].
  - intros m r. rewrite Ha2, Ha1. intros Hin.
    destruct (J3 m r Hin) as [Hm [Hk|Hp]].
    { rewrite Hemp in Hk. destruct Hk. }
    rewrite Hd2, !Hd1.
    destruct m; cbn; try exact Hp; try contradiction;
      apply present_delete_unflagged; exact Hp.
  - intros m row Hm. rewrite Hd2, !Hd1, Hseen.
    destruct Hm as [-> | ->]; cbn; intros Hin; apply delete_unflagged_In in Hin as [Hin Hflag];
      (split; [exact Hflag | apply F; [discriminate | exact Hin | exact Hflag]]).
  - intros row Hin. rewrite Hd2, !Hd1. cbn.
    apply K. unfold t0. rewrite mark_stale_objects. cbn.
    unfold update_unflag. apply in_map. exact Hin.
  - intros row Hin. rewrite Hseen, Hd2, !Hd1. cbn. apply U, Hin.
  - intros row Hin Hflag. apply Hseen. apply F; [discriminate | | exact Hflag].
    rewrite Hd2, !Hd1 in Hin. exact Hin.
Qed.

(** ** logcommand *)

Section LogCommandFacts.
Import LogCommand.

Lemma errors_emit (r : LogRecord) (h : CommandLogHandler) :
  errors (emit r h) = if is_error r then errors h + 1 else errors h.
Proof. reflexivity. Qed.

Lemma errors_emit_all (rs : list LogRecord) :
  forall h, errors (emit_all rs h) = errors h + length (error_records rs).
Proof.
  induction rs as [|r rs IH]; intros h; simpl.
  - lia.
  - unfold emit_all in IH. rewrite IH, errors_emit.
    destruct (is_error r); simpl; lia.
Qed.

Lemma status_teardown (now : nat) (h : CommandLogHandler) :
  status (stored (teardown now h)) = if Nat.ltb 0 (errors h) then FAILED else COMPLETED.
Proof.
  unfold teardown. simpl.
  destruct (Nat.ltb 0 (errors h)); simpl;
    destruct (negb (PyStr.is_empty (handler_log h)) && _); reflexivity.
Qed.

Lemma handle_records_emit_all (rs : list LogRecord) :
  forall h, handle_records rs h
            = emit_all (List.filter (fun r => Nat.leb INFO (levelno r)) rs) h.
Proof.
  induction rs as [|r rs IH]; intros h; [reflexivity|].
  unfold handle_records in *. cbn [fold_left List.filter].
  destruct (Nat.leb INFO (levelno r)); cbn [fold_left emit_all]; apply IH.
Qed.

Lemma errors_handle_records (rs : list LogRecord) (h : CommandLogHandler) :
  errors (handle_records rs h)
  = errors h + length (error_records (List.filter (fun r => Nat.leb INFO (levelno r)) rs)).
Proof. rewrite handle_records_emit_all. apply errors_emit_all. Qed.

Lemma error_passes_level (r : LogRecord) : is_error r = true -> Nat.leb INFO (levelno r) = true.
Proof.
  unfold is_error. intros H. apply bool_decide_eq_true in H.
  apply list_elem_of_In in H. simpl in H.
  destruct H as [<-|[<-|[]]]; reflexivity.
Qed.

Lemma in_error_records (r : LogRecord) (rs : list LogRecord) :
  In r rs -> is_error r = true ->
  0 < length (error_records (List.filter (fun r => Nat.leb INFO (levelno r)) rs)).
Proof.
  intros Hin He.
  assert (In r (error_records (List.filter (fun r => Nat.leb INFO (levelno r)) rs))) as H.
  { unfold error_records. apply filter_In. split; [|exact He].
    apply filter_In. split; [exact Hin | apply error_passes_level, He]. }
  destruct (error_records _); [destruct H | simpl; lia].
Qed.

(** C9. After [teardown] the status of the stored [CommandLog] is
    [COMPLETED] exactly when none of the records that went through [emit]
    was at level [ERROR] or [CRITICAL]. In particular, when the wrapped
    command returns without raising but one of the records it logged is
    at level [ERROR], [handle] returns and the stored status is
    [FAILED]. *)
Theorem teardown_completed_iff_no_errors :
  (forall (c : CommandLog) (rs : list LogRecord) (now : nat),
      status (stored (teardown now (emit_all rs (new_handler c)))) = COMPLETED
      <-> error_records rs = [])
  /\ (forall (w : world) (cmd : list string) (r : LogRecord),
        ends (wrapped_run w cmd) = Returns ->
        In r (emitted (wrapped_run w cmd)) ->
        levelno r = ERROR ->
        fst (handle w cmd) = Returns
        /\ status (stored (snd (handle w cmd))) = FAILED).
Proof.
  split.
  - intros c rs now. rewrite status_teardown, errors_emit_all. simpl.
    destruct (error_records rs) as [|x l]; simpl.
    + split; reflexivity.
    + replace (Nat.ltb 0 (S (length l))) with true by reflexivity.
      split; discriminate.
  - intros w cmd r Hret Hin Hlvl.
    unfold handle. destruct (parse_options cmd) as [c o]. rewrite Hret. cbn [fst snd].
    split; [reflexivity|].
    rewrite status_teardown, errors_handle_records.
    change (errors (new_handler _)) with 0. rewrite Nat.add_0_l.
    assert (is_error r = true) as He.
    { unfold is_error. rewrite Hlvl. reflexivity. }
    pose proof (in_error_records r _ Hin He) as Hpos.
    destruct (Nat.ltb_spec 0 (length (error_records
               (List.filter (fun r => Nat.leb INFO (levelno r)) (emitted (wrapped_run w cmd))))));
      [reflexivity | lia].
Qed.


End LogCommandFacts.

(** ** The properties on concrete runs *)

Section ConcreteRuns.
Import Runs.

(** C1, as the specification words it, fails: the run below finds, on the
    index page, one archive with one row, of company 00000002. At the end
    of the deleting loop of [handle] the previous name and the SIC code of
    company 00000001, which the run did not see, are deleted, but the
    company itself is still in its table, with [in_latest_update]
    [False]. *)
Lemma unseen_company_not_deleted :
  option_map (objects Company)
             (db_of (import_and_prune one_archive plain
                       (log_event Begin (set_debug false (init_state old_db)))))
  = Some [ [ ("CompanyNumber", VStr "00000001"); ("CompanyName", VStr "GONE LTD");
             ("in_latest_update", VBool false) ];
           [ ("CompanyName", VStr "ACME LTD"); ("CompanyNumber", VStr "00000002");
             ("IncorporationDate", VDateTime (mkDate 2001 3 12));
             ("CompanyCategory", VNone); ("CompanyStatus", VNone);
             ("Accounts_AccountCategory", VNone); ("last_updated", VNow);
             ("in_latest_update", VBool true) ] ]
  /\ option_map (fun d => map (fun r => getattr r "CompanyName") (objects PreviousName d))
                (db_of (import_and_prune one_archive plain
                          (log_event Begin (set_debug false (init_state old_db)))))
     = Some [VStr "OLD ACME LTD"]
  /\ option_map (fun d => map (fun r => getattr r "company") (objects CompanySICCode d))
                (db_of (import_and_prune one_archive plain
                          (log_event Begin (set_debug false (init_state old_db)))))
     = Some [VObj Company (VStr "00000002")].
Proof. vm_compute. repeat split. Qed.

(** C1 on that run: what the run has seen is stored and flagged, what is
    left of the previous names and SIC codes has been seen, and company
    00000001, which the run has not seen, is still there, unflagged. *)
Lemma stale_rows_pruned_witness :
  exists st',
    import_and_prune one_archive plain
      (log_event Begin (set_debug false (init_state old_db))) = Ok st'
    /\ (forall m r, In (m, r) (added st') ->
                    present m (unique_key m r) (objects m (db st')))
    /\ (forall m row, m = CompanySICCode \/ m = PreviousName ->
                      In row (objects m (db st')) ->
                      in_latest_update row = VBool true /\ seen m row st')
    /\ In (dict_set "in_latest_update" (VBool false) old_company)
          (objects Company (db st')).
Proof.
  destruct (stale_rows_pruned_companies_kept one_archive plain old_db
              (final_state (handle one_archive plain (init_state old_db)) (init_state old_db)))
    as (st' & ws & H1 & _ & _ & _ & H2 & H3 & _ & H5 & _).
  - vm_compute. reflexivity.
  - exists st'. split; [exact H1 | split; [exact H2 | split; [exact H3|]]].
    apply H5; [vm_compute; left; reflexivity|].
    vm_compute in H1. injection H1 as <-.
    intros (r & Hin & Hk). vm_compute in Hin.
    destruct Hin as [Hin|[Hin|[Hin|[]]]]; try discriminate Hin.
    injection Hin as <-. vm_compute in Hk. discriminate Hk.
Defined.

(** C2, as the specification words it, fails on the columns of the
    previous names: a date of change of name that is no date makes
    [parse_row] raise [ValueError], while the same row with its
    incorporation date malformed instead is parsed. *)
Lemma malformed_condate_raises :
  parse_row no_lookups bad_condate_row (init_state empty_db) = Raise ValueError
  /\ is_ok (parse_row no_lookups bad_date_row (init_state empty_db)) = true.
Proof. vm_compute. split; reflexivity. Qed.

(** C2 on a row whose incorporation date is no date. *)
Lemma date_field_failures_witness :
  dict_get "IncorporationDate" (clean_fields (clean_keys bad_date_row)) = Some VNone.
Proof.
  apply (proj1 date_field_failures_are_emptied (clean_keys bad_date_row)
               "IncorporationDate" "2001-03-12").
  - vm_compute. reflexivity.
  - vm_compute. auto.
  - vm_compute. reflexivity.
Defined.

(** C3, as the specification words it, fails: an archive that answers
    with status 404, and an archive whose connection fails, each end
    [fetch_file] by the exception, which nothing catches. *)
Lemma http_error_leaves_fetch_file :
  fetch_file missing_archive (init_state empty_db) = Raise HTTPError
  /\ fetch_file refused_archive (init_state empty_db) = Raise ConnectionError.
Proof. vm_compute. split; reflexivity. Qed.

(** C3 on an index page of two archives, the first of which fails by a
    chunked-encoding error, and on an archive that answers 404. *)
Lemma fetch_file_witness :
  (exists st',
      fetch_file chunked_archive (init_state empty_db) = Ok st'
      /\ dict_keys (files st') = [zip_link2]
      /\ In (ErrorFetching zip_link) (stdout st'))
  /\ (exists e, fetch_file missing_archive (init_state empty_db) = Raise e
                /\ e <> ChunkedEncodingError).
Proof.
  split.
  - destruct (proj1 (fetch_file_catches_chunked_only chunked_archive (init_state empty_db)
                       (index_page [zip_link; other_link; zip_link2]) eq_refl eq_refl))
      as (st' & H1 & H2 & _ & H3).
    + intros link [<-|[<-|[<-|[]]]] Hm.
      * left. reflexivity.
      * vm_compute in Hm. discriminate Hm.
      * right. exists (zip_of [acme_row]). split; reflexivity.
    + exists st'. split; [exact H1|]. split.
      * rewrite H2. vm_compute. reflexivity.
      * apply (H3 zip_link); [left; reflexivity | vm_compute; reflexivity | reflexivity].
  - apply (proj2 (fetch_file_catches_chunked_only missing_archive (init_state empty_db)
                    (index_page [zip_link; other_link]) eq_refl eq_refl) zip_link).
    + left. reflexivity.
    + vm_compute. reflexivity.
    + intros [H|(r & H1 & H2)].
      * vm_compute in H. discriminate H.
      * vm_compute in H1. injection H1 as <-. vm_compute in H2. discriminate H2.
Defined.

(** C6 on a run that fails after it has written: the first row of the
    archive is parsed, the second raises; the database is the one the run
    began with, although the run had set every flag to [False] before.
    On a run that returns: its journal is one transaction. And on a run
    whose SQL statement fails after the import: the database is the one
    the run began with. *)
Lemma handle_is_atomic_witness :
  handle bad_archive plain (init_state old_db) = Failed ValueError old_db
  /\ old_db = db (init_state old_db)
  /\ mark_stale old_db <> old_db
  /\ (exists ws,
        journal (final_state (handle one_archive plain (init_state old_db))
                             (init_state old_db))
        = Begin :: map Write (mark_stale old_db :: ws) ++ [Commit])
  /\ handle MoreRuns.failing_sql plain (init_state old_db)
     = Failed (OtherException "ProgrammingError") old_db.
Proof.
  split; [vm_compute; reflexivity|]. split; [|split; [|split]].
  - apply (proj1 (handle_is_atomic bad_archive plain (init_state old_db)) ValueError old_db).
    vm_compute. reflexivity.
  - vm_compute. discriminate.
  - destruct (proj1 (proj2 (handle_is_atomic one_archive plain (init_state old_db)))
                (final_state (handle one_archive plain (init_state old_db))
                             (init_state old_db)))
      as (ws & Hj & _).
    + vm_compute. reflexivity.
    + exists ws. exact Hj.
  - apply (proj2 (proj2 (handle_is_atomic MoreRuns.failing_sql plain (init_state old_db)))
             (MoreRuns.reached
                (import_and_prune MoreRuns.failing_sql plain
                   (log_event Begin (set_debug false (init_state old_db))))
                (init_state old_db))
             (OtherException "ProgrammingError")).
    + vm_compute. reflexivity.
    + vm_compute. reflexivity.
Defined.

(** C7 on two records of one company number. *)
Lemma add_record_deduplicates_witness :
  batch Company (add_record Company acme_second
                   (add_record Company acme_first (init_state empty_db)))
  = dict_set (unique_key Company acme_second) acme_second
             (batch Company (init_state empty_db))
  /\ dict_get (unique_key Company acme_first)
              (batch Company (add_record Company acme_second
                                (add_record Company acme_first (init_state empty_db))))
     = Some acme_second.
Proof.
  apply (proj2 add_record_deduplicates (init_state empty_db) Company acme_first acme_second).
  - reflexivity.
  - apply Nat.ltb_lt. vm_compute. reflexivity.
Defined.

Lemma nth_calls_of (m : model) (i : nat) :
  map (fun c => unique_key m (snd c)) (calls_of m (nth_calls i))
  = match m with
    | Company => [[VStr (pretty i)]]
    | PreviousName =>
        [ [VObj Company (VStr (pretty i)); VStr "FIRST NAME LTD"];
          [VObj Company (VStr (pretty i)); VStr "SECOND NAME LTD"] ]
    | CompanySICCode | SICCode => []
    end.
Proof. destruct m; reflexivity. Qed.

Lemma nth_calls_keys (m : model) (l : list nat) :
  NoDup l ->
  NoDup (map (fun c => unique_key m (snd c)) (calls_of m (flat_map nth_calls l))).
Proof.
  assert (forall i j k,
            In k (map (fun c => unique_key m (snd c)) (calls_of m (nth_calls i))) ->
            In k (map (fun c => unique_key m (snd c)) (calls_of m (nth_calls j))) ->
            i = j) as Hinj.
  { intros i j k. rewrite !nth_calls_of. intros Hi Hj.
    destruct m; cbn [In] in Hi, Hj;
      repeat match goal with
             | H : _ \/ _ |- _ => destruct H
             | H : False |- _ => destruct H
             end; subst; try discriminate;
      match goal with
      | H : _ = _ |- _ =>
          injection H as H;
          first [exact (pretty_nat_inj _ _ H) | symmetry; exact (pretty_nat_inj _ _ H)]
      end. }
  induction l as [|i l IH]; intros Hnd; [apply NoDup_nil_2|].
  apply NoDup_cons in Hnd as [Hi Hnd].
  cbn [flat_map]. unfold calls_of in *. rewrite List.filter_app, map_app.
  apply NoDup_app. split; [|split; [|exact (IH Hnd)]].
  - change (List.filter _ (nth_calls i)) with (calls_of m (nth_calls i)).
    rewrite nth_calls_of.
    destruct m;
      repeat (apply NoDup_cons; split;
              [rewrite list_elem_of_In; cbn [In]; intuition discriminate|]);
      apply NoDup_nil_2.
  - intros k Hk Hk'. apply list_elem_of_In in Hk, Hk'.
    apply in_map_iff in Hk' as (c & Hc & Hin). apply filter_In in Hin as [Hin Hm].
    apply in_flat_map in Hin as (j & Hj & Hin).
    assert (i = j) as ->.
    { apply (Hinj i j k); [exact Hk|]. apply in_map_iff. exists c. split; [exact Hc|].
      apply filter_In. split; assumption. }
    apply Hi, list_elem_of_In, Hj.
Qed.

Lemma nth_calls_count (l : list nat) :
  length (calls_of Company (flat_map nth_calls l)) = length l
  /\ length (calls_of PreviousName (flat_map nth_calls l)) = 2 * length l.
Proof.
  induction l as [|i l [IH1 IH2]]; [split; reflexivity|].
  cbn [flat_map]. unfold calls_of in *. rewrite !List.filter_app, !length_app, IH1, IH2.
  change (List.filter (fun c => bool_decide (fst c = Company)) (nth_calls i))
    with [(Company, nth_company i)].
  change (List.filter (fun c => bool_decide (fst c = PreviousName)) (nth_calls i))
    with [(PreviousName, nth_name i "FIRST NAME LTD");
          (PreviousName, nth_name i "SECOND NAME LTD")].
  cbn [length]. split; lia.
Qed.

(** C5, as the specification words it, fails for the batches other than
    that of [Company]: after the records of 5000 companies with two
    previous names each, in the order in which [parse_row] adds them,
    nothing has been saved and the batch of [PreviousName] holds
    [bulk_limit] records. *)
Lemma previous_name_batch_reaches_limit :
  dict_len (batch PreviousName
              (add_records (companies_with_names 5000) (init_state empty_db)))
  = bulk_limit
  /\ written (add_records (companies_with_names 5000) (init_state empty_db)) = [].
Proof.
  unfold companies_with_names.
  destruct (nth_calls_count (seq 0 5000)) as [Hc Hp]. rewrite length_seq in Hc, Hp.
  destruct (add_records_below_limit (flat_map nth_calls (seq 0 5000))
              (init_state empty_db)) as [Hb Hw].
  { rewrite Hc. apply Nat.ltb_lt. vm_compute. reflexivity. }
  split; [|exact Hw].
  rewrite Hb, inserted_len.
  - rewrite Hp. apply Nat.eqb_eq. vm_compute. reflexivity.
  - apply nth_calls_keys, NoDup_seq.
  - intros c _ [].
Qed.


End ConcreteRuns.

Section ConcreteLogRuns.
Import LogCommand LogRuns.


(** C9 on a wrapped command that logs an error and returns. *)
Lemma teardown_failed_witness :
  fst (handle logs_error ["import_companies"; "--debug"]) = Returns
  /\ status (stored (snd (handle logs_error ["import_companies"; "--debug"]))) = FAILED.
Proof.
  apply (proj2 teardown_completed_iff_no_errors logs_error
               ["import_companies"; "--debug"] error_record).
  - vm_compute. reflexivity.
  - vm_compute. auto.
  - reflexivity.
Defined.

End ConcreteLogRuns.

(** * Further properties *)

(** ** add_record, save_records, save_all_records *)

(** X1. While the batch of [Company] stays below [bulk_limit],
    [add_record] only buffers: the database is untouched, [bulk_create]
    is not called, the record is in the batch of its model under its
    unique key, and the batches of the other models are as they were. *)
Theorem add_record_only_buffers (m : model) (r : instance) (st : state) :
  dict_len (batch Company (insert_record m r st)) < bulk_limit ->
  db (add_record m r st) = db st
  /\ written (add_record m r st) = written st
  /\ dict_get (unique_key m r) (batch m (add_record m r st)) = Some r
  /\ (forall m', m' <> m -> batch m' (add_record m r st) = batch m' st).
Proof.
  intros Hlt.
  assert (forall m', batch m' (insert_record m r (trace_added m r st))
                     = batch m' (insert_record m r st)) as Htr.
  { intros m'. rewrite !batch_insert_record. reflexivity. }
  destruct (add_record_cases m r st) as [(_ & Hb & Hd & Hw)|(Hle & _)];
    [|rewrite Htr in Hle; lia].
  split; [exact Hd|]. split; [exact Hw|]. split.
  - rewrite Hb, Htr, batch_insert_record.
    destruct (decide (m = m)); [apply dict_get_set_eq | contradiction].
  - intros m' Hne. rewrite Hb, Htr, batch_insert_record.
    destruct (decide (m = m')); [congruence | reflexivity].
Qed.

Lemma count_of_save_records (m m' : model) (st : state) :
  count_of m' (save_records m st)
  = if decide (m = m') then count_of m st + dict_len (batch m st) else count_of m' st.
Proof.
  unfold save_records, count_of, batch.
  pose proof (dd_get_fst [] m (records st)) as Hf.
  destruct (dd_get [] m (records st)) as [b recs]. cbn [fst] in Hf. subst b.
  cbn [set_records write trace_written set_db records db object_count].
  pose proof (dd_get_fst 0 m (object_count st)) as Hn.
  pose proof (dd_get_snd 0 m m' (object_count st)) as Hs.
  destruct (dd_get 0 m (object_count st)) as [n oc]. cbn [fst snd] in Hn, Hs. subst n.
  cbn [object_count set_object_count write set_records].
  destruct (decide (m = m')) as [<-|Hne].
  - rewrite dict_get_set_eq. reflexivity.
  - rewrite dict_get_set_ne by exact Hne. exact Hs.
Qed.

Lemma written_count_app (m : model) (w1 w2 : list (model * list instance)) :
  written_count m (w1 ++ w2) = written_count m w1 + written_count m w2.
Proof.
  induction w1 as [|[m' rs] w1 IH]; cbn [app written_count]; [reflexivity|].
  rewrite IH. lia.
Qed.

Lemma counts_agree_save_records (m : model) (st : state) :
  counts_agree st -> counts_agree (save_records m st).
Proof.
  intros H m'. rewrite count_of_save_records.
  destruct (save_records_effect m st) as [-> _].
  rewrite written_count_app. cbn [written_count]. rewrite <- (H m'), Nat.add_0_r.
  destruct (decide (m = m')) as [<-|Hne].
  - unfold dict_values, dict_len. rewrite length_map. reflexivity.
  - lia.
Qed.

Lemma counts_agree_save_items (items : list (model * dict (list value) instance)) :
  forall st, counts_agree st -> counts_agree (save_items items st).
Proof.
  induction items as [|[m b] items IH]; intros st H; [exact H|].
  unfold save_items in *. cbn [fold_left fst snd].
  destruct (Nat.ltb 0 (dict_len b)); [|exact (IH _ H)].
  apply IH, counts_agree_save_records, H.
Qed.

Lemma count_of_insert_record (m m' : model) (r : instance) (st : state) :
  count_of m' (insert_record m r (trace_added m r st)) = count_of m' st.
Proof.
  unfold insert_record. destruct (dd_get [] m _) as [b recs]. reflexivity.
Qed.

Lemma counts_agree_add_record (m : model) (r : instance) (st : state) :
  counts_agree st -> counts_agree (add_record m r st).
Proof.
  intros H. unfold add_record.
  set (st1 := insert_record m r (trace_added m r st)).
  assert (counts_agree st1) as H1.
  { intros m'. unfold st1. rewrite count_of_insert_record.
    destruct (insert_record_frame m r (trace_added m r st)) as (_ & -> & _). apply H. }
  destruct (dd_get [] Company (records st1)) as [bc recs].
  assert (counts_agree (set_records recs st1)) as H2 by exact H1.
  destruct (Nat.leb bulk_limit (dict_len bc)); [|exact H2].
  apply (counts_agree_save_items (records (set_records recs st1))). exact H2.
Qed.

(** X2. Whatever the sequence of calls of [add_record] on a new command,
    [self.object_count[m]] is the number of records of [m] that were
    given to [bulk_create]. *)
Theorem object_count_counts_written (d : database) (calls : list (model * instance))
  (m : model) :
  count_of m (add_records calls (init_state d))
  = written_count m (written (add_records calls (init_state d))).
Proof.
  assert (forall st, counts_agree st -> counts_agree (add_records calls st)) as H.
  { induction calls as [|[m0 r] calls IH]; intros st Hst; [exact Hst|].
    unfold add_records in *. cbn [fold_left fst snd].
    apply IH, counts_agree_add_record, Hst. }
  apply H. intros m'. reflexivity.
Qed.

Lemma save_items_nothing (items : list (model * dict (list value) instance)) (st : state) :
  (forall item, In item items -> snd item = []) -> save_items items st = st.
Proof.
  induction items as [|[m b] items IH]; intros H; [reflexivity|].
  unfold save_items in *. cbn [fold_left fst snd].
  pose proof (H (m, b) (or_introl eq_refl)) as Hb. cbn [snd] in Hb. subst b.
  cbn [dict_len length Nat.ltb Nat.leb].
  apply IH. intros item Hin. apply H. right; exact Hin.
Qed.

Lemma dd_get_keys {V : Type} (dflt : V) (m : model) (d : dict model V) :
  NoDup (dict_keys d) -> NoDup (dict_keys (snd (dd_get dflt m d))).
Proof.
  intros Hnd. unfold dd_get. destruct (dict_get m d); cbn [snd];
    [exact Hnd | apply NoDup_dict_set, Hnd].
Qed.

Lemma records_keys_save_records (m : model) (st : state) :
  NoDup (dict_keys (records st)) -> NoDup (dict_keys (records (save_records m st))).
Proof.
  intros Hnd. unfold save_records.
  pose proof (dd_get_keys [] m (records st) Hnd) as Hnd'.
  destruct (dd_get [] m (records st)) as [b recs]. cbn [snd] in Hnd'.
  cbn [set_records write trace_written set_db records db object_count].
  destruct (dd_get 0 m (object_count st)) as [n oc].
  cbn [records set_records set_object_count write].
  apply NoDup_dict_set, Hnd'.
Qed.

Lemma records_keys_save_items (items : list (model * dict (list value) instance)) :
  forall st, NoDup (dict_keys (records st)) ->
             NoDup (dict_keys (records (save_items items st))).
Proof.
  induction items as [|[m b] items IH]; intros st H; [exact H|].
  unfold save_items in *. cbn [fold_left fst snd].
  destruct (Nat.ltb 0 (dict_len b)); [|exact (IH _ H)].
  apply IH, records_keys_save_records, H.
Qed.

(** X3. [save_all_records] on a command whose [self.records] is a [dict]
    (no key twice) leaves nothing to save: a second call right after it
    changes nothing, neither the database nor the counts nor the output. *)
Theorem save_all_records_twice (st : state) :
  NoDup (dict_keys (records st)) ->
  save_all_records (save_all_records st) = save_all_records st.
Proof.
  intros Hnd.
  set (st1 := save_all_records st).
  assert (NoDup (dict_keys (records st1))) as Hnd1.
  { apply (records_keys_save_items (records st)). exact Hnd. }
  change (save_all_records st1) with (save_items (records st1) st1).
  apply save_items_nothing. intros [m b] Hin. cbn [snd].
  pose proof (save_all_records_empties m st) as He. fold st1 in He.
  unfold batch in He. rewrite (In_dict_get m b _ Hnd1 Hin) in He. exact He.
Qed.

(** When [parse_file] returns on an archive with at least one file, it
    leaves no record in any batch; on an archive without a file it leaves
    the batches and the database as they were. *)
Lemma parse_file_empties_batches
  (w : world) (resp : response) (url : string) (st st' : state) :
  parse_file w resp url st = Ok st' ->
  (forall members, content resp = Some members -> members <> [] -> all_empty st')
  /\ (content resp = Some [] -> records st' = records st /\ db st' = db st).
Proof.
  unfold parse_file. destruct (content resp) as [members|]; [|discriminate].
  intros Hrun. split.
  - intros ms [= <-] Hne. destruct members as [|f members]; [contradiction|].
    cbn [for_each] in Hrun.
    destruct (for_each (parse_row (api w)) _ _) as [s1|e]; cbn [bind] in Hrun; [|discriminate].
    apply (for_each_invariant _ all_empty _) in Hrun; [exact Hrun | |].
    + intros f' s s' _ _.
      destruct (for_each (parse_row (api w)) _ _) as [s2|e]; cbn [bind]; [|discriminate].
      intros [= <-] m. apply save_all_records_empties.
    + intros m. apply save_all_records_empties.
  - intros [= ->]. cbn [for_each] in Hrun. injection Hrun as <-. split; reflexivity.
Qed.

(** ** parse_file with [--debug] *)

Lemma parse_column_debug (kv : string * value) (a a' : row_acc) :
  parse_column kv a = Ok a' ->
  debug (acc_state a') = debug (acc_state a)
  /\ records (acc_state a') = records (acc_state a).
Proof.
  destruct kv as [k v]. unfold parse_column.
  destruct (PyStr.startswith "PreviousName_" k).
  - unfold parse_previous_name.
    destruct (truthy v); [|intros [= <-]; auto].
    destruct (index (PyStr.split_char "_" k) 1) as [pn1|]; cbn [bind]; [|discriminate].
    destruct (index (PyStr.split_char "_" k) 2) as [pn2|]; cbn [bind]; [|discriminate].
    destruct (bool_decide (pn2 = "CONDATE")).
    + destruct (as_str v TypeError) as [s|]; cbn [bind]; [|discriminate].
      destruct (Strptime.strptime s); [|discriminate].
      intros [= <-]. auto.
    + intros [= <-]. auto.
  - destruct (PyStr.startswith "SICCode_" k); [|intros [= <-]; auto].
    unfold parse_sic_code.
    destruct (truthy v); [|intros [= <-]; auto].
    destruct (as_str v AttributeError) as [s|]; cbn [bind]; [|discriminate].
    destruct (negb _); [|intros [= <-]; auto].
    destruct (map PyStr.strip (PyStr.split1 " - " s)) as [|c [|t [|? ?]]]; try discriminate.
    intros [= <-]. cbn [acc_state].
    destruct (dict_mem c (sic_code_cache (acc_state a))); [auto|].
    unfold update_or_create. cbv beta iota zeta. split; reflexivity.
Qed.

Lemma parse_row_debug (api : ch_api) (r : row) (st st' : state) :
  parse_row api r st = Ok st' -> debug st' = debug st.
Proof.
  unfold parse_row.
  destruct (for_each parse_column _ (mkAcc [] [] [] st)) as [a|e] eqn:Hloop;
    cbn [bind]; [|discriminate].
  assert (debug (acc_state a) = debug st) as Ha.
  { apply (for_each_invariant parse_column (fun a => debug (acc_state a) = debug st) _)
      in Hloop; [exact Hloop | | reflexivity].
    intros kv a0 a1 _ H0 Hstep. apply parse_column_debug in Hstep as [-> _]. exact H0. }
  destruct (company_kwargs _ (record a)) as [company|e]; cbn [bind]; [|discriminate].
  destruct (for_each _ (dict_values (previous_names a)) _) as [st1|e] eqn:Hpn;
    cbn [bind]; [|discriminate].
  intros [= <-].
  apply fold_left_invariant.
  - intros s sic _ Hs.
    match goal with |- context [add_record ?m ?r s] =>
      destruct (add_record_frame m r s) as (_ & _ & -> & _) end. exact Hs.
  - apply (for_each_invariant _ (fun s => debug s = debug st) _) in Hpn; [exact Hpn | |].
    + intros n s s' _ Hs.
      destruct (subscript "CompanyName" n) as [name|]; cbn [bind]; [|discriminate].
      destruct (subscript "CONDATE" n) as [condate|]; cbn [bind]; [|discriminate].
      intros [= <-].
      match goal with |- context [add_record ?m ?r s] =>
        destruct (add_record_frame m r s) as (_ & _ & -> & _) end. exact Hs.
    + destruct (add_record_frame Company company (acc_state a)) as (_ & _ & -> & _).
      exact Ha.
Qed.

Lemma parse_rows_debug (api : ch_api) (rows : list row) (st st' : state) :
  for_each (parse_row api) rows st = Ok st' -> debug st' = debug st.
Proof.
  intros H.
  apply (for_each_invariant _ (fun s => debug s = debug st) _) in H; [exact H | | reflexivity].
  intros r s s' _ Hs Hstep. rewrite (parse_row_debug _ _ _ _ Hstep). exact Hs.
Qed.

(** With [--debug], [parse_file] does on an archive what it does on the
    archive whose files are cut to their first 101 rows. *)
Lemma debug_cuts_files (w : world) (resp : response) (url : string) (st : state) :
  debug st = true ->
  parse_file w resp url st = parse_file w (first_rows 101 resp) url st.
Proof.
  intros Hd. unfold parse_file, first_rows. cbn [content].
  destruct (content resp) as [members|]; [|reflexivity]. cbn [option_map].
  assert (debug (write (Opening url) st) = true) as Hd' by exact Hd.
  revert Hd'. generalize (write (Opening url) st) as s.
  induction members as [|f members IH]; intros s Hs; [reflexivity|].
  cbn [map for_each filename csv_rows].
  assert (debug (write (Opening (filename f)) s) = true) as Hs' by exact Hs.
  rewrite Hs'. unfold rows_read.
  rewrite firstn_firstn, Nat.min_id.
  destruct (for_each (parse_row (api w)) (firstn 101 (csv_rows f)) _) as [s1|e] eqn:Hrows;
    cbn [bind]; [|reflexivity].
  apply IH.
  destruct (save_all_records_frame s1) as (_ & _ & -> & _).
  rewrite (parse_rows_debug _ _ _ _ Hrows). exact Hs'.
Qed.

(** ** A run that finds no archive *)

Ltac decide_models :=
  repeat match goal with
  | |- context [decide (?a = ?b)] =>
      destruct (decide (a = b)) as [?|?]; try discriminate; try contradiction
  end.

Lemma fetched_nothing (w : world) (c : bool) (links : list string) (d : dict string response) :
  (forall link, In link links -> zip_regex_match link = true ->
                session_get w c link = Raise ChunkedEncodingError) ->
  fetched w c links d = d.
Proof.
  revert d. induction links as [|l links IH]; intros d H; [reflexivity|].
  unfold fetched. cbn [fold_left].
  destruct (zip_regex_match l) eqn:Hz.
  - rewrite (H l (or_introl eq_refl) Hz).
    apply IH. intros; apply H; [right|]; assumption.
  - apply IH. intros; apply H; [right|]; assumption.
Qed.

Lemma delete_unflagged_unflag (t : table) : delete_unflagged (update_unflag t) = [].
Proof.
  induction t as [|r t IH]; [reflexivity|].
  unfold delete_unflagged, filter_flagged, update_unflag in *. cbn [map List.filter].
  unfold is_flagged at 1, in_latest_update. rewrite getattr_set_eq.
  rewrite bool_decide_eq_false_2 by discriminate. exact IH.
Qed.

Lemma set_session_effect (c : bool) (st : state) :
  session (set_session c st) = c
  /\ db (set_session c st) = db st
  /\ files (set_session c st) = files st.
Proof. destruct c; repeat split; reflexivity. Qed.

(** X6. A run that gets no archive, because the index page holds no link
    that matches [zip_regex] or because every fetch of such a link ends in
    a chunked-encoding error, does not stop: [handle] goes on to the
    deleting loop, which empties the tables of [PreviousName] and of
    [CompanySICCode]; every company is left unflagged and the SIC codes
    are as they were. *)
Theorem no_archive_deletes_all_names_and_codes
  (w : world) (o : options) (st : state) (page : response) :
  session_get w (opt_cache o) start_url = Ok page ->
  raise_for_status page = Ok tt ->
  (forall link, In link (absolute_links page) -> zip_regex_match link = true ->
                session_get w (opt_cache o) link = Raise ChunkedEncodingError) ->
  exists st',
    import_and_prune w o st = Ok st'
    /\ objects PreviousName (db st') = []
    /\ objects CompanySICCode (db st') = []
    /\ objects Company (db st') = update_unflag (objects Company (db st))
    /\ objects SICCode (db st') = objects SICCode (db st)
    /\ added st' = added st.
Proof.
  intros Hpage Hstatus Hlinks.
  unfold import_and_prune.
  set (st0 := set_session (opt_cache o) (set_db (mark_stale (db st)) st)).
  assert (session st0 = opt_cache o) as Hs by apply set_session_effect.
  assert (db st0 = mark_stale (db st)) as Hdb by apply set_session_effect.
  assert (added st0 = added st) as Hadd by (unfold st0; destruct (opt_cache o); reflexivity).
  unfold fetch_file.
  change (session (set_files [] st0)) with (session st0). rewrite Hs, Hpage.
  cbn [bind]. rewrite Hstatus. cbn [bind].
  destruct (fetch_links_pass w (absolute_links page) (set_files [] st0))
    as (st1 & Hrun & Hfiles & Hdb1 & _).
  { intros link Hin Hz. left.
    change (session (set_files [] st0)) with (session st0). rewrite Hs.
    apply Hlinks; assumption. }
  rewrite Hrun. cbn [bind].
  change (session (set_files [] st0)) with (session st0) in Hfiles.
  rewrite Hs in Hfiles. rewrite fetched_nothing in Hfiles by exact Hlinks.
  change (files (set_files [] st0)) with (@nil (string * response)) in Hfiles.
  rewrite Hfiles. cbn [for_each bind fold_left].
  eexists. split; [reflexivity|].
  assert (db st1 = mark_stale (db st)) as Hdb1'.
  { rewrite Hdb1. exact Hdb. }
  assert (added st1 = added st) as Hadd1.
  { apply (for_each_invariant _ (fun s => added s = added st) _) in Hrun; [exact Hrun | |].
    - intros a s s' _ Hs0 Hstep. apply fetch_link_view in Hstep as (_ & -> & _). exact Hs0.
    - exact Hadd. }
  destruct (prune_effect PreviousName (prune CompanySICCode st1)) as [Ha2 Ho2].
  destruct (prune_effect CompanySICCode st1) as [Ha1 Ho1].
  split; [|split; [|split; [|split]]].
  - rewrite Ho2. decide_models. rewrite Ho1. decide_models.
    rewrite Hdb1', mark_stale_objects. decide_models. apply delete_unflagged_unflag.
  - rewrite Ho2. decide_models. rewrite Ho1. decide_models.
    rewrite Hdb1', mark_stale_objects. decide_models. apply delete_unflagged_unflag.
  - rewrite Ho2. decide_models. rewrite Ho1. decide_models.
    rewrite Hdb1', mark_stale_objects. decide_models. reflexivity.
  - rewrite Ho2. decide_models. rewrite Ho1. decide_models.
    rewrite Hdb1', mark_stale_objects. decide_models. reflexivity.
  - rewrite Ha2, Ha1. exact Hadd1.
Qed.

(** ** What parse_row makes of a row *)

Lemma dict_set_fresh {K V : Type} `{EqDecision K} (k : K) (v : V) (d : dict K V) :
  ~ In k (dict_keys d) -> dict_set k v d = d ++ [(k, v)].
Proof.
  induction d as [|[k' v'] d IH]; intros Hk; [reflexivity|].
  cbn [dict_set]. destruct (decide (k' = k)) as [->|Hne].
  - exfalso. apply Hk. left. reflexivity.
  - cbn [app]. f_equal. apply IH. intros Hin. apply Hk. right. exact Hin.
Qed.

Lemma fold_dict_set_fresh {K V : Type} `{EqDecision K} (l : list (K * V)) :
  forall d : dict K V,
    NoDup (map fst l) ->
    (forall k, In k (map fst l) -> ~ In k (dict_keys d)) ->
    fold_left (fun d kv => dict_set (fst kv) (snd kv) d) l d = d ++ l.
Proof.
  induction l as [|[k v] l IH]; intros d Hnd Hfresh.
  - cbn. rewrite app_nil_r. reflexivity.
  - cbn [fold_left fst snd]. cbn [map fst] in Hnd, Hfresh.
    apply NoDup_cons in Hnd as [Hk Hnd]. rewrite list_elem_of_In in Hk.
    rewrite dict_set_fresh by (apply Hfresh; left; reflexivity).
    rewrite IH.
    + rewrite <- app_assoc. reflexivity.
    + exact Hnd.
    + intros k' Hk' Hin. unfold dict_keys in Hin. rewrite map_app, in_app_iff in Hin.
      destruct Hin as [Hin|[<-|[]]].
      * apply (Hfresh k'); [right; exact Hk' | exact Hin].
      * apply Hk. exact Hk'.
Qed.

Lemma NoDup_keys_filter {K V : Type} (p : K * V -> bool) (l : list (K * V)) :
  NoDup (map fst l) -> NoDup (map fst (List.filter p l)).
Proof.
  induction l as [|x l IH]; intros Hnd; [constructor|].
  cbn [map] in Hnd. apply NoDup_cons in Hnd as [Hx Hnd]. rewrite list_elem_of_In in Hx.
  cbn [List.filter]. destruct (p x).
  - cbn [map]. apply NoDup_cons. split; [|apply IH; exact Hnd].
    rewrite list_elem_of_In.
    intros Hin. apply Hx. apply in_map_iff in Hin as (y & Hy & Hin).
    apply List.filter_In in Hin as [Hin _]. apply in_map_iff. exists y. split; assumption.
  - apply IH. exact Hnd.
Qed.

Lemma NoDup_keys_clean_keys (r : row) : NoDup (dict_keys (clean_keys r)).
Proof.
  unfold clean_keys.
  apply fold_left_invariant; [|constructor].
  intros d kv _ Hd. apply NoDup_dict_set. exact Hd.
Qed.

Lemma NoDup_keys_cleaned (api : ch_api) (r : row) : NoDup (dict_keys (cleaned api r)).
Proof.
  unfold cleaned, clean_categories.
  apply fold_left_invariant.
  - intros d c _ Hd. apply NoDup_dict_set. exact Hd.
  - unfold clean_fields, dict_keys. rewrite map_map. cbn [fst].
    apply NoDup_keys_clean_keys.
Qed.

Lemma parse_column_frame (kv : string * value) (a a' : row_acc) :
  parse_column kv a = Ok a' ->
  record a' = (if is_company_column (fst kv)
               then dict_set (fst kv) (snd kv) (record a) else record a)
  /\ records (acc_state a') = records (acc_state a)
  /\ written (acc_state a') = written (acc_state a)
  /\ added (acc_state a') = added (acc_state a)
  /\ object_count (acc_state a') = object_count (acc_state a).
Proof.
  destruct kv as [k v]. unfold parse_column, is_company_column. cbn [fst snd].
  destruct (PyStr.startswith "PreviousName_" k); cbn [negb andb].
  - unfold parse_previous_name.
    destruct (truthy v); [|intros [= <-]; auto 6].
    destruct (index (PyStr.split_char "_" k) 1) as [pn1|]; cbn [bind]; [|discriminate].
    destruct (index (PyStr.split_char "_" k) 2) as [pn2|]; cbn [bind]; [|discriminate].
    destruct (bool_decide (pn2 = "CONDATE")).
    + destruct (as_str v TypeError) as [s|]; cbn [bind]; [|discriminate].
      destruct (Strptime.strptime s); [|discriminate].
      intros [= <-]. auto 6.
    + intros [= <-]. auto 6.
  - destruct (PyStr.startswith "SICCode_" k); cbn [negb]; [|intros [= <-]; auto 6].
    unfold parse_sic_code.
    destruct (truthy v); [|intros [= <-]; auto 6].
    destruct (as_str v AttributeError) as [s|]; cbn [bind]; [|discriminate].
    destruct (negb _); [|intros [= <-]; auto 6].
    destruct (map PyStr.strip (PyStr.split1 " - " s)) as [|c [|t [|? ?]]]; try discriminate.
    intros [= <-]. cbn [acc_state record].
    destruct (dict_mem c (sic_code_cache (acc_state a))); [auto 6|].
    unfold update_or_create. cbv beta iota zeta. auto 6.
Qed.

Lemma parse_columns_frame (l : list (string * value)) :
  forall a a',
    for_each parse_column l a = Ok a' ->
    record a'
    = fold_left (fun d kv => dict_set (fst kv) (snd kv) d) (company_columns l) (record a)
    /\ records (acc_state a') = records (acc_state a)
    /\ written (acc_state a') = written (acc_state a)
    /\ added (acc_state a') = added (acc_state a)
    /\ object_count (acc_state a') = object_count (acc_state a).
Proof.
  induction l as [|kv l IH]; intros a a' H.
  - injection H as <-. auto 6.
  - cbn [for_each] in H.
    destruct (parse_column kv a) as [a1|e] eqn:Hstep; cbn [bind] in H; [|discriminate].
    apply parse_column_frame in Hstep as (Hrec & Hrecs & Hw & Hadd & Hoc).
    apply IH in H as (Hrec' & Hrecs' & Hw' & Hadd' & Hoc').
    rewrite Hrecs', Hw', Hadd', Hoc', Hrec'. repeat split; try assumption.
    unfold company_columns. cbn [List.filter].
    destruct (is_company_column (fst kv)); cbn [fold_left]; rewrite Hrec; reflexivity.
Qed.

Lemma for_each_adds {A : Type} (m : model) (P : instance -> Prop)
  (body : A -> state -> result state) (l : list A) :
  (forall a s s', body a s = Ok s' -> exists r, s' = add_record m r s /\ P r) ->
  forall s s',
    for_each body l s = Ok s' ->
    exists rs, added s' = added s ++ map (pair m) rs
               /\ (forall r, In r rs -> P r) /\ length rs = length l.
Proof.
  intros Hbody. induction l as [|a l IH]; intros s s' H.
  - injection H as <-. exists []. rewrite app_nil_r. repeat split. intros r [].
  - cbn [for_each] in H.
    destruct (body a s) as [s1|e] eqn:Hstep; cbn [bind] in H; [|discriminate].
    apply Hbody in Hstep as (r & -> & Hr).
    apply IH in H as (rs & Hadd & Hrs & Hlen).
    exists (r :: rs). split; [|split].
    + rewrite Hadd. destruct (add_record_frame m r s) as (_ & -> & _).
      rewrite <- app_assoc. reflexivity.
    + intros r' [<-|Hin]; [exact Hr | apply Hrs; exact Hin].
    + cbn [length]. rewrite Hlen. reflexivity.
Qed.

Lemma fold_left_adds {A : Type} (m : model) (P : instance -> Prop)
  (mk : A -> instance) (l : list A) :
  (forall a, P (mk a)) ->
  forall s,
    added (fold_left (fun s a => add_record m (mk a) s) l s)
    = added s ++ map (pair m) (map mk l)
    /\ (forall r, In r (map mk l) -> P r).
Proof.
  intros Hmk. split.
  - revert s. induction l as [|a l IH]; intros s.
    + cbn. rewrite app_nil_r. reflexivity.
    + cbn [fold_left map]. rewrite IH.
      destruct (add_record_frame m (mk a) s) as (_ & -> & _).
      rewrite <- app_assoc. reflexivity.
  - intros r Hin. apply in_map_iff in Hin as (a & <- & _). apply Hmk.
Qed.

(** X7. What a call of [parse_row] that returns has passed to
    [add_record], in order: one [Company], which holds the columns of the
    cleaned row that belong to neither a previous name nor a SIC code
    (so no [PreviousName_] or [SICCode_] column becomes an attribute of the
    company), then [last_updated] and [in_latest_update = True]; then the
    [PreviousName] records; then the [CompanySICCode] records. Every record
    of the last two kinds points to that company and has
    [in_latest_update = True]. *)
Theorem parse_row_adds_company_then_names_then_codes
  (api : ch_api) (r : row) (st st' : state) :
  parse_row api r st = Ok st' ->
  exists names codes,
    added st'
    = added st ++ (Company, company_of_row api r)
        :: map (pair PreviousName) names ++ map (pair CompanySICCode) codes
    /\ (forall n, In n names ->
          company_of n = VObj Company (pk Company (company_of_row api r))
          /\ in_latest_update n = VBool true)
    /\ (forall c, In c codes ->
          company_of c = VObj Company (pk Company (company_of_row api r))
          /\ in_latest_update c = VBool true).
Proof.
  unfold parse_row. fold (cleaned api r).
  destruct (for_each parse_column (cleaned api r) (mkAcc [] [] [] st)) as [a|e] eqn:Hloop;
    cbn [bind]; [|discriminate].
  apply parse_columns_frame in Hloop as (Hrec & _ & _ & Hadd & _).
  cbn [record acc_state] in Hrec, Hadd.
  rewrite fold_dict_set_fresh in Hrec.
  2:{ apply NoDup_keys_filter. apply NoDup_keys_cleaned. }
  2:{ intros k _ []. }
  cbn [app] in Hrec.
  destruct (company_kwargs _ (record a)) as [company|e] eqn:Hkw; cbn [bind]; [|discriminate].
  assert (company = company_of_row api r) as ->.
  { unfold company_kwargs in Hkw. rewrite Hrec in Hkw.
    destruct (_ || _); [discriminate|]. cbv zeta in Hkw.
    destruct (forallb _ _); [|discriminate]. injection Hkw as <-. reflexivity. }
  set (self := VObj Company (pk Company (company_of_row api r))).
  destruct (for_each _ (dict_values (previous_names a)) _) as [st1|e] eqn:Hpn;
    cbn [bind]; [|discriminate].
  intros [= <-].
  apply (for_each_adds PreviousName
           (fun n => company_of n = self /\ in_latest_update n = VBool true)) in Hpn.
  2:{ intros n s s'.
      destruct (subscript "CompanyName" n) as [name|]; cbn [bind]; [|discriminate].
      destruct (subscript "CONDATE" n) as [condate|]; cbn [bind]; [|discriminate].
      intros [= <-]. eexists. split; [reflexivity|]. split; reflexivity. }
  destruct Hpn as (names & Hnames & Hprop & _).
  destruct (fold_left_adds CompanySICCode
              (fun c => company_of c = self /\ in_latest_update c = VBool true)
              (fun s => [("company", self); ("sic_code", VObj SICCode (pk SICCode s));
                         ("in_latest_update", VBool true)])
              (sic_codes a) (fun s => conj eq_refl eq_refl) st1) as [Hcodes Hcprop].
  exists names. eexists. split; [|split; [exact Hprop | exact Hcprop]].
  rewrite Hcodes, Hnames.
  destruct (add_record_frame Company (company_of_row api r) (acc_state a)) as (_ & -> & _).
  rewrite Hadd. rewrite <- !app_assoc. reflexivity.
Qed.

(** ** Companies are written before the records that point to them *)

Lemma companies_written_app (w1 w2 : list (model * list instance)) :
  companies_written (w1 ++ w2) = companies_written w1 ++ companies_written w2.
Proof. unfold companies_written. apply flat_map_app. Qed.

Lemma parents_first_app (w1 w2 : list (model * list instance)) :
  forall seen,
    parents_first seen (w1 ++ w2)
    <-> parents_first seen w1 /\ parents_first (seen ++ companies_written w1) w2.
Proof.
  induction w1 as [|c w1 IH]; intros seen.
  - cbn [app parents_first companies_written flat_map]. rewrite app_nil_r. tauto.
  - cbn [app parents_first]. rewrite IH.
    rewrite (companies_written_app [c] w1 : companies_written (c :: w1) = _), app_assoc.
    tauto.
Qed.

Lemma add_record_buffer (m : model) (r : instance) (st : state) :
  add_record m r st
  = if Nat.leb bulk_limit (dict_len (batch Company (buffer_record m r st)))
    then save_all_records (buffer_record m r st) else buffer_record m r st.
Proof.
  unfold add_record, buffer_record.
  set (st1 := insert_record m r (trace_added m r st)).
  pose proof (dd_get_fst [] Company (records st1)) as Hf.
  pose proof (dd_get_snd [] Company Company (records st1)) as Hs.
  destruct (dd_get [] Company (records st1)) as [bc recs]. cbn [fst snd] in *.
  assert (batch Company (set_records recs st1) = bc) as ->.
  { unfold batch. cbn [records set_records]. etransitivity; [exact Hs | symmetry; exact Hf]. }
  reflexivity.
Qed.

Lemma buffer_record_effect (m : model) (r : instance) (st : state) :
  (forall m', batch m' (buffer_record m r st)
              = if decide (m = m') then dict_set (unique_key m r) r (batch m st)
                else batch m' st)
  /\ written (buffer_record m r st) = written st
  /\ db (buffer_record m r st) = db st.
Proof.
  unfold buffer_record.
  set (st1 := insert_record m r (trace_added m r st)).
  split; [|split].
  - intros m'. rewrite <- batch_insert_record.
    assert (batch m' (insert_record m r st) = batch m' st1) as ->.
    { unfold st1. rewrite !batch_insert_record. reflexivity. }
    unfold batch. cbn [records set_records]. apply dd_get_snd.
  - destruct (insert_record_frame m r (trace_added m r st)) as (_ & H & _). exact H.
  - destruct (insert_record_frame m r (trace_added m r st)) as (H & _). exact H.
Qed.

Lemma first_key_dict_set {V : Type} (k k0 : model) (v : V) (d : dict model V) :
  first_key d = Some k0 -> first_key (dict_set k v d) = Some k0.
Proof.
  destruct d as [|[k1 v1] d]; [discriminate|]. cbn [first_key dict_set].
  destruct (decide (k1 = k)); intros H; exact H.
Qed.

Lemma first_key_dd_get {V : Type} (dflt : V) (m k0 : model) (d : dict model V) :
  first_key d = Some k0 -> first_key (snd (dd_get dflt m d)) = Some k0.
Proof.
  intros H. unfold dd_get. destruct (dict_get m d); cbn [snd];
    [exact H | apply first_key_dict_set, H].
Qed.

Lemma first_key_records_insert (m k0 : model) (r : instance) (st : state) :
  first_key (records st) = Some k0 \/ (records st = [] /\ m = k0) ->
  first_key (records (insert_record m r st)) = Some k0.
Proof.
  intros H. unfold insert_record.
  destruct H as [H|[H <-]].
  - match goal with |- context [@dd_get ?V ?a ?b ?c] =>
      pose proof (@first_key_dd_get V a b k0 c H) as H1; destruct (@dd_get V a b c) as [b0 recs]
    end.
    cbn [snd] in H1. cbn [records set_records]. apply first_key_dict_set, H1.
  - rewrite H. cbn. destruct (decide (m = m)); [reflexivity | contradiction].
Qed.

Lemma company_heads_buffer (m : model) (r : instance) (st : state) :
  company_first st -> m = Company \/ company_heads st ->
  company_heads (buffer_record m r st).
Proof.
  intros Hfirst Hm. unfold buffer_record, company_heads in *.
  cbn [records set_records]. apply first_key_dd_get.
  apply first_key_records_insert. cbn [records trace_added].
  unfold company_first in Hfirst.
  destruct (records st) as [|[m0 b0] rest].
  - right. split; [reflexivity|]. destruct Hm as [Hm|Hm]; [exact Hm | discriminate].
  - left. cbn [first_key]. f_equal. exact Hfirst.
Qed.

Lemma company_heads_save_records (m : model) (st : state) :
  company_heads st -> company_heads (save_records m st).
Proof.
  unfold company_heads, save_records. intros H.
  match goal with |- context [@dd_get ?V ?a ?b ?c] =>
    pose proof (@first_key_dd_get V a b Company c H) as H1; destruct (@dd_get V a b c) as [b0 recs]
  end.
  cbn [snd] in H1.
  cbn [set_records write trace_written set_db records db object_count].
  destruct (dd_get 0 m (object_count st)) as [n oc].
  cbn [records set_records set_object_count write].
  apply first_key_dict_set, H1.
Qed.

Lemma company_heads_save_items (items : list (model * dict (list value) instance)) :
  forall st, company_heads st -> company_heads (save_items items st).
Proof.
  induction items as [|[m b] items IH]; intros st H; [exact H|].
  unfold save_items in *. cbn [fold_left fst snd].
  destruct (Nat.ltb 0 (dict_len b)); [|exact (IH _ H)].
  apply IH, company_heads_save_records, H.
Qed.

Lemma company_heads_first (st : state) : company_heads st -> company_first st.
Proof.
  unfold company_heads, company_first. destruct (records st) as [|[m b] rest];
    [intros _; exact I | intros [= ->]; reflexivity].
Qed.

(** The batches whose records all point to companies already written. *)
Lemma save_records_parents (m : model) (st : state) :
  parents_first [] (written st) ->
  (forall m' k r, is_child m' = true -> In (k, r) (batch m' st) ->
                  In (company_of r) (companies_written (written st))) ->
  parents_first [] (written (save_records m st))
  /\ (forall m' k r, is_child m' = true -> In (k, r) (batch m' (save_records m st)) ->
                     In (company_of r) (companies_written (written (save_records m st)))).
Proof.
  intros Hpf Hb. destruct (save_records_effect m st) as [Hw _]. rewrite Hw. split.
  - apply parents_first_app. split; [exact Hpf|].
    cbn [parents_first app fst snd]. split; [|exact I].
    intros Hm r Hin. unfold dict_values in Hin. apply in_map_iff in Hin as ([k r'] & <- & Hin).
    apply (Hb m k r' Hm Hin).
  - intros m' k r Hm Hin. rewrite batch_save_records in Hin.
    destruct (decide (m = m')); [destruct Hin|].
    rewrite companies_written_app. apply in_or_app. left. apply (Hb m' k r Hm Hin).
Qed.

Lemma save_items_parents (items : list (model * dict (list value) instance)) :
  forall st,
    parents_first [] (written st) ->
    (forall m' k r, is_child m' = true -> In (k, r) (batch m' st) ->
                    In (company_of r) (companies_written (written st))) ->
    parents_first [] (written (save_items items st))
    /\ (forall m' k r, is_child m' = true -> In (k, r) (batch m' (save_items items st)) ->
                       In (company_of r) (companies_written (written (save_items items st)))).
Proof.
  induction items as [|[m b] items IH]; intros st Hpf Hb; [split; assumption|].
  unfold save_items in *. cbn [fold_left fst snd].
  destruct (Nat.ltb 0 (dict_len b)); [|exact (IH _ Hpf Hb)].
  destruct (save_records_parents m st Hpf Hb) as [Hpf' Hb'].
  exact (IH _ Hpf' Hb').
Qed.

Lemma save_all_records_parents (st : state) :
  parents_inv st ->
  parents_inv (save_all_records st)
  /\ (company_heads st -> company_heads (save_all_records st))
  /\ (forall v, available v st -> available v (save_all_records st)).
Proof.
  intros (Hfirst & Hwf & Hpf & Hb).
  unfold save_all_records. unfold company_first in Hfirst.
  destruct (records st) as [|[m0 bc] rest] eqn:Hrecs.
  - cbn [save_items fold_left]. split; [|split; [intros H; exact H | intros v H; exact H]].
    split; [|split; [|split]]; try assumption.
    unfold company_first. rewrite Hrecs. exact I.
  - subst m0.
    assert (batch Company st = bc) as Hbc.
    { unfold batch. rewrite Hrecs. cbn [dict_get].
      destruct (decide (Company = Company)); [reflexivity | contradiction]. }
    assert (company_heads st) as Hheads by (unfold company_heads; rewrite Hrecs; reflexivity).
    set (st1 := if Nat.ltb 0 (dict_len bc) then save_records Company st else st).
    change (save_items ((Company, bc) :: rest) st) with (save_items rest st1).
    assert (company_heads st1) as Hheads1.
    { unfold st1. destruct (Nat.ltb 0 (dict_len bc));
        [apply company_heads_save_records|]; exact Hheads. }
    assert (forall v, available v st -> In v (companies_written (written st1))) as Hav.
    { intros v [Hin|(c & Hin & ->)].
      - unfold st1. destruct (Nat.ltb 0 (dict_len bc)); [|exact Hin].
        destruct (save_records_effect Company st) as [-> _].
        rewrite companies_written_app. apply in_or_app. left. exact Hin.
      - unfold st1. rewrite Hbc in Hin.
        destruct bc as [|x bc]; [destruct Hin|].
        cbn [dict_len length Nat.ltb Nat.leb].
        destruct (save_records_effect Company st) as [-> _].
        rewrite companies_written_app. apply in_or_app. right.
        rewrite Hbc. cbn [companies_written flat_map fst snd]. rewrite app_nil_r.
        apply in_map_iff. exists c. split; [reflexivity | exact Hin]. }
    assert (parents_first [] (written st1)
            /\ (forall m' k r, is_child m' = true -> In (k, r) (batch m' st1) ->
                               In (company_of r) (companies_written (written st1))))
      as [Hpf1 Hb1].
    { split.
      - unfold st1. destruct (Nat.ltb 0 (dict_len bc)); [|exact Hpf].
        destruct (save_records_effect Company st) as [-> _].
        apply parents_first_app. split; [exact Hpf|].
        cbn [parents_first fst snd is_child]. split; [discriminate | exact I].
      - intros m' k r Hm Hin. apply Hav. apply (Hb m' k r Hm).
        unfold st1 in Hin. destruct (Nat.ltb 0 (dict_len bc)); [|exact Hin].
        rewrite batch_save_records in Hin.
        destruct (decide (Company = m')); [destruct Hin | exact Hin]. }
    destruct (save_items_parents rest st1 Hpf1 Hb1) as [Hpf2 Hb2].
    assert (batches_wf (save_items rest st1)) as Hwf2.
    { apply batches_wf_save_items. unfold st1.
      destruct (Nat.ltb 0 (dict_len bc)); [apply batches_wf_save_records|]; exact Hwf. }
    split; [|split].
    + split; [|split; [|split]].
      * apply company_heads_first, company_heads_save_items, Hheads1.
      * exact Hwf2.
      * exact Hpf2.
      * intros m k r Hm Hin. left. apply (Hb2 m k r Hm Hin).
    + intros _. apply company_heads_save_items, Hheads1.
    + intros v Hv. left.
      assert (forall items s, In v (companies_written (written s)) ->
                              In v (companies_written (written (save_items items s)))) as Hmono.
      { induction items as [|[m b] items IH]; intros s Hs; [exact Hs|].
        unfold save_items in *. cbn [fold_left fst snd].
        destruct (Nat.ltb 0 (dict_len b)); [|exact (IH _ Hs)].
        apply IH. destruct (save_records_effect m s) as [-> _].
        rewrite companies_written_app. apply in_or_app. left. exact Hs. }
      apply Hmono, Hav, Hv.
Qed.

Lemma available_buffer (m : model) (r : instance) (st : state) (v : value) :
  batches_wf st -> available v st -> available v (buffer_record m r st).
Proof.
  intros [Hwf _] [Hin|(c & Hin & ->)].
  - left. destruct (buffer_record_effect m r st) as (_ & -> & _). exact Hin.
  - right. destruct (buffer_record_effect m r st) as (Hb & _). rewrite Hb.
    destruct (decide (m = Company)) as [->|Hne]; [|exists c; split; [exact Hin | reflexivity]].
    unfold dict_values in Hin. apply in_map_iff in Hin as ([k c'] & Hc & Hin).
    cbn [snd] in Hc. subst c'.
    destruct (Hwf Company) as [_ Hkey]. pose proof (Hkey k c Hin) as Hk.
    destruct (decide (k = unique_key Company r)) as [Heq|Hne].
    + exists r. split.
      * unfold dict_values. apply in_map_iff. exists (unique_key Company r, r).
        split; [reflexivity | apply In_dict_set_same].
      * rewrite Hk in Heq. unfold unique_key in Heq. cbn in Heq.
        injection Heq as Heq. rewrite Heq. reflexivity.
    + exists c. split; [|reflexivity].
      unfold dict_values. apply in_map_iff. exists (k, c).
      split; [reflexivity | apply In_dict_set_other; assumption].
Qed.

Lemma parents_inv_buffer (m : model) (r : instance) (st : state) :
  parents_inv st ->
  m = Company \/ company_heads st ->
  (is_child m = true -> available (company_of r) st) ->
  parents_inv (buffer_record m r st)
  /\ company_heads (buffer_record m r st)
  /\ (forall v, available v st -> available v (buffer_record m r st))
  /\ (m = Company -> available (VObj Company (pk Company r)) (buffer_record m r st)).
Proof.
  intros (Hfirst & Hwf & Hpf & Hb) Hm Hr.
  pose proof (company_heads_buffer m r st Hfirst Hm) as Hheads.
  destruct (buffer_record_effect m r st) as (Hbatch & Hw & _).
  split; [|split; [exact Hheads | split]].
  - split; [apply company_heads_first, Hheads | split; [|split]].
    + apply (batches_wf_ext (insert_record m r st)).
      * intros m'. rewrite Hbatch, batch_insert_record. reflexivity.
      * rewrite Hw. destruct (insert_record_frame m r st) as (_ & -> & _). reflexivity.
      * apply batches_wf_insert_record, Hwf.
    + rewrite Hw. exact Hpf.
    + intros m' k r' Hm' Hin. apply available_buffer; [exact Hwf|].
      rewrite Hbatch in Hin. destruct (decide (m = m')) as [<-|Hne].
      * apply In_dict_set in Hin as [[_ ->]|Hin]; [apply Hr, Hm' | apply (Hb m k r' Hm' Hin)].
      * apply (Hb m' k r' Hm' Hin).
  - intros v Hv. apply available_buffer; assumption.
  - intros ->. right. exists r. split; [|reflexivity].
    rewrite Hbatch. destruct (decide (Company = Company)); [|contradiction].
    unfold dict_values. apply in_map_iff. exists (unique_key Company r, r).
    split; [reflexivity | apply In_dict_set_same].
Qed.

Lemma parents_inv_add_record (m : model) (r : instance) (st : state) :
  parents_inv st ->
  m = Company \/ company_heads st ->
  (is_child m = true -> available (company_of r) st) ->
  parents_inv (add_record m r st)
  /\ company_heads (add_record m r st)
  /\ (forall v, available v st -> available v (add_record m r st))
  /\ (m = Company -> available (VObj Company (pk Company r)) (add_record m r st)).
Proof.
  intros Hinv Hm Hr.
  destruct (parents_inv_buffer m r st Hinv Hm Hr) as (Hinv1 & Hheads1 & Hav1 & Hself1).
  rewrite add_record_buffer.
  destruct (Nat.leb bulk_limit _);
    [|split; [exact Hinv1 | split; [exact Hheads1 | split; [exact Hav1 | exact Hself1]]]].
  destruct (save_all_records_parents _ Hinv1) as (Hinv2 & Hheads2 & Hav2).
  split; [exact Hinv2|]. split; [apply Hheads2, Hheads1|]. split.
  - intros v Hv. apply Hav2, Hav1, Hv.
  - intros Hc. apply Hav2, Hself1, Hc.
Qed.

Lemma parents_inv_ext (st st' : state) :
  records st' = records st -> written st' = written st ->
  (parents_inv st -> parents_inv st')
  /\ (company_heads st -> company_heads st')
  /\ (forall v, available v st -> available v st').
Proof.
  intros Hr Hw.
  assert (forall m, batch m st' = batch m st) as Hb.
  { intros m. unfold batch. rewrite Hr. reflexivity. }
  split; [|split].
  - intros (Hfirst & Hwf & Hpf & Hch). split; [|split; [|split]].
    + unfold company_first. rewrite Hr. exact Hfirst.
    + apply (batches_wf_ext st); assumption.
    + rewrite Hw. exact Hpf.
    + intros m k r Hm Hin. rewrite Hb in Hin.
      destruct (Hch m k r Hm Hin) as [H|H]; [left | right]; [rewrite Hw | rewrite Hb]; exact H.
  - unfold company_heads. rewrite Hr. intros H; exact H.
  - intros v [H|H]; [left | right]; [rewrite Hw | rewrite Hb]; exact H.
Qed.

Lemma parents_inv_parse_row (api : ch_api) (r : row) (st st' : state) :
  parents_inv st -> parse_row api r st = Ok st' -> parents_inv st'.
Proof.
  intros Hinv. unfold parse_row.
  destruct (for_each parse_column _ (mkAcc [] [] [] st)) as [a|e] eqn:Hloop;
    cbn [bind]; [|discriminate].
  apply parse_columns_frame in Hloop as (_ & Hrecs & Hw & _).
  cbn [acc_state] in Hrecs, Hw.
  destruct (parents_inv_ext st (acc_state a) Hrecs Hw) as (Hext & _).
  apply Hext in Hinv.
  destruct (company_kwargs _ (record a)) as [company|e]; cbn [bind]; [|discriminate].
  set (self := VObj Company (pk Company company)).
  destruct (parents_inv_add_record Company company (acc_state a) Hinv
              (or_introl eq_refl) (fun H => ltac:(discriminate H)))
    as (Hinv1 & Hheads1 & _ & Hself1).
  specialize (Hself1 eq_refl). fold self in Hself1.
  set (J := fun s => parents_inv s /\ company_heads s /\ available self s).
  destruct (for_each _ (dict_values (previous_names a)) _) as [st1|e] eqn:Hpn;
    cbn [bind]; [|discriminate].
  intros [= <-].
  assert (J st1) as HJ1.
  { apply (for_each_invariant _ J _) in Hpn; 
      [exact Hpn | | split; [exact Hinv1 | split; [exact Hheads1 | exact Hself1]]].
    intros n s s' _ (Hi & Hh & Ha).
    destruct (subscript "CompanyName" n) as [name|]; cbn [bind]; [|discriminate].
    destruct (subscript "CONDATE" n) as [condate|]; cbn [bind]; [|discriminate].
    intros [= <-].
    match goal with |- J (add_record ?m ?rec s) =>
      destruct (parents_inv_add_record m rec s Hi (or_intror Hh) (fun _ => Ha))
        as (Hi' & Hh' & Ha' & _)
    end.
    split; [exact Hi' | split; [exact Hh' | apply Ha', Ha]]. }
  apply (fold_left_invariant _ J); [|exact HJ1].
  intros s sic _ (Hi & Hh & Ha).
  match goal with |- J (add_record ?m ?rec s) =>
    destruct (parents_inv_add_record m rec s Hi (or_intror Hh) (fun _ => Ha))
      as (Hi' & Hh' & Ha' & _)
  end.
  split; [exact Hi' | split; [exact Hh' | apply Ha', Ha]].
Qed.

Lemma parents_inv_parse_file (w : world) (resp : response) (url : string) (st st' : state) :
  parents_inv st -> parse_file w resp url st = Ok st' -> parents_inv st'.
Proof.
  intros Hinv. unfold parse_file.
  destruct (content resp) as [members|]; [|discriminate].
  apply for_each_invariant.
  - intros f s s' _ Hs.
    destruct (for_each (parse_row (api w)) _ _) as [s1|e] eqn:Hrows; cbn [bind]; [|discriminate].
    intros [= <-]. apply save_all_records_parents.
    apply (for_each_invariant _ parents_inv _) in Hrows; [exact Hrows | |].
    + intros r s2 s3 _ H2 Hstep. apply (parents_inv_parse_row _ _ _ _ H2 Hstep).
    + apply (parents_inv_ext s); [reflexivity | reflexivity | exact Hs].
  - apply (parents_inv_ext st); [reflexivity | reflexivity | exact Hinv].
Qed.

Lemma fetch_link_records (w : world) (link : string) (st st' : state) :
  fetch_link w link st = Ok st' -> records st' = records st /\ written st' = written st.
Proof.
  unfold fetch_link. destruct (zip_regex_match link); [|intros [= <-]; split; reflexivity].
  unfold fetch_link_try, raise_for_status.
  destruct (session_get w _ link) as [r|e]; cbn [bind].
  - destruct (_ && _); cbn [bind]; cbv beta iota; [discriminate|].
    intros [= <-]. split; reflexivity.
  - destruct e; cbv beta iota; try discriminate. intros [= <-]. split; reflexivity.
Qed.

Lemma fetch_file_records (w : world) (st st' : state) :
  fetch_file w st = Ok st' -> records st' = records st /\ written st' = written st.
Proof.
  unfold fetch_file.
  destruct (session_get w _ start_url) as [page|e]; cbn [bind]; [|discriminate].
  destruct (raise_for_status page) as [[]|e]; cbn [bind]; [|discriminate].
  intros H.
  apply (for_each_invariant _
           (fun s => records s = records st /\ written s = written st) _) in H;
    [exact H | | split; reflexivity].
  intros link s s' _ [Hr Hw] Hstep. apply fetch_link_records in Hstep as [-> ->].
  split; assumption.
Qed.

Lemma parents_inv_init (d : database) : parents_inv (init_state d).
Proof.
  split; [exact I | split; [apply batches_wf_init | split; [exact I|]]].
  intros m k r _ [].
Qed.

(** X8. In a run of [handle] that returns, every call of [bulk_create] for
    [PreviousName] or [CompanySICCode] comes after the calls that wrote
    the companies its records point to: [Company] is the first key of
    [self.records], so [save_all_records] saves the batch of companies
    before the batches that refer to it. *)
Theorem companies_are_written_first (w : world) (o : options) (d : database) (st : state) :
  handle w o (init_state d) = Finished st ->
  parents_first [] (written st).
Proof.
  unfold handle, atomic, handle_body, import_and_prune.
  set (st0 := set_session (opt_cache o) _).
  assert (parents_inv st0) as H0.
  { apply (parents_inv_ext (init_state d));
      [unfold st0; destruct (opt_cache o); reflexivity ..| apply parents_inv_init]. }
  destruct (fetch_file w st0) as [st1|e] eqn:Hfetch; cbn [bind]; [|discriminate].
  apply fetch_file_records in Hfetch as [Hr1 Hw1].
  apply (parents_inv_ext st0 st1 Hr1 Hw1) in H0.
  destruct (for_each _ (files st1) st1) as [st2|e] eqn:Hparse; cbn [bind]; [|discriminate].
  apply (for_each_invariant _ parents_inv _) in Hparse; [| |exact H0].
  2:{ intros item s s' _ Hs Hstep. apply (parents_inv_parse_file _ _ _ _ _ Hs Hstep). }
  destruct Hparse as (_ & _ & Hpf & _).
  cbn [fold_left].
  destruct (execute_all w _) as [st3|e] eqn:Hexec; [|discriminate].
  intros [= <-].
  apply (for_each_invariant _ (fun s => written s = written st2) _) in Hexec.
  - change (written (log_event Commit st3)) with (written st3). rewrite Hexec. exact Hpf.
  - intros stmt s s' _ Hs.
    destruct (snd stmt (db s)) as [d'|e]; cbn [bind]; [|discriminate].
    intros [= <-]. exact Hs.
  - reflexivity.
Qed.

(** ** The SIC codes of a run *)

Lemma upsert_sic_old (obj row : instance) (c : string) (t : table) :
  In row t -> getattr row "code" = VStr c ->
  exists row', In row' (upsert sic_options obj t) /\ getattr row' "code" = VStr c.
Proof.
  induction t as [|r0 t IH]; intros Hin Hc; [destruct Hin|].
  cbn [upsert].
  destruct (decide (row_key (unique_fields sic_options) r0
                    = row_key (unique_fields sic_options) obj)) as [Hk|Hk].
  - destruct Hin as [->|Hin].
    + eexists. split; [left; reflexivity|].
      cbn [sic_options update_fields merge_row fold_left].
      rewrite getattr_set_ne by discriminate. exact Hc.
    + exists row. split; [right; exact Hin | exact Hc].
  - destruct Hin as [->|Hin].
    + exists row. split; [left; reflexivity | exact Hc].
    + destruct (IH Hin Hc) as (row' & Hin' & Hc'). exists row'. split; [right|]; assumption.
Qed.

Lemma upsert_sic_new (obj : instance) (t : table) :
  exists row', In row' (upsert sic_options obj t)
               /\ getattr row' "code" = getattr obj "code".
Proof.
  induction t as [|r0 t IH].
  - exists obj. split; [left; reflexivity | reflexivity].
  - cbn [upsert].
    destruct (decide (row_key (unique_fields sic_options) r0
                      = row_key (unique_fields sic_options) obj)) as [Hk|Hk].
    + eexists. split; [left; reflexivity|].
      cbn [sic_options update_fields merge_row fold_left].
      rewrite getattr_set_ne by discriminate.
      cbn [sic_options unique_fields row_key map] in Hk. injection Hk as Hk. exact Hk.
    + destruct IH as (row' & Hin' & Hc'). exists row'. split; [right|]; assumption.
Qed.

Lemma sic_known_save_records (m : model) (st : state) (c : string) :
  sic_known c (db st) -> sic_known c (db (save_records m st)).
Proof.
  intros (row & Hin & Hc). exists row. split; [|exact Hc].
  destruct (save_records_effect m st) as [_ ->]. rewrite objects_set_objects.
  destruct (decide (m = SICCode)) as [->|_]; [|exact Hin].
  cbn [MODEL_UPDATES bulk_create]. apply in_or_app. left. exact Hin.
Qed.

Lemma sic_known_save_items (items : list (model * dict (list value) instance)) (c : string) :
  forall st, sic_known c (db st) -> sic_known c (db (save_items items st)).
Proof.
  induction items as [|[m b] items IH]; intros st H; [exact H|].
  unfold save_items in *. cbn [fold_left fst snd].
  destruct (Nat.ltb 0 (dict_len b)); [|exact (IH _ H)].
  apply IH, sic_known_save_records, H.
Qed.

Lemma sic_known_add_record (m : model) (r : instance) (st : state) (c : string) :
  sic_known c (db st) -> sic_known c (db (add_record m r st)).
Proof.
  intros H. rewrite add_record_buffer.
  destruct (buffer_record_effect m r st) as (_ & _ & Hdb).
  destruct (Nat.leb bulk_limit _).
  - apply (sic_known_save_items (records (buffer_record m r st))). rewrite Hdb. exact H.
  - rewrite Hdb. exact H.
Qed.

Lemma sic_inv_grows (st st' : state) :
  sic_code_cache st' = sic_code_cache st ->
  added st' = added st ->
  (forall c, sic_known c (db st) -> sic_known c (db st')) ->
  sic_inv st -> sic_inv st'.
Proof.
  intros Hc Ha Hk [Hcache Hadded]. split.
  - intros c i Hin. rewrite Hc in Hin. destruct (Hcache c i Hin) as [Hpk Hknown].
    split; [exact Hpk | apply Hk, Hknown].
  - intros r Hin. rewrite Ha in Hin. destruct (Hadded r Hin) as (c & Hr & Hknown).
    exists c. split; [exact Hr | apply Hk, Hknown].
Qed.

Lemma sic_inv_save_all_records (st : state) : sic_inv st -> sic_inv (save_all_records st).
Proof.
  destruct (save_all_records_frame st) as (Hc & Ha & _).
  apply sic_inv_grows; [exact Hc | exact Ha|].
  intros c. apply (sic_known_save_items (records st)).
Qed.

Lemma sic_inv_add_record (m : model) (r : instance) (st : state) :
  (m = CompanySICCode -> points_to_known_code r (db st)) ->
  sic_inv st -> sic_inv (add_record m r st).
Proof.
  intros Hr [Hcache Hadded].
  destruct (add_record_frame m r st) as (Hc & Ha & _). split.
  - intros c i Hin. rewrite Hc in Hin. destruct (Hcache c i Hin) as [Hpk Hknown].
    split; [exact Hpk | apply sic_known_add_record, Hknown].
  - intros r' Hin. rewrite Ha in Hin. apply in_app_or in Hin as [Hin|[[= -> ->]|[]]].
    + destruct (Hadded r' Hin) as (c & Hr' & Hknown).
      exists c. split; [exact Hr' | apply sic_known_add_record, Hknown].
    + destruct (Hr eq_refl) as (c & Hr' & Hknown).
      exists c. split; [exact Hr' | apply sic_known_add_record, Hknown].
Qed.

(** The loop of [parse_row] over the columns: the cache and the list
    [sic_codes] hold SIC codes of the table only. *)
Lemma sic_inv_parse_column (kv : string * value) (a a' : row_acc) :
  parse_column kv a = Ok a' ->
  sic_inv (acc_state a)
  /\ (forall s, In s (sic_codes a) ->
        exists c, pk SICCode s = VStr c /\ sic_known c (db (acc_state a))) ->
  sic_inv (acc_state a')
  /\ (forall s, In s (sic_codes a') ->
        exists c, pk SICCode s = VStr c /\ sic_known c (db (acc_state a'))).
Proof.
  destruct kv as [k v]. unfold parse_column.
  destruct (PyStr.startswith "PreviousName_" k).
  - unfold parse_previous_name.
    destruct (truthy v); [|intros [= <-] H; exact H].
    destruct (index (PyStr.split_char "_" k) 1) as [pn1|]; cbn [bind]; [|discriminate].
    destruct (index (PyStr.split_char "_" k) 2) as [pn2|]; cbn [bind]; [|discriminate].
    destruct (bool_decide (pn2 = "CONDATE")).
    + destruct (as_str v TypeError) as [s|]; cbn [bind]; [|discriminate].
      destruct (Strptime.strptime s); [|discriminate].
      intros [= <-] H. exact H.
    + intros [= <-] H. exact H.
  - destruct (PyStr.startswith "SICCode_" k); [|intros [= <-] H; exact H].
    unfold parse_sic_code.
    destruct (truthy v); [|intros [= <-] H; exact H].
    destruct (as_str v AttributeError) as [s|]; cbn [bind]; [|discriminate].
    destruct (negb _); [|intros [= <-] H; exact H].
    destruct (map PyStr.strip (PyStr.split1 " - " s)) as [|c [|t [|? ?]]]; try discriminate.
    intros [= <-] [[Hcache Hadded] Hsics]. cbn [acc_state sic_codes].
    unfold dict_mem.
    destruct (dict_get c (sic_code_cache (acc_state a))) as [i|] eqn:Hget.
    + split; [split; assumption|].
      intros s0 Hin. apply in_app_or in Hin as [Hin|[<-|[]]]; [apply Hsics, Hin|].
      destruct (Hcache c i (dict_get_In _ _ _ Hget)) as [Hpk Hknown].
      exists c. split; [|exact Hknown].
      etransitivity; [|exact Hpk]. f_equal. exact (f_equal (default []) Hget).
    + unfold update_or_create. cbv beta iota zeta.
      set (obj := [("code", VStr c); ("title", VStr t)]).
      set (st1 := set_sic_code_cache _ _).
      assert (forall c', sic_known c' (db (acc_state a)) -> sic_known c' (db st1)) as Hmono.
      { intros c' (row & Hin & Hc).
        destruct (upsert_sic_old obj row c' _ Hin Hc) as (row' & Hin' & Hc').
        exists row'. split; [exact Hin' | exact Hc']. }
      assert (sic_known c (db st1)) as Hnew.
      { destruct (upsert_sic_new obj (objects SICCode (db (acc_state a))))
          as (row' & Hin' & Hc').
        exists row'. split; [exact Hin' | exact Hc']. }
      assert (dict_get c (sic_code_cache st1) = Some obj) as Hget1.
      { unfold st1. cbn [sic_code_cache set_sic_code_cache set_db]. apply dict_get_set_eq. }
      split; [split|].
      * intros c' i Hin. unfold st1 in Hin.
        cbn [sic_code_cache set_sic_code_cache set_db] in Hin.
        apply In_dict_set in Hin as [[-> ->]|Hin]; [split; [reflexivity | exact Hnew]|].
        destruct (Hcache c' i Hin) as [Hpk Hknown]. split; [exact Hpk | apply Hmono, Hknown].
      * intros r Hin. destruct (Hadded r Hin) as (c' & Hr & Hknown).
        exists c'. split; [exact Hr | apply Hmono, Hknown].
      * intros s0 Hin. apply in_app_or in Hin as [Hin|[<-|[]]].
        -- destruct (Hsics s0 Hin) as (c' & Hpk & Hknown).
           exists c'. split; [exact Hpk | apply Hmono, Hknown].
        -- exists c. split; [|exact Hnew].
           transitivity (pk SICCode obj); [|reflexivity].
           f_equal. exact (f_equal (default []) Hget1).
Qed.

Lemma sic_inv_parse_row (api : ch_api) (r : row) (st st' : state) :
  sic_inv st -> parse_row api r st = Ok st' -> sic_inv st'.
Proof.
  intros Hinv. unfold parse_row.
  destruct (for_each parse_column _ (mkAcc [] [] [] st)) as [a|e] eqn:Hloop;
    cbn [bind]; [|discriminate].
  apply (for_each_invariant parse_column
           (fun a => sic_inv (acc_state a)
                     /\ (forall s, In s (sic_codes a) ->
                           exists c, pk SICCode s = VStr c
                                     /\ sic_known c (db (acc_state a)))) _) in Hloop.
  2:{ intros kv a0 a1 _ H0 Hstep. apply (sic_inv_parse_column kv a0 a1 Hstep H0). }
  2:{ split; [exact Hinv | intros s []]. }
  destruct Hloop as [Hinv1 Hsics].
  destruct (company_kwargs _ (record a)) as [company|e]; cbn [bind]; [|discriminate].
  set (J := fun s => sic_inv s /\ forall c, sic_known c (db (acc_state a)) -> sic_known c (db s)).
  destruct (for_each _ (dict_values (previous_names a)) _) as [st1|e] eqn:Hpn;
    cbn [bind]; [|discriminate].
  intros [= <-].
  assert (J st1) as HJ1.
  { apply (for_each_invariant _ J _) in Hpn; [exact Hpn | |].
    - intros n s s' _ [Hi Hk].
      destruct (subscript "CompanyName" n) as [name|]; cbn [bind]; [|discriminate].
      destruct (subscript "CONDATE" n) as [condate|]; cbn [bind]; [|discriminate].
      intros [= <-]. split.
      + apply sic_inv_add_record; [discriminate | exact Hi].
      + intros c Hc. apply sic_known_add_record, Hk, Hc.
    - split.
      + apply sic_inv_add_record; [discriminate | exact Hinv1].
      + intros c Hc. apply sic_known_add_record, Hc. }
  assert (forall l s, (forall x, In x l -> In x (sic_codes a)) -> J s ->
            J (fold_left
                 (fun st s =>
                    add_record CompanySICCode
                      [("company", VObj Company (pk Company company));
                       ("sic_code", VObj SICCode (pk SICCode s));
                       ("in_latest_update", VBool true)] st) l s)) as Hfold.
  { induction l as [|x l IH]; intros s Hl HJ; [exact HJ|].
    cbn [fold_left]. apply IH; [intros y Hy; apply Hl; right; exact Hy|].
    destruct HJ as [Hi Hk]. split.
    - apply sic_inv_add_record; [|exact Hi]. intros _.
      destruct (Hsics x (Hl x (or_introl eq_refl))) as (c & Hpk & Hknown).
      exists c. split; [|apply Hk, Hknown].
      unfold getattr. cbn. rewrite Hpk. reflexivity.
    - intros c Hc. apply sic_known_add_record, Hk, Hc. }
  apply (Hfold (sic_codes a) st1 (fun x H => H) HJ1).
Qed.

Lemma sic_inv_parse_file (w : world) (resp : response) (url : string) (st st' : state) :
  sic_inv st -> parse_file w resp url st = Ok st' -> sic_inv st'.
Proof.
  intros Hinv. unfold parse_file.
  destruct (content resp) as [members|]; [|discriminate].
  apply for_each_invariant; [|exact Hinv].
  intros f s s' _ Hs.
  destruct (for_each (parse_row (api w)) _ _) as [s1|e] eqn:Hrows; cbn [bind]; [|discriminate].
  intros [= <-]. apply sic_inv_save_all_records.
  apply (for_each_invariant _ sic_inv _) in Hrows; [exact Hrows | | exact Hs].
  intros r s2 s3 _ H2 Hstep. apply (sic_inv_parse_row _ _ _ _ H2 Hstep).
Qed.

Lemma fetch_link_sic (w : world) (link : string) (st st' : state) :
  fetch_link w link st = Ok st' ->
  sic_code_cache st' = sic_code_cache st /\ added st' = added st /\ db st' = db st.
Proof.
  unfold fetch_link. destruct (zip_regex_match link); [|intros [= <-]; auto].
  unfold fetch_link_try, raise_for_status.
  destruct (session_get w _ link) as [r|e]; cbn [bind].
  - destruct (_ && _); cbn [bind]; cbv beta iota; [discriminate|].
    intros [= <-]. auto.
  - destruct e; cbv beta iota; try discriminate. intros [= <-]. auto.
Qed.

(** X9. When the import of [handle] reaches the end of its deleting loop,
    every [CompanySICCode] record that was passed to [add_record] has for
    [sic_code] a SIC code that has a row in the table of [SICCode]: the
    code was created or updated by [update_or_create], or taken from the
    cache that holds what [update_or_create] returned. *)
Theorem company_sic_codes_point_to_stored_codes
  (w : world) (o : options) (d : database) (st' : state) :
  import_and_prune w o (set_debug (opt_debug o) (init_state d)) = Ok st' ->
  forall r, In (CompanySICCode, r) (added st') ->
    exists code,
      getattr r "sic_code" = VObj SICCode (VStr code)
      /\ exists row, In row (objects SICCode (db st')) /\ getattr row "code" = VStr code.
Proof.
  unfold import_and_prune.
  set (st0 := set_session (opt_cache o) _).
  assert (sic_inv st0) as H0.
  { unfold st0. destruct (opt_cache o); (split; [intros c i [] | intros r []]). }
  unfold fetch_file.
  destruct (session_get w _ start_url) as [page|e]; cbn [bind]; [|discriminate].
  destruct (raise_for_status page) as [[]|e]; cbn [bind]; [|discriminate].
  destruct (for_each (fetch_link w) _ _) as [st1|e] eqn:Hfetch; cbn [bind]; [|discriminate].
  apply (for_each_invariant _ sic_inv _) in Hfetch.
  2:{ intros link s s' _ Hs Hstep. apply fetch_link_sic in Hstep as (Hc & Ha & Hd).
      apply (sic_inv_grows s); [exact Hc | exact Ha | | exact Hs].
      rewrite Hd. intros c H; exact H. }
  2:{ exact H0. }
  destruct (for_each _ (files st1) st1) as [st2|e] eqn:Hparse; cbn [bind]; [|discriminate].
  apply (for_each_invariant _ sic_inv _) in Hparse; [| |exact Hfetch].
  2:{ intros item s s' _ Hs Hstep. apply (sic_inv_parse_file _ _ _ _ _ Hs Hstep). }
  intros [= <-] r Hin. cbn [fold_left] in *.
  destruct (prune_effect PreviousName (prune CompanySICCode st2)) as [Ha2 Ho2].
  destruct (prune_effect CompanySICCode st2) as [Ha1 Ho1].
  rewrite Ha2, Ha1 in Hin.
  destruct Hparse as [_ Hadded]. destruct (Hadded r Hin) as (c & Hr & row & Hrow & Hc).
  exists c. split; [exact Hr|]. exists row. split; [|exact Hc].
  rewrite Ho2. decide_models. rewrite Ho1. decide_models. exact Hrow.
Qed.

(** ** What bulk_create updates *)

Lemma rows_keep_columns_refl (t : table) : rows_keep_columns t t.
Proof. intros i row H. exists row. split; [exact H | intros f _; reflexivity]. Qed.

Lemma rows_keep_columns_trans (t1 t2 t3 : table) :
  rows_keep_columns t1 t2 -> rows_keep_columns t2 t3 -> rows_keep_columns t1 t3.
Proof.
  intros H12 H23 i row H.
  destruct (H12 i row H) as (row2 & H2 & Hs2).
  destruct (H23 i row2 H2) as (row3 & H3 & Hs3).
  exists row3. split; [exact H3|].
  intros f Hf. rewrite (Hs3 f Hf). apply Hs2, Hf.
Qed.

Lemma upsert_keeps_columns (o : bulk_options) (obj : instance) (t : table) :
  update_fields o = Fields ["in_latest_update"] ->
  rows_keep_columns t (upsert o obj t).
Proof.
  intros Hu. induction t as [|r0 t IH]; intros i row H.
  - destruct i; discriminate.
  - cbn [upsert].
    destruct (decide (row_key (unique_fields o) r0 = row_key (unique_fields o) obj)).
    + destruct i as [|i]; cbn [nth_error] in *.
      * injection H as <-. eexists. split; [reflexivity|].
        intros f Hf. rewrite Hu. cbn [merge_row fold_left].
        apply getattr_set_ne. congruence.
      * exists row. split; [exact H | intros f _; reflexivity].
    + destruct i as [|i]; cbn [nth_error] in *.
      * exists row. split; [exact H | intros f _; reflexivity].
      * apply IH, H.
Qed.

Lemma bulk_create_keeps_columns (o : bulk_options) (objs : list instance) :
  update_fields o = Fields ["in_latest_update"] ->
  forall t, rows_keep_columns t (bulk_create objs (Some o) t).
Proof.
  intros Hu. cbn [bulk_create].
  induction objs as [|obj objs IH]; intros t; [apply rows_keep_columns_refl|].
  cbn [fold_left].
  apply (rows_keep_columns_trans _ (upsert o obj t));
    [apply upsert_keeps_columns, Hu | apply IH].
Qed.

(** X10. Saving a batch of [PreviousName] or of [CompanySICCode] changes,
    of the rows the table already holds, the column [in_latest_update]
    and nothing else: each stored row stays at its place with every other
    column as it was. The [ConDate] of a previous name that is already
    stored is never replaced by the date of the file. *)
Theorem stored_names_and_codes_keep_their_columns (m : model) (st : state) :
  m = PreviousName \/ m = CompanySICCode ->
  rows_keep_columns (objects m (db st)) (objects m (db (save_records m st))).
Proof.
  intros Hm. destruct (save_records_effect m st) as [_ ->].
  rewrite objects_set_objects. destruct (decide (m = m)); [|contradiction].
  destruct Hm as [-> | ->]; cbn [MODEL_UPDATES]; apply bulk_create_keeps_columns; reflexivity.
Qed.

Lemma upsert_company_takes_columns (obj : instance) (t : table) :
  forall o, MODEL_UPDATES Company = Some o ->
  exists row,
    In row (upsert o obj t)
    /\ row_key (unique_fields o) row = row_key (unique_fields o) obj
    /\ forall f, getattr row f = getattr obj f.
Proof.
  intros o [= <-]. induction t as [|r0 t IH].
  - exists obj. split; [left; reflexivity | split; [reflexivity | intros f; reflexivity]].
  - cbn [upsert].
    match goal with |- context [decide (?a = ?b)] => destruct (decide (a = b)) as [Hk|Hk] end.
    + cbn [unique_fields row_key map] in Hk. injection Hk as Hk.
      assert (forall f, getattr (merge_row (AllFieldsBut ["CompanyNumber"]) r0 obj) f
                        = getattr obj f) as Hcols.
      { intros f. cbn [merge_row fold_left].
        destruct (decide ("CompanyNumber" = f)) as [<-|Hne].
        - rewrite getattr_set_eq. exact Hk.
        - apply getattr_set_ne, Hne. }
      eexists. split; [left; reflexivity|]. split; [|exact Hcols].
      cbn [unique_fields update_fields row_key map]. rewrite Hcols. reflexivity.
    + destruct IH as (row & Hin & Hkey & Hcols).
      exists row. split; [right; exact Hin | split; assumption].
Qed.

Lemma bulk_create_company_takes_columns (objs : list instance) (obj : instance) :
  forall o, MODEL_UPDATES Company = Some o ->
  NoDup (map (row_key (unique_fields o)) objs) ->
  In obj objs ->
  forall t, exists row,
    In row (bulk_create objs (Some o) t) /\ forall f, getattr row f = getattr obj f.
Proof.
  intros o Ho. cbn [bulk_create].
  induction objs as [|x objs IH]; intros Hnd Hin t; [destruct Hin|].
  cbn [map] in Hnd. apply NoDup_cons in Hnd as [Hx Hnd]. rewrite list_elem_of_In in Hx.
  cbn [fold_left]. destruct Hin as [->|Hin]; [|apply IH; assumption].
  destruct (upsert_company_takes_columns obj t o Ho) as (row & Hrow & Hkey & Hcols).
  exists row. split; [|exact Hcols].
  clear IH Hnd. revert Hx Hrow. generalize (upsert o obj t) as t'.
  induction objs as [|y objs IH]; intros t' Hx Hrow; [exact Hrow|].
  cbn [fold_left]. apply IH.
  - intros Hin. apply Hx. right. exact Hin.
  - apply upsert_other_key; [exact Hrow|].
    rewrite Hkey. intros Heq. apply Hx. left. symmetry. exact Heq.
Qed.

(** X11. Saving a batch of [Company] that holds every record under its own
    key leaves, for every record of the batch, a row of the table with
    the value of the record in every column: a company that was already
    stored is overwritten column by column, a column the record lacks
    included. *)
Theorem stored_companies_take_every_column (st : state) (k : list value) (obj : instance) :
  batch_wf (unique_key Company) (batch Company st) ->
  In (k, obj) (batch Company st) ->
  exists row,
    In row (objects Company (db (save_records Company st)))
    /\ forall f, getattr row f = getattr obj f.
Proof.
  intros Hwf Hin. destruct (save_records_effect Company st) as [_ ->].
  rewrite objects_set_objects. destruct (decide (Company = Company)); [|contradiction].
  destruct (MODEL_UPDATES Company) as [o|] eqn:Ho; [|discriminate].
  apply (bulk_create_company_takes_columns _ obj o Ho).
  - pose proof (batch_wf_values _ _ Hwf) as Hnd.
    injection Ho as <-. exact Hnd.
  - unfold dict_values. apply in_map_iff. exists (k, obj). split; [reflexivity | exact Hin].
Qed.

(** ** The cleaning steps of parse_row *)

Lemma prefix_char (c x : ascii) (s : string) :
  String.prefix (char c) (String x s) = bool_decide (c = x).
Proof.
  unfold char. cbn [String.prefix].
  destruct (ascii_dec c x) as [->|Hne].
  - rewrite bool_decide_eq_true_2 by reflexivity. destruct s; reflexivity.
  - rewrite bool_decide_eq_false_2; [reflexivity | exact Hne].
Qed.

Lemma contains_char_cons (c x : ascii) (s : string) :
  PyStr.contains (char c) (String x s) = bool_decide (c = x) || PyStr.contains (char c) s.
Proof. cbn [PyStr.contains]. rewrite prefix_char. reflexivity. Qed.

Lemma contains_char_app (c : ascii) (a b : string) :
  PyStr.contains (char c) (a +:+ b) = PyStr.contains (char c) a || PyStr.contains (char c) b.
Proof.
  induction a as [|x a IH].
  - cbn [String.append]. destruct b; reflexivity.
  - change (String x a +:+ b) with (String x (a +:+ b)).
    rewrite !contains_char_cons, IH, orb_assoc. reflexivity.
Qed.

(** [s.replace(c, new)] leaves no [c] when [new] holds none. *)
Lemma replace_char_absent (c : ascii) (new s : string) :
  PyStr.contains (char c) new = false ->
  PyStr.contains (char c) (PyStr.replace (char c) new s) = false.
Proof.
  intros Hnew. unfold PyStr.replace. induction s as [|x s IH]; [reflexivity|].
  cbn [PyStr.replace_from]. rewrite prefix_char.
  destruct (bool_decide (c = x)) eqn:Hx.
  - change (String.length (char c) - 1) with 0.
    rewrite contains_char_app, Hnew, IH. reflexivity.
  - rewrite contains_char_cons, Hx, IH. reflexivity.
Qed.

(** X12. The texts [clean_fields] leaves in a record hold no NUL
    character, and none of them is under a date field: a text that
    remains comes from a text of the row that was not empty, stripped and
    with its NUL characters removed. *)
Theorem clean_fields_leaves_no_nul (r : row) (k s : string) :
  In (k, VStr s) (clean_fields r) ->
  PyStr.contains (char NUL) s = false
  /\ ~ In k date_fields
  /\ exists s0, In (k, VStr s0) r /\ s0 <> ""
                /\ s = PyStr.replace (char NUL) "" (PyStr.strip s0).
Proof.
  unfold clean_fields. intros Hin. apply in_map_iff in Hin as ([k0 v0] & Heq & Hin).
  cbn [fst snd] in Heq. injection Heq as -> Hv.
  unfold clean_field in Hv. destruct v0 as [|s0| | | | |]; try discriminate.
  destruct s0 as [|c0 s0]; [discriminate|]. cbn [PyStr.is_empty] in Hv.
  destruct (bool_decide (k ∈ date_fields)) eqn:Hdate.
  - destruct (Strptime.strptime _); discriminate.
  - rewrite bool_decide_eq_false_2 in Hv by (unfold bool_fields; apply not_elem_of_nil).
    injection Hv as <-. split; [|split].
    + apply replace_char_absent. reflexivity.
    + apply bool_decide_eq_false_1 in Hdate. rewrite list_elem_of_In in Hdate. exact Hdate.
    + exists (String c0 s0). split; [exact Hin | split; [discriminate | reflexivity]].
Qed.

Lemma clean_keys_snoc (r : row) (kv : string * value) :
  clean_keys (r ++ [kv]) = dict_set (clean_key (fst kv)) (snd kv) (clean_keys r).
Proof. unfold clean_keys. rewrite fold_left_app. reflexivity. Qed.

(** X13. The first step of [parse_row] renames the columns: a name is
    stripped and its dots become underscores, so no name of the new row
    holds a dot and no name occurs twice; of two columns that get the
    same name the later one gives the value. *)
Theorem clean_keys_renames_columns (r : row) :
  NoDup (dict_keys (clean_keys r))
  /\ (forall k, In k (dict_keys (clean_keys r)) -> PyStr.contains "." k = false)
  /\ (forall k, dict_get k (clean_keys r) = dict_get k (renamed_last_first r)).
Proof.
  split; [apply NoDup_keys_clean_keys | split].
  - induction r as [|kv r IH] using rev_ind; [intros k []|].
    intros k Hin. rewrite clean_keys_snoc, dict_keys_set in Hin.
    destruct (dict_mem _ _); [apply IH, Hin|].
    apply in_app_or in Hin as [Hin|[<-|[]]]; [apply IH, Hin|].
    apply (replace_char_absent "."%char "_"). reflexivity.
  - intros k. induction r as [|kv r IH] using rev_ind; [reflexivity|].
    rewrite clean_keys_snoc. unfold renamed_last_first.
    rewrite map_app, rev_app_distr. cbn [map rev app dict_get fst snd].
    destruct (decide (clean_key (fst kv) = k)) as [<-|Hne].
    + apply dict_get_set_eq.
    + rewrite dict_get_set_ne by exact Hne. exact IH.
Qed.

(** X14. After [clean_categories] the row has the three category columns,
    whether or not it had them: each holds what its lookup table gives
    for the value the row had (for [None] when the column was missing),
    or that value when the table has no entry for it. The other columns
    are as they were. *)
Theorem clean_categories_fills_the_three_columns (api : ch_api) (r : row) :
  (forall c, In c (cats api) ->
     dict_get (fst c) (clean_categories api r)
     = Some (default (row_get (fst c) r) (snd c (row_get (fst c) r))))
  /\ (forall k, ~ In k (map fst (cats api)) ->
        dict_get k (clean_categories api r) = dict_get k r).
Proof.
  unfold clean_categories, cats. cbn [fold_left fst snd map]. split.
  - intros c [<-|[<-|[<-|[]]]]; cbn [fst snd].
    + rewrite !dict_get_set_ne by discriminate. apply dict_get_set_eq.
    + rewrite dict_get_set_ne by discriminate. rewrite dict_get_set_eq.
      unfold row_get. rewrite dict_get_set_ne by discriminate. reflexivity.
    + rewrite dict_get_set_eq.
      unfold row_get. rewrite !dict_get_set_ne by discriminate. reflexivity.
  - intros k Hk. rewrite !dict_get_set_ne; [reflexivity | intros <-; apply Hk; cbn; auto ..].
Qed.

(** ** Previous names need a name and a date *)

Lemma parse_previous_name_shape (k : string) (v : value) (a a' : row_acc) :
  parse_previous_name k v a = Ok a' ->
  if truthy v then
    exists pn1 pn2 E,
      nth_error (PyStr.split_char "_" k) 1 = Some pn1
      /\ nth_error (PyStr.split_char "_" k) 2 = Some pn2
      /\ previous_names a' = dict_set pn1 E (previous_names a)
      /\ (forall f, dict_mem f E = true ->
            f = pn2 \/ f = "nameno"
            \/ exists e, In (pn1, e) (previous_names a) /\ dict_mem f e = true)
  else a' = a.
Proof.
  unfold parse_previous_name, index.
  destruct (truthy v); [|intros [= <-]; reflexivity].
  destruct (nth_error (PyStr.split_char "_" k) 1) as [pn1|]; cbn [bind]; [|discriminate].
  destruct (nth_error (PyStr.split_char "_" k) 2) as [pn2|]; cbn [bind]; [|discriminate].
  set (names := if dict_mem pn1 (previous_names a) then previous_names a
                else dict_set pn1 [] (previous_names a)).
  set (entry := default [] (dict_get pn1 names)).
  assert (forall E, dict_set pn1 E names = dict_set pn1 E (previous_names a)) as Hnames.
  { intros E. unfold names. destruct (dict_mem pn1 (previous_names a));
      [reflexivity | apply dict_set_set]. }
  assert (forall f, dict_mem f entry = true ->
            exists e, In (pn1, e) (previous_names a) /\ dict_mem f e = true) as Hentry.
  { intros f Hf. unfold entry, names in Hf. unfold dict_mem at 2 in Hf.
    destruct (dict_get pn1 (previous_names a)) as [e|] eqn:Hget.
    - rewrite Hget in Hf. exists e. split; [apply dict_get_In, Hget | exact Hf].
    - rewrite dict_get_set_eq in Hf. discriminate. }
  assert (forall f f0 x (d : dict string value),
            dict_mem f (dict_set f0 x d) = true -> f = f0 \/ dict_mem f d = true) as Hmem.
  { intros f f0 x d. unfold dict_mem. destruct (decide (f0 = f)) as [->|Hne]; [auto|].
    rewrite dict_get_set_ne by exact Hne. auto. }
  destruct (bool_decide (pn2 = "CONDATE")) eqn:Hcon.
  - destruct (as_str v TypeError) as [s|]; cbn [bind]; [|discriminate].
    destruct (Strptime.strptime s) as [d|]; [|discriminate].
    intros [= <-]. apply bool_decide_eq_true_1 in Hcon. subst pn2.
    exists pn1, "CONDATE". eexists. split; [reflexivity|]. split; [reflexivity|].
    split; [apply Hnames|].
    intros f Hf. apply Hmem in Hf as [->|Hf]; [auto|].
    apply Hmem in Hf as [->|Hf]; [auto|]. right. right. apply Hentry, Hf.
  - intros [= <-]. exists pn1, pn2. eexists. split; [reflexivity|]. split; [reflexivity|].
    split; [apply Hnames|].
    intros f Hf. apply Hmem in Hf as [->|Hf]; [auto|]. right. right. apply Hentry, Hf.
Qed.

Lemma parse_column_names (kv : string * value) (a a' : row_acc) :
  parse_column kv a = Ok a' ->
  if PyStr.startswith "PreviousName_" (fst kv) && truthy (snd kv) then
    exists pn1 pn2 E,
      nth_error (PyStr.split_char "_" (fst kv)) 1 = Some pn1
      /\ nth_error (PyStr.split_char "_" (fst kv)) 2 = Some pn2
      /\ previous_names a' = dict_set pn1 E (previous_names a)
      /\ (forall f, dict_mem f E = true ->
            f = pn2 \/ f = "nameno"
            \/ exists e, In (pn1, e) (previous_names a) /\ dict_mem f e = true)
  else previous_names a' = previous_names a.
Proof.
  destruct kv as [k v]. unfold parse_column. cbn [fst snd].
  destruct (PyStr.startswith "PreviousName_" k); cbn [andb].
  - intros H. apply parse_previous_name_shape in H.
    destruct (truthy v); [exact H | rewrite H; reflexivity].
  - destruct (PyStr.startswith "SICCode_" k); [|intros [= <-]; reflexivity].
    unfold parse_sic_code.
    destruct (truthy v); [|intros [= <-]; reflexivity].
    destruct (as_str v AttributeError) as [s|]; cbn [bind]; [|discriminate].
    destruct (negb _); [|intros [= <-]; reflexivity].
    destruct (map PyStr.strip (PyStr.split1 " - " s)) as [|c [|t [|? ?]]]; try discriminate.
    intros [= <-]. reflexivity.
Qed.

(** Every number of a previous name met in the columns has an entry. *)
Lemma parse_columns_entries (l : list (string * value)) :
  forall a a',
    for_each parse_column l a = Ok a' ->
    (forall n e, In (n, e) (previous_names a) -> exists e', In (n, e') (previous_names a'))
    /\ (forall k v, In (k, v) l ->
          PyStr.startswith "PreviousName_" k = true -> truthy v = true ->
          exists n e, nth_error (PyStr.split_char "_" k) 1 = Some n
                      /\ In (n, e) (previous_names a')).
Proof.
  induction l as [|[k v] l IH]; intros a a' H.
  - injection H as <-. split; [intros n e Hin; exists e; exact Hin | intros k v []].
  - cbn [for_each] in H.
    destruct (parse_column (k, v) a) as [a1|e] eqn:Hstep; cbn [bind] in H; [|discriminate].
    apply parse_column_names in Hstep. cbn [fst snd] in Hstep.
    destruct (IH _ _ H) as [Hkeep Hcols].
    assert (forall n e, In (n, e) (previous_names a) ->
                        exists e', In (n, e') (previous_names a1)) as Hkeep1.
    { intros n e Hin. destruct (_ && _).
      - destruct Hstep as (pn1 & pn2 & E & _ & _ & -> & _).
        destruct (decide (n = pn1)) as [->|Hne].
        + exists E. apply In_dict_set_same.
        + exists e. apply In_dict_set_other; assumption.
      - rewrite Hstep. exists e. exact Hin. }
    split.
    + intros n e Hin. destruct (Hkeep1 n e Hin) as (e1 & Hin1). apply (Hkeep n e1 Hin1).
    + intros k' v' [[= <- <-]|Hin] Hp Ht; [|apply (Hcols k' v' Hin Hp Ht)].
      rewrite Hp, Ht in Hstep. cbn [andb] in Hstep.
      destruct Hstep as (pn1 & pn2 & E & H1 & _ & Hnames & _).
      destruct (Hkeep pn1 E) as (e' & Hin').
      { rewrite Hnames. apply In_dict_set_same. }
      exists pn1, e'. split; assumption.
Qed.

(** Every part of an entry comes from a column. *)
Lemma parse_columns_parts (l : list (string * value)) (a0 a' : row_acc) :
  previous_names a0 = [] ->
  for_each parse_column l a0 = Ok a' ->
  forall n e f, In (n, e) (previous_names a') ->
    f = "CompanyName" \/ f = "CONDATE" ->
    dict_mem f e = true -> has_name_part l n f.
Proof.
  intros Hnil H.
  refine (for_each_invariant parse_column
            (fun a => forall n e f, In (n, e) (previous_names a) ->
                        f = "CompanyName" \/ f = "CONDATE" ->
                        dict_mem f e = true -> has_name_part l n f) l _ a0 a' _ H).
  - intros [k v] a a1 Hin Ha Hstep n e f Hn Hf Hmem.
    apply parse_column_names in Hstep. cbn [fst snd] in Hstep.
    destruct (PyStr.startswith "PreviousName_" k) eqn:Hp; cbn [andb] in Hstep;
      [|rewrite Hstep in Hn; apply (Ha n e f Hn Hf Hmem)].
    destruct (truthy v) eqn:Ht; [|rewrite Hstep in Hn; apply (Ha n e f Hn Hf Hmem)].
    destruct Hstep as (pn1 & pn2 & E & H1 & H2 & Hnames & HE).
    rewrite Hnames in Hn. apply In_dict_set in Hn as [[-> ->]|Hn];
      [|apply (Ha n e f Hn Hf Hmem)].
    destruct (HE f Hmem) as [->|[->|(e0 & Hin0 & Hmem0)]].
    + exists k, v. repeat split; assumption.
    + destruct Hf; discriminate.
    + apply (Ha pn1 e0 f Hin0 Hf Hmem0).
  - intros n e f Hin. rewrite Hnil in Hin. destruct Hin.
Qed.

Lemma names_loop_needs_parts {S : Type} (mk : dict string value -> value -> value -> S -> S)
  (l : list (dict string value)) :
  forall s s',
    for_each
      (fun n st =>
         name <- subscript "CompanyName" n ;;
         condate <- subscript "CONDATE" n ;;
         Ok (mk n name condate st)) l s = Ok s' ->
    forall n, In n l -> dict_mem "CompanyName" n = true /\ dict_mem "CONDATE" n = true.
Proof.
  induction l as [|n0 l IH]; intros s s' H n Hin; [destruct Hin|].
  cbn [for_each] in H. unfold subscript, dict_mem in *.
  destruct (dict_get "CompanyName" n0) as [name|] eqn:Hname; cbn [bind] in H; [|discriminate].
  destruct (dict_get "CONDATE" n0) as [condate|] eqn:Hcon; cbn [bind] in H; [|discriminate].
  destruct Hin as [<-|Hin].
  - rewrite Hname, Hcon. split; reflexivity.
  - apply (IH _ _ H n Hin).
Qed.

(** X15. [parse_row] returns only on a row in which every previous name
    is whole: when a column [PreviousName_<n>_...] has a value that is
    neither [None] nor empty, the cleaned row has such a value both in a
    column [PreviousName_<n>_CompanyName] and in a column
    [PreviousName_<n>_CONDATE]. A previous name with a name and no date,
    or a date and no name, makes [parse_row] raise. *)
Theorem previous_name_needs_name_and_date
  (api : ch_api) (r : row) (st st' : state) (k : string) (v : value) :
  parse_row api r st = Ok st' ->
  In (k, v) (cleaned api r) ->
  PyStr.startswith "PreviousName_" k = true ->
  truthy v = true ->
  exists n,
    nth_error (PyStr.split_char "_" k) 1 = Some n
    /\ has_name_part (cleaned api r) n "CompanyName"
    /\ has_name_part (cleaned api r) n "CONDATE".
Proof.
  unfold parse_row. fold (cleaned api r). intros H Hin Hp Ht.
  destruct (for_each parse_column (cleaned api r) (mkAcc [] [] [] st)) as [a|e] eqn:Hloop;
    cbn [bind] in H; [|discriminate].
  destruct (company_kwargs _ (record a)) as [company|e]; cbn [bind] in H; [|discriminate].
  destruct (for_each _ (dict_values (previous_names a)) _) as [st1|e] eqn:Hpn;
    cbn [bind] in H; [|discriminate].
  destruct (parse_columns_entries _ _ _ Hloop) as [_ Hcols].
  destruct (Hcols k v Hin Hp Ht) as (n & e & Hn & He).
  pose proof (parse_columns_parts _ (mkAcc [] [] [] st) a eq_refl Hloop) as Hparts.
  apply (names_loop_needs_parts
           (fun n name condate st =>
              add_record PreviousName
                [("company", VObj Company (pk Company company)); ("CompanyName", name);
                 ("ConDate", condate); ("in_latest_update", VBool true)] st)) with (n := e)
    in Hpn.
  2:{ unfold dict_values. apply in_map_iff. exists (n, e). split; [reflexivity | exact He]. }
  destruct Hpn as [Hname Hcon].
  exists n. split; [exact Hn|]. split.
  - apply (Hparts n e "CompanyName" He (or_introl eq_refl) Hname).
  - apply (Hparts n e "CONDATE" He (or_intror eq_refl) Hcon).
Qed.

(** ** logcommand: the command line, the stored text, an interrupted run *)

Section LogCommandMore.
Import LogCommand.

Lemma partition_space (s a b : string) :
  PyStr.partition " " s = Some (a, b) ->
  PyStr.contains " " a = false /\ s = a +:+ " " +:+ b.
Proof.
  revert a b. induction s as [|x s IH]; intros a b; [discriminate|].
  cbn [PyStr.partition]. change (String.prefix " " (String x s)) with (String.prefix (char " ") (String x s)).
  rewrite (prefix_char " "%char x s).
  destruct (bool_decide (" "%char = x)) eqn:Hx.
  - intros [= <- <-]. apply bool_decide_eq_true_1 in Hx. subst x.
    split; reflexivity.
  - destruct (PyStr.partition " " s) as [[a0 b0]|]; [|discriminate].
    intros [= <- <-]. destruct (IH a0 b0 eq_refl) as [Hc Hs]. split.
    + change (PyStr.contains (char " ") (String x a0) = false).
      rewrite (contains_char_cons " "%char x a0), Hx. exact Hc.
    + rewrite Hs at 1. reflexivity.
Qed.

Lemma partition_space_none (s : string) :
  PyStr.partition " " s = None -> PyStr.contains " " s = false.
Proof.
  induction s as [|x s IH]; [reflexivity|].
  cbn [PyStr.partition]. change (String.prefix " " (String x s)) with (String.prefix (char " ") (String x s)).
  rewrite (prefix_char " "%char x s).
  destruct (bool_decide (" "%char = x)) eqn:Hx; [discriminate|].
  destruct (PyStr.partition " " s) as [[a0 b0]|]; [discriminate|].
  intros _. change (PyStr.contains (char " ") (String x s) = false).
  rewrite (contains_char_cons " "%char x s), Hx. apply IH. reflexivity.
Qed.

(** X16. [handle] reads its arguments as one text, the words joined by
    spaces, and cuts it at the first space: the name of the command holds
    no space, and the options, when there are any, are all that follows
    that space, so that name, space and options give the text back. With
    no space in the text there are no options. *)
Theorem command_line_is_cut_at_first_space (cmd : list string) :
  PyStr.contains " " (fst (parse_options cmd)) = false
  /\ join " " cmd
     = match snd (parse_options cmd) with
       | Some o => fst (parse_options cmd) +:+ " " +:+ o
       | None => fst (parse_options cmd)
       end.
Proof.
  unfold parse_options, PyStr.split1.
  destruct (PyStr.partition " " (join " " cmd)) as [[a b]|] eqn:Hp; cbn [fst snd].
  - apply partition_space in Hp. exact Hp.
  - split; [apply partition_space_none, Hp | reflexivity].
Qed.

Lemma emit_log (r : LogRecord) (h : CommandLogHandler) :
  handler_log h = default "" (log (commandlog h)) ->
  log (commandlog (emit r h)) = Some (handler_log h +:+ format r +:+ terminator)
  /\ handler_log (emit r h) = handler_log h +:+ format r +:+ terminator
  /\ stored (emit r h) = commandlog (emit r h)
  /\ status (commandlog (emit r h)) = status (commandlog h)
  /\ logs (commandlog (emit r h)) = logs (commandlog h)
  /\ completed (commandlog (emit r h)) = completed (commandlog h).
Proof.
  intros H. unfold emit, save. cbn [commandlog handler_log stored].
  destruct (str_truthy (log (commandlog h))) eqn:Ht;
    cbn [log set_log status logs completed default]; rewrite H.
  - repeat split; reflexivity.
  - repeat split; try reflexivity.
    destruct (log (commandlog h)) as [[|c s]|]; try reflexivity. discriminate.
Qed.

Lemma app_string_assoc (a b c : string) : (a +:+ b) +:+ c = a +:+ (b +:+ c).
Proof.
  induction a as [|x a IH]; [reflexivity|].
  change (String x ((a +:+ b) +:+ c) = String x (a +:+ (b +:+ c))). rewrite IH. reflexivity.
Qed.

Lemma app_string_nil (s : string) : s +:+ "" = s.
Proof.
  induction s as [|x s IH]; [reflexivity|].
  change (String x (s +:+ "") = String x s). rewrite IH. reflexivity.
Qed.

Lemma emit_all_log (rs : list LogRecord) :
  forall h,
    handler_log h = default "" (log (commandlog h)) ->
    stored h = commandlog h ->
    handler_log (emit_all rs h) = handler_log h +:+ log_lines rs
    /\ log (commandlog (emit_all rs h))
       = match rs with [] => log (commandlog h) | _ => Some (handler_log h +:+ log_lines rs) end
    /\ stored (emit_all rs h) = commandlog (emit_all rs h)
    /\ status (commandlog (emit_all rs h)) = status (commandlog h)
    /\ logs (commandlog (emit_all rs h)) = logs (commandlog h)
    /\ completed (commandlog (emit_all rs h)) = completed (commandlog h).
Proof.
  induction rs as [|r rs IH]; intros h Hh Hs.
  - cbn [emit_all fold_left log_lines].
    rewrite app_string_nil. repeat split; try reflexivity. exact Hs.
  - destruct (emit_log r h Hh) as (Hlog & Hhl & Hst & Hstatus & Hlogs & Hcompl).
    change (emit_all (r :: rs) h) with (emit_all rs (emit r h)).
    destruct (IH (emit r h)) as (IH1 & IH2 & IH3 & IH4 & IH5 & IH6).
    { rewrite Hhl, Hlog. reflexivity. }
    { exact Hst. }
    assert (handler_log (emit r h) +:+ log_lines rs = handler_log h +:+ log_lines (r :: rs))
      as Heq.
    { rewrite Hhl. cbn [log_lines]. rewrite !app_string_assoc. reflexivity. }
    split; [rewrite IH1; exact Heq|].
    split; [|split; [exact IH3 | split; [congruence | split; congruence]]].
    rewrite IH2. destruct rs; [|rewrite Heq; reflexivity].
    rewrite Hlog. cbn [log_lines].
    rewrite app_string_nil. reflexivity.
Qed.

Lemma handler_after_records (w : world) (cmd : list string) :
  let c := mkCommandLog (fst (parse_options cmd)) (snd (parse_options cmd))
                        RUNNING (now_started w) None None None in
  let h := emit_all (records_kept w cmd) (new_handler c) in
  handler_log h = log_lines (records_kept w cmd)
  /\ log (commandlog h)
     = match records_kept w cmd with [] => None | _ => Some (log_lines (records_kept w cmd)) end
  /\ stored h = commandlog h
  /\ status (commandlog h) = RUNNING
  /\ logs (commandlog h) = None
  /\ completed (commandlog h) = None.
Proof.
  intros c h.
  destruct (emit_all_log (records_kept w cmd) (new_handler c) eq_refl eq_refl)
    as (H1 & H2 & H3 & H4 & H5 & H6).
  repeat split; assumption.
Qed.

Lemma handle_handler (w : world) (cmd : list string) :
  let c := mkCommandLog (fst (parse_options cmd)) (snd (parse_options cmd))
                        RUNNING (now_started w) None None None in
  let h := emit_all (records_kept w cmd) (new_handler c) in
  snd (handle w cmd)
  = match ends (wrapped_run w cmd) with
    | Exits => h
    | _ => teardown (now_completed w) h
    end.
Proof.
  intros c h. unfold handle, h, c, records_kept.
  destruct (parse_options cmd) as [command cmd_options]. cbn [fst snd].
  rewrite handle_records_emit_all.
  destruct (ends (wrapped_run w cmd)) as [|err|]; cbn [snd].
  - rewrite app_nil_r. reflexivity.
  - rewrite handle_records_emit_all. unfold emit_all. rewrite fold_left_app. reflexivity.
  - rewrite app_nil_r. reflexivity.
Qed.

(** X17. When [handle] returns or raises the exception of the wrapped
    command, the text of the stored [CommandLog] is made of the records at
    [INFO] or above that the command logged, in order, each formatted and
    followed by a line feed, and after them, when the command raised, of
    the record of the exception; with no such record the text is never
    assigned. The attribute [logs], which [teardown] sets only when the
    handler has a text and the [CommandLog] has none, is never set. *)
Theorem stored_log_is_the_records_in_order (w : world) (cmd : list string) :
  ends (wrapped_run w cmd) <> Exits ->
  log (stored (snd (handle w cmd)))
  = match records_kept w cmd with
    | [] => None
    | _ => Some (log_lines (records_kept w cmd))
    end
  /\ logs (stored (snd (handle w cmd))) = None
  /\ completed (stored (snd (handle w cmd))) = Some (now_completed w).
Proof.
  intros Hends. rewrite handle_handler.
  destruct (handler_after_records w cmd) as (Hhl & Hlog & _ & _ & Hlogs & _).
  set (h := emit_all (records_kept w cmd) _) in *.
  assert (forall now,
            log (stored (teardown now h)) = log (commandlog h)
            /\ logs (stored (teardown now h)) = None
            /\ completed (stored (teardown now h)) = Some now) as Htear.
  { intros now. unfold teardown, save. cbn [stored].
    assert (negb (PyStr.is_empty (handler_log h))
            && negb (str_truthy (log (commandlog h))) = false) as Hdead.
    { rewrite Hhl, Hlog. destruct (records_kept w cmd) as [|r rs]; [reflexivity|].
      cbn [str_truthy]. destruct (log_lines (r :: rs)); reflexivity. }
    destruct (Nat.ltb 0 (errors h)); cbn [log set_status set_logs set_completed logs completed];
      rewrite Hdead; cbn [log logs completed set_completed]; auto. }
  destruct (ends (wrapped_run w cmd)) as [|err|]; [| |contradiction].
  - destruct (Htear (now_completed w)) as (-> & -> & ->). rewrite Hlog. auto.
  - destruct (Htear (now_completed w)) as (-> & -> & ->). rewrite Hlog. auto.
Qed.

(** X18. A run that the wrapped command leaves by an exception that is no
    [Exception] (a [KeyboardInterrupt], a [SystemExit]) goes past the
    handler of [handle]: [teardown] is not called, and the stored
    [CommandLog] stays [RUNNING], without a time of completion, whatever
    was logged. *)
Theorem interrupted_run_stays_running (w : world) (cmd : list string) :
  ends (wrapped_run w cmd) = Exits ->
  fst (handle w cmd) = Exits
  /\ status (stored (snd (handle w cmd))) = RUNNING
  /\ completed (stored (snd (handle w cmd))) = None.
Proof.
  intros Hends. split.
  - unfold handle. destruct (parse_options cmd) as [command cmd_options].
    rewrite Hends. reflexivity.
  - rewrite handle_handler, Hends.
    destruct (handler_after_records w cmd) as (_ & _ & -> & -> & _ & ->).
    split; reflexivity.
Qed.

End LogCommandMore.

(** ** Reserved column names *)

Lemma dict_get_filter (p : string * value -> bool) (k : string) (l : dict string value) :
  (forall v, p (k, v) = true) ->
  dict_get k (List.filter p l) = dict_get k l.
Proof.
  intros Hp. induction l as [|[k' v'] l IH]; [reflexivity|].
  cbn [List.filter]. destruct (p (k', v')) eqn:Hkv; cbn [dict_get].
  - destruct (decide (k' = k)); [reflexivity | exact IH].
  - destruct (decide (k' = k)) as [->|_]; [|exact IH].
    rewrite Hp in Hkv. discriminate.
Qed.

(** X19. [parse_row] returns only on a row without a column named
    [last_updated] or [in_latest_update]: [parse_row] gives both as
    keyword arguments next to the columns of the row, and a keyword
    given twice is a [TypeError]. *)
Theorem reserved_column_names_make_parse_row_raise
  (api : ch_api) (r : row) (st st' : state) :
  parse_row api r st = Ok st' ->
  dict_mem "last_updated" (cleaned api r) = false
  /\ dict_mem "in_latest_update" (cleaned api r) = false.
Proof.
  unfold parse_row. fold (cleaned api r).
  destruct (for_each parse_column (cleaned api r) (mkAcc [] [] [] st)) as [a|e] eqn:Hloop;
    cbn [bind]; [|discriminate].
  apply parse_columns_frame in Hloop as (Hrec & _).
  cbn [record] in Hrec.
  rewrite fold_dict_set_fresh in Hrec.
  2:{ apply NoDup_keys_filter. apply NoDup_keys_cleaned. }
  2:{ intros k _ []. }
  cbn [app] in Hrec.
  unfold company_kwargs. rewrite Hrec. unfold dict_mem, company_columns.
  rewrite !dict_get_filter by (intros v; reflexivity).
  destruct (dict_get "last_updated" (cleaned api r));
    destruct (dict_get "in_latest_update" (cleaned api r)); cbn [orb bind];
    try discriminate.
  intros _. split; reflexivity.
Qed.

(** ** The pattern of the archives *)

Lemma prefix_app (p s t : string) :
  String.prefix p s = true -> String.prefix p (s +:+ t) = true.
Proof.
  revert s. induction p as [|c p IH]; intros s H.
  - destruct (s +:+ t); reflexivity.
  - destruct s as [|x s]; [discriminate|].
    change (String x s +:+ t) with (String x (s +:+ t)).
    cbn [String.prefix] in *. destruct (ascii_dec c x); [apply IH, H | discriminate].
Qed.

Lemma prefix_app_short (p s t : string) :
  String.prefix p (s +:+ t) = true -> String.prefix p s = false ->
  String.length s < String.length p.
Proof.
  revert s. induction p as [|c p IH]; intros s H Hs.
  - destruct s; discriminate.
  - destruct s as [|x s]; [cbn; lia|].
    change (String x s +:+ t) with (String x (s +:+ t)) in H.
    cbn [String.prefix] in *. destruct (ascii_dec c x); [|discriminate].
    cbn [String.length]. apply IH in H; [lia | exact Hs].
Qed.

Lemma prefix_length (p s : string) :
  String.prefix p s = true -> String.length p <= String.length s.
Proof.
  revert s. induction p as [|c p IH]; intros s H; [cbn; lia|].
  destruct s as [|x s]; [discriminate|].
  cbn [String.prefix] in H. destruct (ascii_dec c x); [|discriminate].
  cbn [String.length]. apply IH in H. lia.
Qed.

Lemma partition_length (sep s a b : string) :
  PyStr.partition sep s = Some (a, b) -> String.length sep <= String.length s.
Proof.
  revert a b. induction s as [|x s IH]; intros a b; [discriminate|].
  cbn [PyStr.partition].
  destruct (String.prefix sep (String x s)) eqn:Hp.
  - intros _. apply prefix_length, Hp.
  - destruct (PyStr.partition sep s) as [[a0 b0]|]; [|discriminate].
    intros _. specialize (IH a0 b0 eq_refl). cbn [String.length]. lia.
Qed.

Lemma drop_app (n : nat) (s t : string) :
  n <= String.length s -> PyStr.drop n (s +:+ t) = PyStr.drop n s +:+ t.
Proof.
  revert s. induction n as [|n IH]; intros s Hn.
  - destruct s; destruct t; reflexivity.
  - destruct s as [|x s]; [cbn in Hn; lia|].
    change (String x s +:+ t) with (String x (s +:+ t)).
    cbn [PyStr.drop]. apply IH. cbn [String.length] in Hn. lia.
Qed.

Lemma partition_app (sep s t a b : string) :
  PyStr.partition sep s = Some (a, b) ->
  PyStr.partition sep (s +:+ t) = Some (a, b +:+ t).
Proof.
  revert a b. induction s as [|x s IH]; intros a b; [discriminate|].
  change (String x s +:+ t) with (String x (s +:+ t)).
  cbn [PyStr.partition].
  destruct (String.prefix sep (String x s)) eqn:Hp.
  - intros [= <- <-].
    change (String x (s +:+ t)) with (String x s +:+ t).
    rewrite (prefix_app _ _ t Hp), drop_app by (apply prefix_length, Hp). reflexivity.
  - destruct (PyStr.partition sep s) as [[a0 b0]|] eqn:Hs; [|discriminate].
    intros [= <- <-].
    destruct (String.prefix sep (String x (s +:+ t))) eqn:Hp'.
    + exfalso.
      change (String x (s +:+ t)) with (String x s +:+ t) in Hp'.
      apply prefix_app_short in Hp'; [|exact Hp].
      apply partition_length in Hs. cbn [String.length] in Hp'. lia.
    + rewrite (IH a0 b0 eq_refl). reflexivity.
Qed.

Lemma contains_app (sub s t : string) :
  PyStr.contains sub s = true -> PyStr.contains sub (s +:+ t) = true.
Proof.
  induction s as [|x s IH].
  - cbn [PyStr.contains]. rewrite orb_false_r. intros H.
    destruct sub; [|discriminate]. destruct t; reflexivity.
  - change (String x s +:+ t) with (String x (s +:+ t)).
    cbn [PyStr.contains]. intros H. apply orb_true_iff in H as [H|H].
    + change (String x (s +:+ t)) with (String x s +:+ t).
      rewrite (prefix_app _ _ t H). reflexivity.
    + rewrite (IH H). apply orb_true_r.
Qed.

Lemma first_line_app (s t : string) :
  exists u, PyStr.first_line (s +:+ t) = PyStr.first_line s +:+ u.
Proof.
  induction s as [|x s [u IH]].
  - exists (PyStr.first_line t). reflexivity.
  - change (String x s +:+ t) with (String x (s +:+ t)).
    cbn [PyStr.first_line]. destruct (Ascii.eqb x "010"%char).
    + exists "". reflexivity.
    + exists u. rewrite IH. reflexivity.
Qed.

(** X20. [zip_regex] is not anchored at its end, and [fetch_file] applies
    it with [match]: a link that matches still matches with any text
    after it, so a link to [BasicCompanyData-....zip.md5] or to
    [BasicCompanyData-....zip?x=1] is fetched like an archive. *)
Theorem zip_regex_accepts_any_suffix (link rest : string) :
  zip_regex_match link = true -> zip_regex_match (link +:+ rest) = true.
Proof.
  unfold zip_regex_match.
  destruct (first_line_app link rest) as (u & ->).
  destruct (PyStr.partition "/BasicCompanyData-" (PyStr.first_line link)) as [[a b]|] eqn:Hp;
    [|discriminate].
  rewrite (partition_app _ _ u _ _ Hp). apply contains_app.
Qed.

(** ** The SICCode_ columns of a row *)


Lemma previous_name_not_sic (k : string) :
  PyStr.startswith "PreviousName_" k = true -> PyStr.startswith "SICCode_" k = false.
Proof.
  intros H. destruct (PyStr.startswith "SICCode_" k) eqn:Hs; [|reflexivity].
  rewrite (sic_not_previous_name k Hs) in H. discriminate.
Qed.












(** Each [SICCode_] column that is not passed over gives one SIC code. *)
Lemma parse_column_sic_count (kv : string * value) (a a' : row_acc) :
  parse_column kv a = Ok a' ->
  length (sic_codes a')
  = length (sic_codes a)
    + (if PyStr.startswith "SICCode_" (fst kv) && sic_given (snd kv) then 1 else 0).
Proof.
  destruct kv as [k v]. unfold parse_column. cbn [fst snd].
  destruct (PyStr.startswith "PreviousName_" k) eqn:Hp.
  - rewrite (previous_name_not_sic k Hp). cbn [andb]. rewrite Nat.add_0_r.
    unfold parse_previous_name.
    destruct (truthy v); [|intros [= <-]; reflexivity].
    destruct (index (PyStr.split_char "_" k) 1) as [pn1|]; cbn [bind]; [|discriminate].
    destruct (index (PyStr.split_char "_" k) 2) as [pn2|]; cbn [bind]; [|discriminate].
    destruct (bool_decide (pn2 = "CONDATE")).
    + destruct (as_str v TypeError) as [s|]; cbn [bind]; [|discriminate].
      destruct (Strptime.strptime s); [|discriminate].
      intros [= <-]. reflexivity.
    + intros [= <-]. reflexivity.
  - destruct (PyStr.startswith "SICCode_" k); cbn [andb];
      [|intros [= <-]; cbn [sic_codes]; lia].
    unfold parse_sic_code, sic_given.
    destruct v as [|s| | | | |]; cbn [truthy as_str bind];
      try (intros [= <-]; lia); try discriminate.
    + destruct (negb (PyStr.is_empty s)) eqn:Hs.
      * destruct (negb (PyStr.is_empty (PyStr.replace "None Supplied" "" s)));
          [|intros [= <-]; lia].
        destruct (map PyStr.strip (PyStr.split1 " - " s)) as [|c [|t [|? ?]]];
          try discriminate.
        intros [= <-]. cbn [sic_codes]. rewrite length_app. reflexivity.
      * intros [= <-]. destruct s; [|discriminate]. cbn. lia.
    + destruct b; [discriminate | intros [= <-]; lia].
Qed.

Lemma parse_columns_sic_count (l : list (string * value)) :
  forall a a',
    for_each parse_column l a = Ok a' ->
    length (sic_codes a') = length (sic_codes a) + length (sic_columns_given l).
Proof.
  induction l as [|kv l IH]; intros a a' H.
  - injection H as <-. cbn. lia.
  - cbn [for_each] in H.
    destruct (parse_column kv a) as [a1|e] eqn:Hstep; cbn [bind] in H; [|discriminate].
    apply parse_column_sic_count in Hstep. apply IH in H.
    unfold sic_columns_given in *. cbn [List.filter].
    destruct (PyStr.startswith "SICCode_" (fst kv) && sic_given (snd kv));
      cbn [length]; lia.
Qed.

(** What [parse_row] adds, with the number of its SIC codes. *)
Lemma parse_row_sic_count (api : ch_api) (r : row) (st st' : state) :
  parse_row api r st = Ok st' ->
  exists names codes,
    added st'
    = added st ++ (Company, company_of_row api r)
        :: map (pair PreviousName) names ++ map (pair CompanySICCode) codes
    /\ length codes = length (sic_columns_given (cleaned api r)).
Proof.
  unfold parse_row. fold (cleaned api r).
  destruct (for_each parse_column (cleaned api r) (mkAcc [] [] [] st)) as [a|e] eqn:Hloop;
    cbn [bind]; [|discriminate].
  pose proof (parse_columns_sic_count _ _ _ Hloop) as Hcount. cbn [sic_codes length] in Hcount.
  apply parse_columns_frame in Hloop as (Hrec & _ & _ & Hadd & _).
  cbn [record acc_state] in Hrec, Hadd.
  rewrite fold_dict_set_fresh in Hrec.
  2:{ apply NoDup_keys_filter. apply NoDup_keys_cleaned. }
  2:{ intros k _ []. }
  cbn [app] in Hrec.
  destruct (company_kwargs _ (record a)) as [company|e] eqn:Hkw; cbn [bind]; [|discriminate].
  assert (company = company_of_row api r) as ->.
  { unfold company_kwargs in Hkw. rewrite Hrec in Hkw.
    destruct (_ || _); [discriminate|]. cbv zeta in Hkw.
    destruct (forallb _ _); [|discriminate]. injection Hkw as <-. reflexivity. }
  destruct (for_each _ (dict_values (previous_names a)) _) as [st1|e] eqn:Hpn;
    cbn [bind]; [|discriminate].
  intros [= <-].
  apply (for_each_adds PreviousName (fun _ => True)) in Hpn.
  2:{ intros n s s'.
      destruct (subscript "CompanyName" n) as [name|]; cbn [bind]; [|discriminate].
      destruct (subscript "CONDATE" n) as [condate|]; cbn [bind]; [|discriminate].
      intros [= <-]. eexists. split; [reflexivity | exact I]. }
  destruct Hpn as (names & Hnames & _ & _).
  destruct (fold_left_adds CompanySICCode (fun _ => True)
              (fun s => [("company", VObj Company (pk Company (company_of_row api r)));
                         ("sic_code", VObj SICCode (pk SICCode s));
                         ("in_latest_update", VBool true)])
              (sic_codes a) (fun _ => I) st1) as [Hcodes _].
  exists names. eexists. split.
  - rewrite Hcodes, Hnames.
    destruct (add_record_frame Company (company_of_row api r) (acc_state a)) as (_ & -> & _).
    rewrite Hadd. rewrite <- !app_assoc. reflexivity.
  - rewrite length_map. exact Hcount.
Qed.


Section ConcreteSicRuns.
Import Runs.


End ConcreteSicRuns.

(** ** What parse_file reads and saves *)

Lemma calls_of_app (m : model) (l1 l2 : list (model * instance)) :
  calls_of m (l1 ++ l2) = calls_of m l1 ++ calls_of m l2.
Proof. apply List.filter_app. Qed.

Lemma calls_of_other (m m' : model) (rs : list instance) :
  m' <> m -> calls_of m (map (pair m') rs) = [].
Proof.
  intros Hne. induction rs as [|r rs IH]; [reflexivity|].
  cbn [map calls_of List.filter fst]. unfold calls_of in IH.
  rewrite bool_decide_eq_false_2 by exact Hne. exact IH.
Qed.

Lemma parse_row_companies (api : ch_api) (r : row) (st st' : state) :
  parse_row api r st = Ok st' ->
  companies_added st' = companies_added st ++ [company_of_row api r].
Proof.
  intros H. unfold companies_added.
  apply parse_row_sic_count in H as (names & codes & -> & _).
  change ((Company, company_of_row api r)
            :: map (pair PreviousName) names ++ map (pair CompanySICCode) codes)
    with ([(Company, company_of_row api r)]
            ++ map (pair PreviousName) names ++ map (pair CompanySICCode) codes).
  rewrite !calls_of_app, !calls_of_other by discriminate.
  rewrite !app_nil_r, map_app. reflexivity.
Qed.

Lemma parse_rows_companies (api : ch_api) (rows : list row) :
  forall st st',
    for_each (parse_row api) rows st = Ok st' ->
    companies_added st' = companies_added st ++ map (company_of_row api) rows.
Proof.
  induction rows as [|r rows IH]; intros st st' H.
  - injection H as <-. rewrite app_nil_r. reflexivity.
  - cbn [for_each] in H.
    destruct (parse_row api r st) as [s1|e] eqn:Hrow; cbn [bind] in H; [|discriminate].
    apply parse_row_companies in Hrow. apply IH in H.
    rewrite H, Hrow, <- app_assoc. reflexivity.
Qed.

Lemma parse_members_companies (w : world) (dbg : bool) (members : list zip_member) :
  forall st st',
    debug st = dbg ->
    for_each
      (fun f st =>
         let st := write (Opening (filename f)) st in
         st <- for_each (parse_row (api w)) (rows_read (debug st) (csv_rows f)) st ;;
         Ok (save_all_records st))
      members st = Ok st' ->
    companies_added st'
    = companies_added st ++ map (company_of_row (api w)) (rows_parsed dbg members).
Proof.
  induction members as [|f members IH]; intros st st' Hd H.
  - injection H as <-. cbn. rewrite app_nil_r. reflexivity.
  - cbn [for_each] in H. cbv zeta in H.
    change (debug (write (Opening (filename f)) st)) with (debug st) in H. rewrite Hd in H.
    destruct (for_each (parse_row (api w)) _ _) as [s1|e] eqn:Hrows; cbn [bind] in H;
      [|discriminate].
    pose proof (parse_rows_debug _ _ _ _ Hrows) as Hd1.
    apply parse_rows_companies in Hrows.
    destruct (save_all_records_frame s1) as (_ & Ha & Hd2 & _).
    apply IH in H.
    2:{ rewrite Hd2, Hd1. exact Hd. }
    rewrite H. unfold companies_added at 1. rewrite Ha. fold (companies_added s1).
    rewrite Hrows. unfold rows_parsed. cbn [flat_map]. rewrite map_app, <- app_assoc.
    unfold rows_read. reflexivity.
Qed.

(** X5. With [--debug], [parse_file] reads the rows of index 0 to 100 of
    every file of the archive, 101 rows, and no row after them; without it
    every row. When it returns, the companies it has passed to
    [add_record] are those of these rows, one for each, in order; and
    with [--debug] it does on an archive what it does on the archive whose
    files are cut to their first 101 rows. *)
Theorem debug_reads_101_rows (w : world) (resp : response) (url : string) (st : state) :
  (forall st' members,
      parse_file w resp url st = Ok st' ->
      content resp = Some members ->
      companies_added st'
      = companies_added st
        ++ map (company_of_row (api w))
               (flat_map (fun f => if debug st then firstn 101 (csv_rows f) else csv_rows f)
                         members))
  /\ (debug st = true ->
      parse_file w resp url st = parse_file w (first_rows 101 resp) url st).
Proof.
  split; [|apply debug_cuts_files].
  intros st' members H Hc. unfold parse_file in H. rewrite Hc in H.
  apply (parse_members_companies w (debug st)) in H; [exact H | reflexivity].
Qed.

(** X4. When [parse_file] returns, all that was parsed has been saved. On
    an archive with at least one file it leaves no record in any batch;
    on an archive without a file it saves nothing and leaves the batches
    and the database as they were; and when it began with empty batches
    and with the records of earlier calls of [add_record] stored, every
    record passed to [add_record], those of its rows included, is a row
    of its table with [in_latest_update] [True]. *)
Theorem parse_file_saves_everything
  (w : world) (resp : response) (url : string) (st st' : state) :
  parse_file w resp url st = Ok st' ->
  (forall members, content resp = Some members -> members <> [] -> all_empty st')
  /\ (content resp = Some [] -> records st' = records st /\ db st' = db st)
  /\ (all_empty st -> all_stored st -> all_stored st').
Proof.
  intros H.
  destruct (parse_file_empties_batches w resp url st st' H) as [HA HB].
  split; [exact HA | split; [exact HB|]].
  intros Hemp Hst.
  destruct (parse_file_inv [] w resp url st st' H) as [Hinv Hemp'].
  destruct Hinv as (_ & J3 & _).
  { split; [|split].
    - intros m k r Hin. rewrite Hemp in Hin. destruct Hin.
    - intros m r Hin. destruct (Hst m r Hin) as [Hm Hp]. split; [exact Hm | right; exact Hp].
    - intros row []. }
  intros m r Hin. destruct (J3 m r Hin) as [Hm [Hk|Hp]]; [|split; assumption].
  rewrite (Hemp' Hemp m) in Hk. destruct Hk.
Qed.

(** ** The further properties on concrete runs *)

Section MoreConcreteRuns.
Import Runs MoreRuns.

(** X1 on the first record of a new command. *)
Lemma add_record_only_buffers_witness :
  db (add_record Company acme_first (init_state empty_db)) = empty_db
  /\ written (add_record Company acme_first (init_state empty_db)) = []
  /\ dict_get [VStr "00000002"] (batch Company (add_record Company acme_first
                                                  (init_state empty_db)))
     = Some acme_first.
Proof.
  destruct (add_record_only_buffers Company acme_first (init_state empty_db))
    as (H1 & H2 & H3 & _).
  - apply Nat.ltb_lt. vm_compute. reflexivity.
  - split; [exact H1 | split; [exact H2 | exact H3]].
Defined.

(** X3 on a command that holds one company. *)
Lemma save_all_records_twice_witness :
  save_all_records (save_all_records (add_record Company acme_first (init_state empty_db)))
  = save_all_records (add_record Company acme_first (init_state empty_db)).
Proof.
  apply save_all_records_twice.
  vm_compute. apply NoDup_singleton.
Defined.

(** X4 on the archive of one row, parsed by a new command: the batches
    are empty and the company of the row is stored. *)
Lemma parse_file_saves_everything_witness :
  all_empty (reached (parse_file one_archive (zip_of [acme_row]) zip_link
                        (init_state empty_db))
                     (init_state empty_db))
  /\ present Company [VStr "00000002"]
             (objects Company
                (db (reached (parse_file one_archive (zip_of [acme_row]) zip_link
                                (init_state empty_db))
                             (init_state empty_db)))).
Proof.
  destruct (parse_file_saves_everything one_archive (zip_of [acme_row]) zip_link
              (init_state empty_db)
              (reached (parse_file one_archive (zip_of [acme_row]) zip_link
                          (init_state empty_db))
                       (init_state empty_db)))
    as (H1 & _ & H3).
  - vm_compute. reflexivity.
  - split.
    + apply (H1 _ eq_refl). discriminate.
    + apply (H3 (fun m => eq_refl) (fun m r (H : In (m, r) []) => match H with end)
                Company (company_of_row no_lookups acme_row)).
      vm_compute. left. reflexivity.
Defined.

(** X5 on a file of 150 rows, with [--debug]: 101 companies. *)
Lemma debug_reads_101_rows_witness :
  length (companies_added
            (reached (parse_file one_archive (zip_of (repeat acme_row 150)) zip_link
                        (set_debug true (init_state empty_db)))
                     (init_state empty_db)))
  = 101
  /\ parse_file one_archive (zip_of (repeat acme_row 150)) zip_link
                (set_debug true (init_state empty_db))
     = parse_file one_archive (first_rows 101 (zip_of (repeat acme_row 150))) zip_link
                  (set_debug true (init_state empty_db)).
Proof.
  split.
  - assert (parse_file one_archive (zip_of (repeat acme_row 150)) zip_link
                       (set_debug true (init_state empty_db))
            = Ok (reached (parse_file one_archive (zip_of (repeat acme_row 150)) zip_link
                             (set_debug true (init_state empty_db)))
                          (init_state empty_db))) as H.
    { vm_compute. reflexivity. }
    rewrite (proj1 (debug_reads_101_rows one_archive (zip_of (repeat acme_row 150)) zip_link
                      (set_debug true (init_state empty_db)))
               _ _ H eq_refl).
    vm_compute. reflexivity.
  - apply (proj2 (debug_reads_101_rows one_archive (zip_of (repeat acme_row 150)) zip_link
                    (set_debug true (init_state empty_db)))).
    reflexivity.
Defined.

(** X6 on a run whose one archive fails by a chunked-encoding error, on
    the database of an earlier import. *)
Lemma no_archive_witness :
  exists st',
    import_and_prune only_chunked plain (init_state old_db) = Ok st'
    /\ objects PreviousName (db st') = []
    /\ objects CompanySICCode (db st') = []
    /\ map in_latest_update (objects Company (db st')) = [VBool false].
Proof.
  destruct (no_archive_deletes_all_names_and_codes only_chunked plain (init_state old_db)
              (index_page [zip_link; other_link]))
    as (st' & H1 & H2 & H3 & H4 & _).
  - vm_compute. reflexivity.
  - vm_compute. reflexivity.
  - intros link [<-|[<-|[]]] Hm.
    + vm_compute. reflexivity.
    + vm_compute in Hm. discriminate Hm.
  - exists st'. split; [exact H1 | split; [exact H2 | split; [exact H3|]]].
    rewrite H4. vm_compute. reflexivity.
Defined.

(** X7 on the row of ACME LTD. *)
Lemma parse_row_adds_witness :
  exists names codes,
    added (reached (parse_row no_lookups acme_row (init_state empty_db)) (init_state empty_db))
    = (Company, company_of_row no_lookups acme_row)
        :: map (pair PreviousName) names ++ map (pair CompanySICCode) codes
    /\ (forall n, In n names -> company_of n = VObj Company (VStr "00000002"))
    /\ (forall c, In c codes -> company_of c = VObj Company (VStr "00000002")).
Proof.
  destruct (parse_row_adds_company_then_names_then_codes no_lookups acme_row
              (init_state empty_db)
              (reached (parse_row no_lookups acme_row (init_state empty_db))
                       (init_state empty_db)))
    as (names & codes & H1 & H2 & H3).
  - vm_compute. reflexivity.
  - exists names, codes. split; [exact H1 | split].
    + intros n Hn. apply (H2 n Hn).
    + intros c Hc. apply (H3 c Hc).
Defined.

(** X8 on the run of one archive. *)
Lemma companies_are_written_first_witness :
  parents_first [] (written (final_state (handle one_archive plain (init_state old_db))
                                         (init_state old_db))).
Proof.
  apply (companies_are_written_first one_archive plain old_db).
  vm_compute. reflexivity.
Defined.

(** X9 on the run of one archive, for the SIC code of ACME LTD. *)
Lemma company_sic_codes_witness :
  exists code row,
    getattr acme_sic "sic_code" = VObj SICCode (VStr code)
    /\ In row (objects SICCode
                 (db (reached (import_and_prune one_archive plain
                                 (set_debug false (init_state empty_db)))
                              (init_state empty_db))))
    /\ getattr row "code" = VStr code.
Proof.
  destruct (company_sic_codes_point_to_stored_codes one_archive plain empty_db
              (reached (import_and_prune one_archive plain
                          (set_debug false (init_state empty_db)))
                       (init_state empty_db))
              ltac:(vm_compute; reflexivity) acme_sic
              ltac:(vm_compute; repeat (first [left; reflexivity | right])))
    as (code & H & row & Hrow & Hcode).
  exists code, row. split; [exact H | split; [exact Hrow | exact Hcode]].
Defined.

(** X10 on a previous name that is stored without a date and comes again
    with one. *)
Lemma stored_names_keep_their_columns_witness :
  rows_keep_columns
    (objects PreviousName (db (add_record PreviousName old_name_again (init_state old_db))))
    (objects PreviousName
       (db (save_records PreviousName
              (add_record PreviousName old_name_again (init_state old_db))))).
Proof. apply stored_names_and_codes_keep_their_columns. left. reflexivity. Defined.

(** X11 on a stored company that comes again under another name. *)
Lemma stored_companies_take_every_column_witness :
  exists row,
    In row (objects Company
              (db (save_records Company
                     (add_record Company old_company_again (init_state old_db)))))
    /\ forall f, getattr row f = getattr old_company_again f.
Proof.
  apply (stored_companies_take_every_column
           (add_record Company old_company_again (init_state old_db))
           [VStr "00000001"] old_company_again).
  - split.
    + vm_compute. apply NoDup_singleton.
    + intros k r H. vm_compute in H. destruct H as [[= <- <-]|[]]. reflexivity.
  - vm_compute. left. reflexivity.
Defined.

(** X12 on a name with a NUL character. *)
Lemma clean_fields_leaves_no_nul_witness :
  PyStr.contains (char NUL) "ACME LTD" = false /\ ~ In "CompanyName" date_fields.
Proof.
  destruct (clean_fields_leaves_no_nul nul_row "CompanyName" "ACME LTD") as (H1 & H2 & _).
  - vm_compute. left. reflexivity.
  - split; [exact H1 | exact H2].
Defined.

(** X15 on the row of ACME LTD, whose previous name has a name and a
    date. *)
Lemma previous_name_needs_name_and_date_witness :
  exists n,
    has_name_part (cleaned no_lookups acme_row) n "CompanyName"
    /\ has_name_part (cleaned no_lookups acme_row) n "CONDATE".
Proof.
  destruct (previous_name_needs_name_and_date no_lookups acme_row (init_state empty_db)
              (reached (parse_row no_lookups acme_row (init_state empty_db))
                       (init_state empty_db))
              "PreviousName_1_CONDATE" (VStr "01/02/2003"))
    as (n & _ & H1 & H2).
  - vm_compute. reflexivity.
  - vm_compute. repeat (first [left; reflexivity | right]).
  - vm_compute. reflexivity.
  - reflexivity.
  - exists n. split; [exact H1 | exact H2].
Defined.

(** X19 on the row of ACME LTD. *)
Lemma reserved_column_names_witness :
  dict_mem "last_updated" (cleaned no_lookups acme_row) = false
  /\ dict_mem "in_latest_update" (cleaned no_lookups acme_row) = false.
Proof.
  apply (reserved_column_names_make_parse_row_raise no_lookups acme_row (init_state empty_db)
           (reached (parse_row no_lookups acme_row (init_state empty_db))
                    (init_state empty_db))).
  vm_compute. reflexivity.
Defined.

(** X20 on the link of the checksum of an archive. *)
Lemma zip_regex_accepts_any_suffix_witness :
  zip_regex_match (zip_link +:+ ".md5") = true.
Proof. apply zip_regex_accepts_any_suffix. vm_compute. reflexivity. Defined.

End MoreConcreteRuns.

Section MoreConcreteLogRuns.
Import LogCommand LogRuns MoreRuns.

(** X17 on a run that logs one line and raises. *)
Lemma stored_log_witness :
  log (stored (snd (handle raises_error ["import_companies"])))
  = Some (log_lines [info_record; exception_record raises_error boom])
  /\ logs (stored (snd (handle raises_error ["import_companies"]))) = None.
Proof.
  destruct (stored_log_is_the_records_in_order raises_error ["import_companies"])
    as (H1 & H2 & _).
  - vm_compute. discriminate.
  - split; [exact H1 | exact H2].
Defined.

(** X18 on a run that is interrupted after its first line. *)
Lemma interrupted_run_witness :
  status (stored (snd (handle interrupted ["import_companies"; "--debug"]))) = RUNNING
  /\ completed (stored (snd (handle interrupted ["import_companies"; "--debug"]))) = None.
Proof.
  destruct (interrupted_run_stays_running interrupted ["import_companies"; "--debug"])
    as (_ & H1 & H2).
  - vm_compute. reflexivity.
  - split; [exact H1 | exact H2].
Defined.

End MoreConcreteLogRuns.
